(** * Storage core of the content-addressable store: sniffer and S3 backend

    A shallow embedding of

    - package [index]: [BlobSniffer] (NewBlobSniffer, Write, Size,
      IsTruncated, Body, Parse, bufferIsCamliJSON);
    - package [s3]: the two constructors [NewFromHCLConfig] and
      [newFromConfigWithTransport].

    Go values are modelled as follows.  [int] and [int64] are [Z]; where the
    source does arithmetic on an [int64] the two's-complement wrap-around is
    written out with [wrap64].  [[]byte] is [list byte], [string] is
    [string].  A panic is the [Panics] outcome.  A [(T, error)] result is a
    sum.  Calls that reach the S3 service are threaded through an explicit
    state that carries the service, the (aliased) client object and a trace
    of the calls made. *)

From Stdlib Require Import ZArith List String Ascii Bool Lia.
From Stdlib Require Import Init.Byte.
Import ListNotations.

Local Open Scope Z_scope.

(** ** 64-bit signed integers *)

Module Int64.

Definition min_int : Z := - 2 ^ 63.
Definition max_int : Z := 2 ^ 63 - 1.

(** Two's-complement reduction of a mathematical integer to [int64]. *)
Definition wrap64 (z : Z) : Z := (z + 2 ^ 63) mod 2 ^ 64 - 2 ^ 63.

Definition in_range (z : Z) : Prop := min_int <= z <= max_int.

(** [x << n] on an [int64]. *)
Definition shl (x : Z) (n : Z) : Z := wrap64 (Z.shiftl x n).

(** [x + y] on [int64]s. *)
Definition add (x y : Z) : Z := wrap64 (x + y).

End Int64.

(** ** Panics *)

Inductive outcome (A : Type) : Type :=
| Returns (a : A)
| Panics (msg : string).
Arguments Returns {A} a.
Arguments Panics {A} msg.

(** ** Package strings (Go standard library), the functions the constructors
    call *)

Module Strings.

Fixpoint take (n : nat) (s : string) : string :=
  match n, s with
  | S k, String c s' => String c (take k s')
  | _, _ => EmptyString
  end.

Fixpoint drop (n : nat) (s : string) : string :=
  match n, s with
  | S k, String _ s' => drop k s'
  | _, _ => s
  end.

(** [strings.HasPrefix]: [s] is at least as long as [prefix] and starts
    with it. *)
Fixpoint HasPrefix (s prefix : string) {struct prefix} : bool :=
  match prefix with
  | EmptyString => true
  | String p prefix' =>
      match s with
      | EmptyString => false
      | String c s' => Ascii.eqb c p && HasPrefix s' prefix'
      end
  end.

Definition HasSuffix (s suffix : string) : bool :=
  (String.length suffix <=? String.length s)%nat
  && String.eqb (drop (String.length s - String.length suffix) s) suffix.

Definition TrimPrefix (s prefix : string) : string :=
  if HasPrefix s prefix then drop (String.length prefix) s else s.

(** [strings.Index]: position of the first occurrence of [sep] in [s];
    Go's -1 is [None]. *)
Fixpoint Index (s sep : string) : option nat :=
  if HasPrefix s sep then Some O
  else match s with
       | EmptyString => None
       | String _ s' => option_map S (Index s' sep)
       end.

Definition Contains (s substr : string) : bool :=
  match Index s substr with Some _ => true | None => false end.

(** The loop of [genSplit] for a non-empty separator: at most [k] cuts. *)
Fixpoint genSplit (k : nat) (s sep : string) : list string :=
  match k with
  | O => [s]
  | S k' =>
      match Index s sep with
      | None => [s]
      | Some m =>
          take m s :: genSplit k' (drop (m + String.length sep) s) sep
      end
  end.

(** [strings.SplitN(s, sep, n)] for a non-empty [sep]: no substrings for
    [n = 0], all of them for [n < 0], at most [n] otherwise, the last one
    being the unsplit remainder. *)
Definition SplitN (s sep : string) (n : Z) : list string :=
  if n =? 0 then []
  else if n <? 0 then genSplit (String.length s) s sep
  else genSplit (Z.to_nat n - 1) s sep.

End Strings.

(** ** Package index: the blob sniffer *)

Module Index.

(** What package index imports: [blob.Ref] and its [Valid] method;
    [schema.MaxSchemaBlobSize] (an untyped integer constant), [schema.Blob]
    with its [Type] method, [schema.LikelySchemaBlob] and
    [schema.BlobFromReader]; and the signature table behind
    [magic.MIMEType]: the content type a known signature at the head of the
    data stands for, if any. *)
Class Imports : Type := {
  Ref : Type;
  Valid : Ref -> bool;
  MaxSchemaBlobSize : Z;
  SchemaBlob : Type;
  LikelySchemaBlob : list byte -> bool;
  BlobFromReader : Ref -> list byte -> SchemaBlob + string;
  BlobType : SchemaBlob -> string;
  magicMatch : list byte -> option string
}.

Section BlobSniffer.

Context `{Imports}.

(** Modelled from the spec: [magic.MIMEType] (package internal/magic) is
    missing from the sources.  It is "magic-number content-type sniffing
    over the buffered prefix, yielding a best-effort content type (empty
    string if undetermined)"; the doc comment of [BlobSniffer.MIMEType]
    says the same: the content type, or the empty string if unknown. *)
Definition magic_MIMEType (hdr : list byte) : string :=
  match magicMatch hdr with
  | Some t => t
  | None => EmptyString
  end.

Record BlobSniffer : Type := mkSniffer {
  br : Ref;
  contents : list byte;
  written : Z;                  (* int64 *)
  meta : option SchemaBlob;     (* pointer to a schema.Blob, or nil *)
  mimeType : string;
  camliType : string
}.

Definition len (d : list byte) : Z := Z.of_nat (List.length d).

Definition NewBlobSniffer (ref : Ref) : outcome BlobSniffer :=
  if negb (Valid ref) then Panics "invalid ref"
  else Returns (mkSniffer ref [] 0 None EmptyString EmptyString).

(** The [SchemaBlob] method: the decoded document, if any, and whether
    there is one. *)
Definition SchemaBlobOf (sn : BlobSniffer) : option SchemaBlob * bool :=
  (meta sn, match meta sn with Some _ => true | None => false end).

(** [Write] returns the updated sniffer together with Go's [(int, error)]
    result. *)
Definition Write (sn : BlobSniffer) (d : list byte)
  : outcome (BlobSniffer * (Z * option string)) :=
  if negb (Valid (br sn)) then Panics "write on sniffer with invalid blobref"
  else
    let written' := Int64.add (written sn) (len d) in
    let contents' :=
      if len (contents sn) <? MaxSchemaBlobSize then
        let n := MaxSchemaBlobSize - len (contents sn) in
        let n := if len d <? n then len d else n in
        contents sn ++ firstn (Z.to_nat n) d
      else contents sn in
    Returns (mkSniffer (br sn) contents' written' (meta sn)
                       (mimeType sn) (camliType sn),
             (len d, None)).

Definition Size (sn : BlobSniffer) : Z := written sn.

Definition IsTruncated (sn : BlobSniffer) : bool :=
  MaxSchemaBlobSize <? written sn.

Definition Body (sn : BlobSniffer) : list byte + string :=
  if IsTruncated sn then inr "index.Body: was truncated"%string
  else inl (contents sn).

Definition MIMEType (sn : BlobSniffer) : string := mimeType sn.

Definition CamliType (sn : BlobSniffer) : string := camliType sn.

Definition bufferIsCamliJSON (sn : BlobSniffer) : BlobSniffer * bool :=
  let buf := contents sn in
  if negb (LikelySchemaBlob buf) then (sn, false)
  else
    match BlobFromReader (br sn) buf with
    | inr _ => (sn, false)
    | inl blob =>
        (mkSniffer (br sn) (contents sn) (written sn) (Some blob)
                   (mimeType sn) (camliType sn), true)
    end.

(** [sn.meta.Type()] dereferences [sn.meta]; on a nil pointer Go panics. *)
Definition Parse (sn : BlobSniffer) : outcome BlobSniffer :=
  let '(sn1, ok) := bufferIsCamliJSON sn in
  if ok then
    match meta sn1 with
    | None => Panics "nil pointer dereference"
    | Some m =>
        let camliType' := BlobType m in
        Returns (mkSniffer (br sn1) (contents sn1) (written sn1) (meta sn1)
                   (String.append "application/json; camliType=" camliType')
                   camliType')
    end
  else
    Returns (mkSniffer (br sn1) (contents sn1) (written sn1) (meta sn1)
                       (magic_MIMEType (contents sn1)) (camliType sn1)).

(** A caller's sequence of [Write] calls, in order; the first panic
    stops it. *)
Fixpoint WriteAll (sn : BlobSniffer) (ds : list (list byte))
  : outcome BlobSniffer :=
  match ds with
  | [] => Returns sn
  | d :: ds' =>
      match Write sn d with
      | Panics msg => Panics msg
      | Returns (sn', _) => WriteAll sn' ds'
      end
  end.

(** Total number of bytes handed to the sniffer by the calls [ds]. *)
Definition total (ds : list (list byte)) : Z := len (List.concat ds).

(** A sniffer's life up to classification: made for [ref], then written to
    with [ds]. *)
Definition sniff (ref : Ref) (ds : list (list byte)) : outcome BlobSniffer :=
  match NewBlobSniffer ref with
  | Panics msg => Panics msg
  | Returns sn => WriteAll sn ds
  end.

End BlobSniffer.

End Index.

(** ** Package s3: the storage constructors *)

Module S3.

Local Open Scope string_scope.

(** *** The S3 client (package internal/amazon/s3) *)

Record Auth : Type := mkAuth {
  AccessKey : string;
  SecretAccessKey : string;
  Hostname : string
}.

(** [PutGate] is the capacity the gate was made with; [Transport] is the
    optional round tripper, [None] for Go's nil. *)
Record Client (RoundTripper : Type) : Type := mkClient {
  ClientAuth : Auth;
  PutGate : Z;
  Transport : option RoundTripper
}.
Arguments mkClient {RoundTripper} _ _ _.
Arguments ClientAuth {RoundTripper} _.
Arguments PutGate {RoundTripper} _.
Arguments Transport {RoundTripper} _.

(** The two fields of [s3.Error] the constructors read. *)
Record s3Error : Type := mkS3Error {
  AmazonCode : string;
  UseEndpoint : string
}.

(** A non-nil [error] coming back from the client: either a pointer to an
    [s3.Error] (the type assertion succeeds) or a value of any other
    dynamic type. *)
Inductive callError : Type :=
| S3Err (serr : s3Error)
| OtherErr (msg : string).

(** The service behind the client.  A call sees the client as it is at the
    time of the call (so its current [Hostname]) and may change the state of
    the world.  [ListBucket] stands for
    [client.ListBucket(ctx, bucket, after, max)] with the listed items
    dropped, as both constructors drop them; [BucketLocation] for
    [client.BucketLocation(ctx, bucket)]. *)
Class Service : Type := {
  World : Type;
  RoundTripper : Type;
  ListBucket :
    World -> Client RoundTripper -> string -> string -> Z ->
    option callError * World;
  BucketLocation :
    World -> Client RoundTripper -> string -> (string + callError) * World
}.

(** *** Formatted text

    [fmt.Sprintf], [fmt.Errorf] and [log.Printf] are kept as the format
    string with its operands, unrendered. *)

Inductive fmtArg : Type :=
| ArgString (s : string)
| ArgError (e : callError).

Inductive text : Type :=
| Plain (s : string)
| Sprintf (format : string) (args : list fmtArg).

(** *** HCL diagnostics (package hcl) *)

Inductive DiagnosticSeverity : Type := DiagInvalid | DiagError | DiagWarning.

Record Pos : Type := mkPos { Line : Z; Column : Z; Byte : Z }.

Record Range : Type := mkRange { Filename : string; Start : Pos; End_ : Pos }.

Record Diagnostic : Type := mkDiagnostic {
  Severity : DiagnosticSeverity;
  Summary : string;
  Detail : text;
  Subject : option Range
}.

Definition Diagnostics : Type := list Diagnostic.

Definition isError (d : Diagnostic) : bool :=
  match Severity d with DiagError => true | _ => false end.

Definition HasErrors (diags : Diagnostics) : bool := existsb isError diags.

(** *** Errors a constructor returns *)

Inductive error : Type :=
| DiagnosticsError (diags : Diagnostics)      (* hcl.Diagnostics *)
| Errorf (format : string) (args : list fmtArg) (* fmt.Errorf *)
| ValidateError (problems : list string).     (* from config.Validate *)

(** *** Storage values *)

Section WithService.

Context `{Service}.

Record s3Storage : Type := mks3Storage {
  s3Client : Client RoundTripper;
  bucket : string;
  dirPrefix : string;
  hostname : string
}.

(** The double quote character, for format strings that contain it. *)
Definition dq : string := String (Ascii.ascii_of_nat 34) EmptyString.

(** The [String] method of [s3Storage] (lines 409-414), unrendered. *)
Definition String_ (s : s3Storage) : text :=
  if negb (dirPrefix s =? "") then
    Sprintf (dq ++ "s3" ++ dq ++ " blob storage at host %q, bucket %q, directory %q")
            [ArgString (hostname s); ArgString (bucket s); ArgString (dirPrefix s)]
  else
    Sprintf (dq ++ "s3" ++ dq ++ " blob storage at host %q, bucket %q")
            [ArgString (hostname s); ArgString (bucket s)].

(** [blobserver.Storage] values the constructors can return:
    the bare [s3Storage], or [proxycache.New(maxBytes, cache, origin)]
    around [memory.NewCache(size)] and the [s3Storage]. *)
Inductive Storage : Type :=
| S3Storage (sto : s3Storage)
| MemoryCache (size : Z)
| ProxyCache (maxBytes : Z) (cache origin : Storage).

(** *** Calls, state and trace

    [client] is the one [s3.Client] object the constructor allocates; the
    storage keeps a pointer to it, so what the storage holds is the client
    as the constructor left it. *)

Inductive event : Type :=
| EvListBucket (c : Client RoundTripper) (bucket after : string) (max : Z)
| EvBucketLocation (c : Client RoundTripper) (bucket : string)
| EvLogPrintf (format : string) (args : list fmtArg).

Record state : Type := mkState {
  world : World;
  client : Client RoundTripper;
  trace : list event
}.

Definition M (A : Type) : Type := state -> (A + error) * state.

Definition ret {A} (a : A) : M A := fun st => (inl a, st).

Definition fail {A} (e : error) : M A := fun st => (inr e, st).

Definition bind {A B} (m : M A) (k : A -> M B) : M B :=
  fun st =>
    match m st with
    | (inl a, st') => k a st'
    | (inr e, st') => (inr e, st')
    end.

Notation "x <- m ;; k" := (bind m (fun x => k))
  (at level 61, m at next level, right associativity).
Notation "m ;;; k" := (bind m (fun _ => k))
  (at level 61, right associativity).

Definition getClient : M (Client RoundTripper) := fun st => (inl (client st), st).

Definition callListBucket (bucket after : string) (max : Z)
  : M (option callError) :=
  fun st =>
    let '(r, w) := ListBucket (world st) (client st) bucket after max in
    (inl r,
     mkState w (client st)
             (trace st ++ [EvListBucket (client st) bucket after max])).

Definition callBucketLocation (bucket : string) : M (string + callError) :=
  fun st =>
    let '(r, w) := BucketLocation (world st) (client st) bucket in
    (inl r,
     mkState w (client st) (trace st ++ [EvBucketLocation (client st) bucket])).

(** [client.Auth.Hostname = h] *)
Definition setHostname (h : string) : M unit :=
  fun st =>
    let c := client st in
    let a := ClientAuth c in
    (inl tt,
     mkState (world st)
             (mkClient (mkAuth (AccessKey a) (SecretAccessKey a) h)
                       (PutGate c) (Transport c))
             (trace st)).

Definition logPrintf (format : string) (args : list fmtArg) : M unit :=
  fun st =>
    (inl tt, mkState (world st) (client st) (trace st ++ [EvLogPrintf format args])).

Definition maxParallelHTTP : Z := 5.

Definition warnFormat : string :=
  "Warning: s3 server should be %q, not %q. Change config file to avoid start-up latency.".

(** The retried listing of either redirect block: list again and, when that
    succeeds, log the warning with the client's hostname and the configured
    one. *)
Definition retryListing (sto_bucket hostname : string) : M (option callError) :=
  err <- callListBucket sto_bucket "" 1 ;;
  match err with
  | None =>
      c <- getClient ;;
      logPrintf warnFormat
        [ArgString (Hostname (ClientAuth c)); ArgString hostname] ;;;
      ret err
  | Some _ => ret err
  end.

(** The two redirect blocks, which both constructors have word for word
    (try_hcl_config.go lines 516-540 and 604-628).  [serr] is the error of
    the first listing and is what both tests read; [err] is the variable the
    retries overwrite. *)
Definition redirectBlocks (serr : s3Error) (err : option callError)
    (sto_bucket hostname : string) : M (option callError) :=
  err <-
    (if AmazonCode serr =? "PermanentRedirect" then
       r <- callBucketLocation sto_bucket ;;
       match r with
       | inr lerr =>
           fail (Errorf "Wrong server for bucket %q; and error determining bucket's location: %v"
                        [ArgString sto_bucket; ArgError lerr])
       | inl loc =>
           setHostname loc ;;;
           retryListing sto_bucket hostname
       end
     else ret err) ;;
  (if negb (UseEndpoint serr =? "") then
     setHostname (Strings.TrimPrefix (UseEndpoint serr) (sto_bucket ++ ".")) ;;;
     retryListing sto_bucket hostname
   else ret err).

(** The two tests of the redirect blocks, on the error of the first
    listing. *)
Definition regionRedirect (serr : s3Error) : bool :=
  AmazonCode serr =? "PermanentRedirect".

Definition endpointRedirect (serr : s3Error) : bool :=
  negb (UseEndpoint serr =? "").

(** [if err != nil { return nil, fmt.Errorf("Error listing bucket ...") }] *)
Definition listingError (sto_bucket : string) (err : option callError) : M unit :=
  match err with
  | Some e =>
      fail (Errorf "Error listing bucket %s: %v" [ArgString sto_bucket; ArgError e])
  | None => ret tt
  end.

(** Bucket name and directory prefix out of the configured bucket string
    (lines 472-479 and 577-583, the same in both constructors). *)
Definition splitBucket (bucket : string) : string * string :=
  let '(bucket, dirPrefix) :=
    match Strings.SplitN bucket "/" 2 with
    | part0 :: part1 :: _ => (part0, part1)
    | _ => (bucket, "")
    end in
  let dirPrefix :=
    if negb (dirPrefix =? "") && negb (Strings.HasSuffix dirPrefix "/")
    then dirPrefix ++ "/" else dirPrefix in
  (bucket, dirPrefix).

(** The final wrapping (lines 547-553 and 635-641).  [sto] points to the
    client, so the record is read off the state when the constructor
    returns. *)
Definition wrapCache (cacheSize : Z) (bucket dirPrefix hostname : string)
  : M Storage :=
  c <- getClient ;;
  let sto := mks3Storage c bucket dirPrefix hostname in
  if negb (cacheSize =? 0)%Z then
    ret (ProxyCache (Int64.shl cacheSize 2) (MemoryCache cacheSize) (S3Storage sto))
  else ret (S3Storage sto).

(** What a constructor call leaves behind: the Go result pair (a storage
    with a nil error, or nil with an error), the world, and the calls and
    log lines it made, in order. *)
Record result : Type := mkResult {
  returned : Storage + error;
  world_after : World;
  calls : list event
}.

(** A return before the client exists. *)
Definition early (e : error) (w : World) : result := mkResult (inr e) w [].

Definition run (w : World) (c : Client RoundTripper) (m : M Storage) : result :=
  let '(r, st) := m (mkState w c []) in
  mkResult r (world st) (trace st).

(** *** NewFromHCLConfig

    An [hcl.Expression] is modelled by what [gohcl.DecodeExpression] yields
    for it in the block's evaluation context (the decoded string and the
    diagnostics) and by its source range; [configs.Storage] by what
    [gohcl.DecodeBody] yields for its body (diagnostics and the raw
    configuration). *)

Record Expression : Type := mkExpression {
  exprValue : string;
  exprDiags : Diagnostics;
  exprRange : Range
}.

Record rawConfig : Type := mkRawConfig {
  raw_Bucket : Expression;
  raw_Hostname : option string;
  raw_CacheSize : option Z;            (* pointer to int64, or nil *)
  raw_AccessKeyID : Expression;
  raw_SecretAccessKey : string;
  raw_SkipStartupCheck : option bool
}.

Record StorageConfig : Type := mkStorageConfig {
  Type_ : string;
  decodeBody : Diagnostics * rawConfig;
  TypeRange : Range;
  DeclRange : Range
}.

(** The body of [if !skipStartupCheck { ... }] (lines 495-544).  [diags] is
    what decoding has gathered; [bucket] is the bucket name after the split,
    which is also [sto.bucket]. *)
Definition hclStartupCheck (diags : Diagnostics) (bucket accessKeyID hostname : string)
    (bucketRange accessKeyRange : Range) : M unit :=
  err <- callListBucket bucket "" 1 ;;
  err <-
    match err with
    | Some (S3Err serr) =>
        if AmazonCode serr =? "NoSuchBucket" then
          fail (DiagnosticsError
                  (diags ++
                   [mkDiagnostic DiagError "Invalid S3 bucket"
                      (Sprintf "There is no bucket named %q." [ArgString bucket])
                      (Some bucketRange)])%list)
        else if AmazonCode serr =? "InvalidAccessKeyId" then
          fail (DiagnosticsError
                  (diags ++
                   [mkDiagnostic DiagError "Invalid AWS Access Key ID"
                      (Sprintf "The given access key id %q was refused by the S3 API."
                               [ArgString accessKeyID])
                      (Some accessKeyRange)])%list)
        else redirectBlocks serr err bucket hostname
    | _ => ret err
    end ;;
  listingError bucket err.

Definition NewFromHCLConfig (w : World) (config : StorageConfig) : result :=
  let '(diags, raw) := decodeBody config in
  if HasErrors diags then early (DiagnosticsError diags) w
  else
    let hostname :=
      match raw_Hostname raw with Some h => h | None => "s3.amazonaws.com" end in
    let cacheSize :=
      match raw_CacheSize raw with Some n => n | None => Z.shiftl 32 20 end in
    let accessKeyID := exprValue (raw_AccessKeyID raw) in
    let moreDiags := exprDiags (raw_AccessKeyID raw) in
    let diags := (diags ++ moreDiags)%list in
    let accessKeyRange := exprRange (raw_AccessKeyID raw) in
    if HasErrors moreDiags then early (DiagnosticsError diags) w
    else
      let client :=
        mkClient (mkAuth accessKeyID (raw_SecretAccessKey raw) hostname)
                 maxParallelHTTP None in
      let bucket := exprValue (raw_Bucket raw) in
      let moreDiags := exprDiags (raw_Bucket raw) in
      let diags := (diags ++ moreDiags)%list in
      let bucketRange := exprRange (raw_Bucket raw) in
      if HasErrors moreDiags then early (DiagnosticsError diags) w
      else
        let '(bucket, dirPrefix) := splitBucket bucket in
        let skipStartupCheck :=
          match raw_SkipStartupCheck raw with Some b => b | None => false end in
        run w client
          ((if negb skipStartupCheck then
              hclStartupCheck diags bucket accessKeyID hostname
                              bucketRange accessKeyRange
            else ret tt) ;;;
           wrapCache cacheSize bucket dirPrefix hostname).

(** *** newFromConfigWithTransport

    A [jsonconfig.Obj] as its accessors see it: for each key the constructor
    asks for, the value when the key is present with the right type, and
    [json_problems] for what else [Validate] complains about (unknown keys,
    values of the wrong type).  A required key that is missing reads as the
    empty string and makes [Validate] fail.  Package go4.org/jsonconfig is
    not part of this repository: the record and [Validate] lay out what its
    documentation says of the accessors the constructor calls. *)

Record jsonObj : Type := mkJsonObj {
  json_hostname : option string;
  json_cacheSize : option Z;
  json_aws_access_key : option string;
  json_aws_secret_access_key : option string;
  json_bucket : option string;
  json_skipStartupCheck : option bool;
  json_problems : list string
}.

Definition Optional {A} (v : option A) (def : A) : A :=
  match v with Some a => a | None => def end.

Definition RequiredString (v : option string) : string := Optional v "".

Definition missing (key : string) (v : option string) : list string :=
  match v with Some _ => [] | None => [key] end.

Definition Validate (config : jsonObj) : option error :=
  match (missing "aws_access_key" (json_aws_access_key config)
         ++ missing "aws_secret_access_key" (json_aws_secret_access_key config)
         ++ missing "bucket" (json_bucket config)
         ++ json_problems config)%list with
  | [] => None
  | problems => Some (ValidateError problems)
  end.

(** The body of [if !skipStartupCheck { ... }] (lines 598-632). *)
Definition jsonStartupCheck (bucket hostname : string) : M unit :=
  err <- callListBucket bucket "" 1 ;;
  err <-
    match err with
    | Some (S3Err serr) =>
        if AmazonCode serr =? "NoSuchBucket" then
          fail (Errorf "bucket %q doesn't exist" [ArgString bucket])
        else redirectBlocks serr err bucket hostname
    | _ => ret err
    end ;;
  listingError bucket err.

Definition newFromConfigWithTransport (w : World) (config : jsonObj)
    (transport : option RoundTripper) : result :=
  let hostname := Optional (json_hostname config) "s3.amazonaws.com" in
  let cacheSize := Optional (json_cacheSize config) (Z.shiftl 32 20) in
  let client :=
    mkClient (mkAuth (RequiredString (json_aws_access_key config))
                     (RequiredString (json_aws_secret_access_key config))
                     hostname)
             maxParallelHTTP transport in
  let bucket := RequiredString (json_bucket config) in
  let '(bucket, dirPrefix) := splitBucket bucket in
  let skipStartupCheck := Optional (json_skipStartupCheck config) false in
  match Validate config with
  | Some err => early err w
  | None =>
      run w client
        ((if negb skipStartupCheck then jsonStartupCheck bucket hostname
          else ret tt) ;;;
         wrapCache cacheSize bucket dirPrefix hostname)
  end.

Definition newFromConfig (w : World) (config : jsonObj) : result :=
  newFromConfigWithTransport w config None.

(** What the constructors compute from a configuration before the startup
    check, named for use in statements. *)

Definition hclRaw (config : StorageConfig) : rawConfig := snd (decodeBody config).

Definition hclHostname (config : StorageConfig) : string :=
  Optional (raw_Hostname (hclRaw config)) "s3.amazonaws.com".

Definition hclCacheSize (config : StorageConfig) : Z :=
  Optional (raw_CacheSize (hclRaw config)) (Z.shiftl 32 20).

Definition hclAccessKeyID (config : StorageConfig) : string :=
  exprValue (raw_AccessKeyID (hclRaw config)).

Definition hclClient (config : StorageConfig) : Client RoundTripper :=
  mkClient (mkAuth (hclAccessKeyID config)
                   (raw_SecretAccessKey (hclRaw config))
                   (hclHostname config))
           maxParallelHTTP None.

Definition hclBucketSpec (config : StorageConfig) : string :=
  exprValue (raw_Bucket (hclRaw config)).

Definition hclBucket (config : StorageConfig) : string :=
  fst (splitBucket (hclBucketSpec config)).

Definition hclDirPrefix (config : StorageConfig) : string :=
  snd (splitBucket (hclBucketSpec config)).

(** The diagnostics gathered by the three decoding steps. *)
Definition hclDiags (config : StorageConfig) : Diagnostics :=
  ((fst (decodeBody config)
    ++ exprDiags (raw_AccessKeyID (hclRaw config)))
   ++ exprDiags (raw_Bucket (hclRaw config)))%list.

(** The configuration decodes without an error diagnostic. *)
Definition hclDecodes (config : StorageConfig) : Prop :=
  HasErrors (fst (decodeBody config)) = false
  /\ HasErrors (exprDiags (raw_AccessKeyID (hclRaw config))) = false
  /\ HasErrors (exprDiags (raw_Bucket (hclRaw config))) = false.

Definition hclSkipStartupCheck (config : StorageConfig) : bool :=
  Optional (raw_SkipStartupCheck (hclRaw config)) false.

Definition jsonHostname (config : jsonObj) : string :=
  Optional (json_hostname config) "s3.amazonaws.com".

Definition jsonCacheSize (config : jsonObj) : Z :=
  Optional (json_cacheSize config) (Z.shiftl 32 20).

Definition jsonClient (config : jsonObj) (transport : option RoundTripper)
  : Client RoundTripper :=
  mkClient (mkAuth (RequiredString (json_aws_access_key config))
                   (RequiredString (json_aws_secret_access_key config))
                   (jsonHostname config))
           maxParallelHTTP transport.

Definition jsonBucket (config : jsonObj) : string :=
  fst (splitBucket (RequiredString (json_bucket config))).

Definition jsonDirPrefix (config : jsonObj) : string :=
  snd (splitBucket (RequiredString (json_bucket config))).

Definition jsonSkipStartupCheck (config : jsonObj) : bool :=
  Optional (json_skipStartupCheck config) false.

(** [client.Auth.Hostname = h] on a client value. *)
Definition rebind (c : Client RoundTripper) (h : string) : Client RoundTripper :=
  mkClient (mkAuth (AccessKey (ClientAuth c)) (SecretAccessKey (ClientAuth c)) h)
           (PutGate c) (Transport c).

(** The warning a successful retry logs. *)
Definition warning (c : Client RoundTripper) (hostname : string) : event :=
  EvLogPrintf warnFormat [ArgString (Hostname (ClientAuth c)); ArgString hostname].

(** What a retried listing adds to the trace. *)
Definition retryEvents (c : Client RoundTripper) (b hostname : string)
    (r : option callError) : list event :=
  EvListBucket c b "" 1
  :: match r with None => [warning c hostname] | Some _ => [] end.

(** The error of a failed listing, as both constructors word it. *)
Definition listingFailed (b : string) (e : callError) : error :=
  Errorf "Error listing bucket %s: %v" [ArgString b; ArgError e].

(** The error of a failed location query. *)
Definition locationFailed (b : string) (lerr : callError) : error :=
  Errorf "Wrong server for bucket %q; and error determining bucket's location: %v"
         [ArgString b; ArgError lerr].

(** The storage a constructor returns for backend [sto] and cache size
    [cacheSize], as the last lines of both constructors build it. *)
Definition wrapped (cacheSize : Z) (sto : s3Storage) : Storage :=
  if negb (cacheSize =? 0)%Z then
    ProxyCache (Int64.shl cacheSize 2) (MemoryCache cacheSize) (S3Storage sto)
  else S3Storage sto.

(** The codes [NewFromHCLConfig] answers with a diagnostic, and the one
    [newFromConfigWithTransport] answers with an error of its own. *)
Definition hclFatal (serr : s3Error) : bool :=
  (AmazonCode serr =? "NoSuchBucket") || (AmazonCode serr =? "InvalidAccessKeyId").

Definition jsonFatal (serr : s3Error) : bool :=
  AmazonCode serr =? "NoSuchBucket".



(** *** Reading a trace *)

Definition isListing (e : event) : bool :=
  match e with EvListBucket _ _ _ _ => true | _ => false end.

Definition isWarning (e : event) : bool :=
  match e with EvLogPrintf _ _ => true | _ => false end.

(** Number of bucket listings issued. *)
Definition listings (tr : list event) : nat := List.length (filter isListing tr).

(** Listings after the first one: the self-correcting retries. *)
Definition retries (tr : list event) : nat := Nat.pred (listings tr).

Definition warnings (tr : list event) : nat := List.length (filter isWarning tr).

(** The backend inside a returned storage. *)
Fixpoint backend (s : Storage) : option s3Storage :=
  match s with
  | S3Storage sto => Some sto
  | MemoryCache _ => None
  | ProxyCache _ _ origin => backend origin
  end.

(** The diagnostics [NewFromHCLConfig] adds for the two fatal codes. *)
Definition noSuchBucketDiag (config : StorageConfig) : Diagnostic :=
  mkDiagnostic DiagError "Invalid S3 bucket"
    (Sprintf "There is no bucket named %q." [ArgString (hclBucket config)])
    (Some (exprRange (raw_Bucket (hclRaw config)))).

Definition invalidAccessKeyDiag (config : StorageConfig) : Diagnostic :=
  mkDiagnostic DiagError "Invalid AWS Access Key ID"
    (Sprintf "The given access key id %q was refused by the S3 API."
             [ArgString (hclAccessKeyID config)])
    (Some (exprRange (raw_AccessKeyID (hclRaw config)))).

(** The result of a construction from what its last listing said. *)
Definition afterListing (cacheSize : Z) (c : Client RoundTripper)
    (b d h : string) (r : option callError) : Storage + error :=
  match r with
  | None => inl (wrapped cacheSize (mks3Storage c b d h))
  | Some e => inr (listingFailed b e)
  end.

(** The number of redirect signals an error carries. *)
Definition signals (serr : s3Error) : nat :=
  ((if regionRedirect serr then 1 else 0)
   + (if endpointRedirect serr then 1 else 0))%nat.

(** A computation adds at most [n] listings to the trace. *)
Definition addsAtMost {A} (n : nat) (m : M A) : Prop :=
  forall st, exists evs,
    trace (snd (m st)) = (trace st ++ evs)%list /\ (listings evs <= n)%nat.

(** Two client values that differ at most in the hostname. *)
Definition sameButHostname (c c' : Client RoundTripper) : Prop :=
  AccessKey (ClientAuth c') = AccessKey (ClientAuth c)
  /\ SecretAccessKey (ClientAuth c') = SecretAccessKey (ClientAuth c)
  /\ PutGate c' = PutGate c
  /\ Transport c' = Transport c.

(** A computation changes at most the hostname of the client. *)
Definition keepsClient {A} (m : M A) : Prop :=
  forall st, sameButHostname (client st) (client (snd (m st))).

(** A construction that retried once: the first listing went out with
    client [c], the second and last with the rebound client [c']; when the
    retry succeeded the rebound client's backend is returned, wrapped, and
    the warning logged; when it failed its error is returned in the listing
    error and nothing is logged. *)
Definition retriedOnce (res : result) (c c' : Client RoundTripper)
    (cacheSize : Z) (b d h : string) (r : option callError) : Prop :=
  filter isListing (calls res) = [EvListBucket c b "" 1; EvListBucket c' b "" 1]
  /\ retries (calls res) = 1%nat
  /\ match r with
     | None =>
         returned res = inl (wrapped cacheSize (mks3Storage c' b d h))
         /\ filter isWarning (calls res) = [warning c' h]
     | Some e =>
         returned res = inr (listingFailed b e)
         /\ warnings (calls res) = 0%nat
     end.

End WithService.

Notation "x <- m ;; k" := (bind m (fun x => k))
  (at level 61, m at next level, right associativity).
Notation "m ;;; k" := (bind m (fun _ => k))
  (at level 61, right associativity).

End S3.

(** ** Package configs: reading the HCL configuration *)

Module Configs.

Local Open Scope string_scope.

(** *** Go maps with string keys

    An association list with one pair per key.  [insert] is the assignment
    [m[k] = v]: it replaces what the key had. *)

Definition Map (V : Type) : Type := list (string * V).

Fixpoint lookup {V} (m : Map V) (k : string) : option V :=
  match m with
  | [] => None
  | (k', v) :: m' => if k' =? k then Some v else lookup m' k
  end.

Definition delete {V} (k : string) (m : Map V) : Map V :=
  filter (fun kv => negb (fst kv =? k)) m.

Definition insert {V} (k : string) (v : V) (m : Map V) : Map V :=
  (k, v) :: delete k m.

Definition keys {V} (m : Map V) : list string := map fst m.

(** *** Diagnostics (package hcl), with the operands the package formats *)

Definition Range : Type := S3.Range.

(** The zero value of [hcl.Range]. *)
Definition zeroRange : Range := S3.mkRange "" (S3.mkPos 0 0 0) (S3.mkPos 0 0 0).

Inductive arg : Type :=
| ArgString (s : string)
| ArgRange (r : Range)
| ArgError (msg : string).

Inductive text : Type :=
| Plain (s : string)
| Sprintf (format : string) (args : list arg).

Record Diagnostic : Type := mkDiagnostic {
  Severity : S3.DiagnosticSeverity;
  Summary : string;
  Detail : text;
  Subject : option Range;
  Context : option Range
}.

Definition Diagnostics : Type := list Diagnostic.

Definition isError (d : Diagnostic) : bool :=
  match Severity d with S3.DiagError => true | _ => false end.

Definition HasErrors (diags : Diagnostics) : bool := existsb isError diags.

(** The double quote character, for messages that contain it. *)
Definition dq : string := String (Ascii.ascii_of_nat 34) EmptyString.

(** *** What package hcl hands over *)

Record Traversal : Type := mkTraversal {
  RootName : string;
  SourceRange : Range
}.

Record Attribute (Expression : Type) : Type := mkAttribute {
  Name : string;
  Expr : Expression;
  AttrRange : Range;
  NameRange : Range
}.
Arguments mkAttribute {Expression} _ _ _ _.
Arguments Name {Expression} _.
Arguments Expr {Expression} _.
Arguments AttrRange {Expression} _.
Arguments NameRange {Expression} _.

Record Block (Body : Type) : Type := mkBlock {
  BlockType : string;
  Labels : list string;
  BlockBody : Body;
  DefRange : Range;
  TypeRange : Range;
  LabelRanges : list Range
}.
Arguments mkBlock {Body} _ _ _ _ _ _.
Arguments BlockType {Body} _.
Arguments Labels {Body} _.
Arguments BlockBody {Body} _.
Arguments DefRange {Body} _.
Arguments TypeRange {Body} _.
Arguments LabelRanges {Body} _.

(** An [hcl.EvalContext]: its field [Variables], a map from names to values
    of go-cty, whose type is left to the library. *)
Record hclEvalContext (Value : Type) : Type := mkEvalContext {
  EvalContext_Variables : Map Value
}.
Arguments mkEvalContext {Value} _.
Arguments EvalContext_Variables {Value} _.

(** The structs [gohcl.DecodeBody] fills in.  A field of type
    [hcl.Expression] or of pointer type is an option: [None] is Go's nil. *)

Record networkRaw (Expression Body : Type) : Type := mkNetworkRaw {
  raw_BaseURL : option Expression;
  raw_ListenAddr : option Expression;
  raw_HTTPS : option bool;
  raw_Remain : Body
}.
Arguments mkNetworkRaw {Expression Body} _ _ _ _.
Arguments raw_BaseURL {Expression Body} _.
Arguments raw_ListenAddr {Expression Body} _.
Arguments raw_HTTPS {Expression Body} _.
Arguments raw_Remain {Expression Body} _.

Record serverRaw (Expression : Type) : Type := mkServerRaw {
  raw_ShareHandler : option bool;
  raw_UIHandler : option bool;
  raw_SearchHandler : option bool;
  raw_BlobWrites : option Expression
}.
Arguments mkServerRaw {Expression} _ _ _ _.
Arguments raw_ShareHandler {Expression} _.
Arguments raw_UIHandler {Expression} _.
Arguments raw_SearchHandler {Expression} _.
Arguments raw_BlobWrites {Expression} _.

Record syncRaw (Expression : Type) : Type := mkSyncRaw {
  raw_From : option Expression;
  raw_To : option Expression;
  raw_VerifyInterval : option Expression
}.
Arguments mkSyncRaw {Expression} _ _ _.
Arguments raw_From {Expression} _.
Arguments raw_To {Expression} _.
Arguments raw_VerifyInterval {Expression} _.

Record identityRaw : Type := mkIdentityRaw {
  raw_ID : string;
  raw_KeyringPath : string
}.

(** The calls the package makes into hcl, gohcl, hclparse, net/url, net and
    time.  [PartialContentVars], [ContentRoot] and [ContentAuth] are
    [PartialContent] and [Content] at the three schemas of the package;
    [JustAttributes] gives the attributes in the order in which the loop over
    them meets them; the four [Decode...Body] are [gohcl.DecodeBody] at the
    four raw structs; [DecodeExpression] is [gohcl.DecodeExpression] into a
    string.  [Value], [StringVal] and [ObjectVal] are [cty.Value],
    [cty.StringVal] and [cty.ObjectVal] of go-cty: what they make of a
    string and of a map of attributes is the library's.  A call that returns
    a value or an error is a sum. *)
Class Lib : Type := {
  Body : Type;
  Expression : Type;
  File : Type;
  URL : Type;
  TCPAddr : Type;
  Value : Type;
  StringVal : string -> Value;
  ObjectVal : Map Value -> Value;
  FileBody : File -> Body;
  ExprRange : Expression -> Range;
  ExprVariables : Expression -> list Traversal;
  ExprAsKeyword : Expression -> string;
  ExprList : Expression -> list Expression * Diagnostics;
  DecodeExpression : Expression -> hclEvalContext Value -> string * Diagnostics;
  PartialContentVars : Body -> list (Block Body) * Body * Diagnostics;
  ContentRoot : Body -> list (Block Body) * Diagnostics;
  ContentAuth : Body -> list (Block Body) * Diagnostics;
  JustAttributes : Body -> Map (Attribute Expression) * Diagnostics;
  DecodeNetworkBody :
    Body -> hclEvalContext Value -> Diagnostics * networkRaw Expression Body;
  DecodeServerBody : Body -> hclEvalContext Value -> Diagnostics * serverRaw Expression;
  DecodeSyncBody : Body -> hclEvalContext Value -> Diagnostics * syncRaw Expression;
  DecodeIdentityBody : Body -> hclEvalContext Value -> Diagnostics * identityRaw;
  url_Parse : string -> URL + string;
  ResolveTCPAddr : string -> string -> TCPAddr + string;
  ParseDuration : string -> Z + string;
  ParseHCL : list byte -> string -> File * Diagnostics
}.

Abbreviation EvalContext := (hclEvalContext Value).

Section WithLib.

Context `{Lib}.

(** *** eval_context.go

    The two loops of [evalContext], each filling the map of its name, and
    the context made of the two maps. *)

Definition envVals (envs : list string) : Map Value :=
  fold_left
    (fun envVals env =>
       match Strings.Index env "=" with
       | None => envVals
       | Some eq =>
           insert (Strings.take eq env) (StringVal (Strings.drop (eq + 1) env))
                  envVals
       end)
    envs [].

Definition varVals (vars : Map string) : Map Value :=
  fold_left (fun varVals kv => insert (fst kv) (StringVal (snd kv)) varVals)
            vars [].

Definition evalContext (envs : list string) (vars : Map string) : EvalContext :=
  mkEvalContext [("env", ObjectVal (envVals envs));
                 ("var", ObjectVal (varVals vars))].

(** A loop whose body can panic. *)
Fixpoint forEach {A St : Type} (f : St -> A -> outcome St) (st : St) (l : list A)
  : outcome St :=
  match l with
  | [] => Returns st
  | a :: l' =>
      match f st a with
      | Panics msg => Panics msg
      | Returns st' => forEach f st' l'
      end
  end.

(** *** The reference decoders (decodeRefExpr, decodeRefListExpr) *)

Definition decodeRefExpr (expr : Expression) : string * Diagnostics :=
  let name := ExprAsKeyword expr in
  let diags :=
    if name =? "" then
      [mkDiagnostic S3.DiagError "Invalid handler reference"
         (Plain "A single identifier is required, giving the name of a handler defined elsewhere in the configuration.")
         (Some (ExprRange expr)) None]
    else [] in
  (name, diags).

(** The diagnostic of [decodeRefExpr] for an expression that is no
    keyword, and the test it makes. *)
Definition refDiag (expr : Expression) : Diagnostic :=
  mkDiagnostic S3.DiagError "Invalid handler reference"
    (Plain "A single identifier is required, giving the name of a handler defined elsewhere in the configuration.")
    (Some (ExprRange expr)) None.

Definition isKeyword (expr : Expression) : bool :=
  negb (ExprAsKeyword expr =? "").

Definition decodeRefListExpr (expr : Expression) : list string * Diagnostics :=
  let '(exprs, diags) := ExprList expr in
  if HasErrors diags then ([], diags)
  else
    fold_left
      (fun '(ret, diags) refExpr =>
         let '(name, moreDiags) := decodeRefExpr refExpr in
         let diags := (diags ++ moreDiags)%list in
         if HasErrors moreDiags then (ret, diags)
         else ((ret ++ [name])%list, diags))
      exprs ([], diags).

(** *** extractVars *)

Record varsState : Type := mkVarsState {
  vs : Map string;
  decls : Map Range;
  varDiags : Diagnostics
}.

(** The body of the loop over the attributes of one "vars" block. *)
Definition extractAttr (ctx : EvalContext) (st : varsState)
    (na : string * Attribute Expression) : varsState :=
  let '(name, attr) := na in
  match lookup (decls st) name with
  | Some rng =>
      mkVarsState (vs st) (decls st)
        (varDiags st ++
         [mkDiagnostic S3.DiagError "Duplicate variable definition"
            (Sprintf "The variable %q was already defined at %s."
                     [ArgString name; ArgRange rng])
            (Some (NameRange attr)) None])%list
  | None =>
      match find (fun ref => RootName ref =? "var") (ExprVariables (Expr attr)) with
      | Some ref =>
          mkVarsState (vs st) (decls st)
            (varDiags st ++
             [mkDiagnostic S3.DiagError "Invalid reference in user variable"
                (Plain "The definition of a user variable cannot reference another user variable.")
                (Some (SourceRange ref)) (Some (AttrRange attr))])%list
      | None =>
          let '(val, moreDiags) := DecodeExpression (Expr attr) ctx in
          let diags := (varDiags st ++ moreDiags)%list in
          let decls := insert name (NameRange attr) (decls st) in
          if negb (HasErrors moreDiags) then
            mkVarsState (insert name val (vs st)) decls diags
          else mkVarsState (vs st) decls diags
      end
  end.

(** The body of the loop over the blocks. *)
Definition extractBlock (ctx : EvalContext) (st : varsState) (block : Block Body)
  : outcome varsState :=
  if negb (BlockType block =? "vars") then
    Panics "bad block type %q during variable processing"
  else
    let '(attrs, moreDiags) := JustAttributes (BlockBody block) in
    Returns (fold_left (extractAttr ctx) attrs
               (mkVarsState (vs st) (decls st) (varDiags st ++ moreDiags)%list)).

Definition extractVars (body : Body) (envs : list string)
  : outcome (Map string * Body * Diagnostics) :=
  let '(blocks, remain, diags) := PartialContentVars body in
  let ctx := evalContext envs [] in
  match forEach (extractBlock ctx) (mkVarsState [] [] diags) blocks with
  | Panics msg => Panics msg
  | Returns st => Returns (vs st, remain, varDiags st)
  end.

(** What the properties of [extractVars] speak of: whether an expression
    refers to a user variable, whether an attribute is a definition of the
    name [n] that the loop accepts as one, the attributes of all the "vars"
    blocks in the order of the loop, and the value an attribute decodes to,
    if it decodes without an error. *)
Definition refersToVar (expr : Expression) : bool :=
  match find (fun ref => RootName ref =? "var") (ExprVariables expr) with
  | Some _ => true
  | None => false
  end.

Definition defines (n : string) (na : string * Attribute Expression) : bool :=
  (fst na =? n) && negb (refersToVar (Expr (snd na))).

Definition varsAttrs (body : Body) : list (string * Attribute Expression) :=
  flat_map (fun block => fst (JustAttributes (BlockBody block)))
           (fst (fst (PartialContentVars body))).

Definition decodedValue (ctx : EvalContext) (attr : Attribute Expression)
  : option string :=
  let '(val, moreDiags) := DecodeExpression (Expr attr) ctx in
  if HasErrors moreDiags then None else Some val.

(** *** The block decoders *)

Record Auth : Type := mkAuth {
  Auth_Type : string;
  Auth_Config : Body;
  Auth_TypeRange : Range;
  Auth_DeclRange : Range
}.

Record Network : Type := mkNetwork {
  BaseURL : option URL;
  ListenAddr : option TCPAddr;
  HTTPS : bool;
  Auths : list Auth;
  Network_DeclRange : Range
}.

Record Identity : Type := mkIdentity {
  ID : string;
  KeyringPath : string;
  Identity_DeclRange : Range
}.

Record Server : Type := mkServer {
  ShareHandler : bool;
  UIHandler : bool;
  SearchHandler : bool;
  BlobWrites : list string;
  Server_DeclRange : Range
}.

Record Index : Type := mkIndex {
  Index_Type : string;
  Index_Config : Body;
  Index_EvalContext : EvalContext;
  Index_TypeRange : Range;
  Index_DeclRange : Range
}.

Record Storage : Type := mkStorage {
  Storage_Type : string;
  Storage_Config : Body;
  Storage_EvalContext : EvalContext;
  Storage_TypeRange : Range;
  Storage_DeclRange : Range
}.

Record Sync : Type := mkSync {
  From : string;
  To : string;
  VerifyInterval : Z;
  FromRange : Range;
  ToRange : Range;
  Sync_DeclRange : Range
}.

(** [block.Labels[0]] and [block.LabelRanges[0]]: an index out of range
    panics. *)
Definition firstLabel (block : Block Body) : outcome (string * Range) :=
  match Labels block with
  | [] => Panics "index out of range"
  | l :: _ =>
      match LabelRanges block with
      | [] => Panics "index out of range"
      | r :: _ => Returns (l, r)
      end
  end.

(** Whether a block has a first label and a range for it, and the [Auth]
    of a block that has. *)
Definition labelled (block : Block Body) : bool :=
  match Labels block, LabelRanges block with
  | _ :: _, _ :: _ => true
  | _, _ => false
  end.

Definition authOf (block : Block Body) : Auth :=
  mkAuth (hd "" (Labels block)) (BlockBody block)
         (hd zeroRange (LabelRanges block)) (DefRange block).

Definition decodeAuthBlock (block : Block Body) (ctx : EvalContext)
  : outcome (Auth * Diagnostics) :=
  match firstLabel block with
  | Panics msg => Panics msg
  | Returns (l, r) => Returns (mkAuth l (BlockBody block) r (DefRange block), [])
  end.

Definition decodeIndexBlock (block : Block Body) (ctx : EvalContext)
  : outcome (Index * Diagnostics) :=
  match firstLabel block with
  | Panics msg => Panics msg
  | Returns (l, r) =>
      Returns (mkIndex l (BlockBody block) ctx r (DefRange block), [])
  end.

Definition decodeStorageBlock (block : Block Body) (ctx : EvalContext)
  : outcome (Storage * Diagnostics) :=
  match firstLabel block with
  | Panics msg => Panics msg
  | Returns (l, r) =>
      Returns (mkStorage l (BlockBody block) ctx r (DefRange block), [])
  end.

Definition decodeIdentityBlock (block : Block Body) (ctx : EvalContext)
  : Identity * Diagnostics :=
  let ret := mkIdentity "" "" (DefRange block) in
  let '(diags, raw) := DecodeIdentityBody (BlockBody block) ctx in
  if HasErrors diags then (ret, diags)
  else (mkIdentity (raw_ID raw) (raw_KeyringPath raw) (DefRange block), diags).

Definition decodeServerBlock (block : Block Body) (ctx : EvalContext)
  : Server * Diagnostics :=
  let ret := mkServer false false false [] (DefRange block) in
  let '(diags, raw) := DecodeServerBody (BlockBody block) ctx in
  if HasErrors diags then (ret, diags)
  else
    let share := match raw_ShareHandler raw with Some b => b | None => true end in
    let ui := match raw_UIHandler raw with Some b => b | None => true end in
    let search := match raw_SearchHandler raw with Some b => b | None => true end in
    match raw_BlobWrites raw with
    | Some e =>
        let '(names, moreDiags) := decodeRefListExpr e in
        (mkServer share ui search names (DefRange block), (diags ++ moreDiags)%list)
    | None => (mkServer share ui search [] (DefRange block), diags)
    end.

Definition decodeSyncBlock (block : Block Body) (ctx : EvalContext)
  : Sync * Diagnostics :=
  let ret := mkSync "" "" 0 zeroRange zeroRange (DefRange block) in
  let '(diags, raw) := DecodeSyncBody (BlockBody block) ctx in
  if HasErrors diags then (ret, diags)
  else
    let '(from, diags) :=
      match raw_From raw with
      | Some e =>
          let '(name, moreDiags) := decodeRefExpr e in
          (name, (diags ++ moreDiags)%list)
      | None => ("", diags)
      end in
    let '(to, diags) :=
      match raw_To raw with
      | Some e =>
          let '(name, moreDiags) := decodeRefExpr e in
          (name, (diags ++ moreDiags)%list)
      | None => ("", diags)
      end in
    let '(interval, diags) :=
      match raw_VerifyInterval raw with
      | Some e =>
          let '(durStr, moreDiags) := DecodeExpression e ctx in
          let diags := (diags ++ moreDiags)%list in
          if negb (HasErrors moreDiags) then
            match ParseDuration durStr with
            | inr err =>
                (0,
                 (diags ++
                  [mkDiagnostic S3.DiagError
                     ("Invalid " ++ dq ++ "verify_interval" ++ dq ++ " argument")
                     (Sprintf ("The " ++ dq ++ "verify_interval" ++ dq
                               ++ " value is not a valid duration string: %s.")
                              [ArgError err])
                     (Some (ExprRange e)) None])%list)
            | inl dur => (dur, diags)
            end
          else (0, diags)
      | None => (0, diags)
      end in
    (mkSync from to interval zeroRange zeroRange (DefRange block), diags).

Definition decodeNetworkBlock (block : Block Body) (ctx : EvalContext)
  : outcome (Network * Diagnostics) :=
  let ret := mkNetwork None None false [] (DefRange block) in
  let '(diags, raw) := DecodeNetworkBody (BlockBody block) ctx in
  if HasErrors diags then Returns (ret, diags)
  else
    let '(baseURL, diags) :=
      match raw_BaseURL raw with
      | Some e =>
          let '(urlStr, moreDiags) := DecodeExpression e ctx in
          let diags := (diags ++ moreDiags)%list in
          if negb (HasErrors moreDiags) then
            match url_Parse urlStr with
            | inr err =>
                (None,
                 (diags ++
                  [mkDiagnostic S3.DiagError
                     ("Invalid " ++ dq ++ "base_url" ++ dq ++ " argument")
                     (Sprintf ("The " ++ dq ++ "base_url" ++ dq
                               ++ " argument is not a valid URL: %s.")
                              [ArgError err])
                     (Some (ExprRange e)) None])%list)
            | inl url => (Some url, diags)
            end
          else (None, diags)
      | None => (None, diags)
      end in
    let '(listenAddr, diags) :=
      match raw_ListenAddr raw with
      | Some e =>
          let '(addrStr, moreDiags) := DecodeExpression e ctx in
          let diags := (diags ++ moreDiags)%list in
          if negb (HasErrors moreDiags) then
            match ResolveTCPAddr "tcp" addrStr with
            | inr err =>
                (None,
                 (diags ++
                  [mkDiagnostic S3.DiagError
                     ("Invalid " ++ dq ++ "listen" ++ dq ++ " argument")
                     (Sprintf ("The " ++ dq ++ "listen" ++ dq
                               ++ " argument is not a valid TCP address: %s.")
                              [ArgError err])
                     (Some (ExprRange e)) None])%list)
            | inl addr => (Some addr, diags)
            end
          else (None, diags)
      | None => (None, diags)
      end in
    let https := match raw_HTTPS raw with Some b => b | None => true end in
    let '(authBlocks, moreDiags) := ContentAuth (raw_Remain raw) in
    let diags := (diags ++ moreDiags)%list in
    match
      forEach
        (fun '(auths, diags) authBlock =>
           match decodeAuthBlock authBlock ctx with
           | Panics msg => Panics msg
           | Returns (auth, moreDiags) =>
               Returns ((auths ++ [auth])%list, (diags ++ moreDiags)%list)
           end)
        ([], diags) authBlocks
    with
    | Panics msg => Panics msg
    | Returns (auths, diags) =>
        Returns (mkNetwork baseURL listenAddr https auths (DefRange block), diags)
    end.

(** *** decodeConfig and ReadConfig *)

Record Config : Type := mkConfig {
  Config_Network : option Network;
  Variables : Map string;
  Config_Identity : option Identity;
  Config_Server : option Server;
  Config_Index : option Index;
  Stores : Map Storage;
  Syncs : list Sync
}.

(** The error diagnostic of a repeated block. *)
Definition duplicateDiag (summary format : string) (args : list arg)
    (block : Block Body) : Diagnostic :=
  mkDiagnostic S3.DiagError summary (Sprintf format args)
    (Some (TypeRange block)) None.

(** The body of the loop over the root blocks: one case of the switch per
    block type. *)
Definition decodeRootBlock (ctx : EvalContext) (st : Config * Diagnostics)
    (block : Block Body) : outcome (Config * Diagnostics) :=
  let '(config, diags) := st in
  if BlockType block =? "network" then
    match Config_Network config with
    | Some prev =>
        Returns (config,
                 (diags ++
                  [duplicateDiag "Duplicate network block"
                     "The network settings were already configured at %s."
                     [ArgRange (Network_DeclRange prev)] block])%list)
    | None =>
        match decodeNetworkBlock block ctx with
        | Panics msg => Panics msg
        | Returns (net, moreDiags) =>
            Returns (mkConfig (Some net) (Variables config)
                       (Config_Identity config) (Config_Server config)
                       (Config_Index config) (Stores config) (Syncs config),
                     (diags ++ moreDiags)%list)
        end
    end
  else if BlockType block =? "identity" then
    match Config_Identity config with
    | Some prev =>
        Returns (config,
                 (diags ++
                  [duplicateDiag "Duplicate identity block"
                     "The identity settings were already configured at %s."
                     [ArgRange (Identity_DeclRange prev)] block])%list)
    | None =>
        let '(ident, moreDiags) := decodeIdentityBlock block ctx in
        Returns (mkConfig (Config_Network config) (Variables config)
                   (Some ident) (Config_Server config)
                   (Config_Index config) (Stores config) (Syncs config),
                 (diags ++ moreDiags)%list)
    end
  else if BlockType block =? "server" then
    match Config_Server config with
    | Some prev =>
        Returns (config,
                 (diags ++
                  [duplicateDiag "Duplicate server block"
                     "The server settings were already configured at %s."
                     [ArgRange (Server_DeclRange prev)] block])%list)
    | None =>
        let '(server, moreDiags) := decodeServerBlock block ctx in
        Returns (mkConfig (Config_Network config) (Variables config)
                   (Config_Identity config) (Some server)
                   (Config_Index config) (Stores config) (Syncs config),
                 (diags ++ moreDiags)%list)
    end
  else if BlockType block =? "index" then
    match Config_Index config with
    | Some prev =>
        Returns (config,
                 (diags ++
                  [duplicateDiag "Duplicate index block"
                     "The index settings were already configured at %s."
                     [ArgRange (Index_DeclRange prev)] block])%list)
    | None =>
        match decodeIndexBlock block ctx with
        | Panics msg => Panics msg
        | Returns (index, moreDiags) =>
            Returns (mkConfig (Config_Network config) (Variables config)
                       (Config_Identity config) (Config_Server config)
                       (Some index) (Stores config) (Syncs config),
                     (diags ++ moreDiags)%list)
        end
    end
  else if BlockType block =? "storage" then
    match decodeStorageBlock block ctx with
    | Panics msg => Panics msg
    | Returns (storage, moreDiags) =>
        let diags := (diags ++ moreDiags)%list in
        match lookup (Stores config) (Storage_Type storage) with
        | Some prev =>
            Returns (config,
                     (diags ++
                      [duplicateDiag "Duplicate storage handler"
                         "A storage handler named %q was already configured at %s."
                         [ArgString (Storage_Type storage);
                          ArgRange (Storage_DeclRange prev)] block])%list)
        | None =>
            Returns (mkConfig (Config_Network config) (Variables config)
                       (Config_Identity config) (Config_Server config)
                       (Config_Index config)
                       (insert (Storage_Type storage) storage (Stores config))
                       (Syncs config),
                     diags)
        end
    end
  else if BlockType block =? "sync" then
    let '(sync, moreDiags) := decodeSyncBlock block ctx in
    Returns (mkConfig (Config_Network config) (Variables config)
               (Config_Identity config) (Config_Server config)
               (Config_Index config) (Stores config)
               (Syncs config ++ [sync])%list,
             (diags ++ moreDiags)%list)
  else Panics "bad root block type %s".

(** What the properties of [decodeConfig] speak of: the blocks of a type,
    the storage blocks of a name, and the first result of a call that
    returned. *)
Definition ofType (t : string) (block : Block Body) : bool :=
  BlockType block =? t.

Definition storageNamed (t : string) (block : Block Body) : bool :=
  ofType "storage" block && (hd "" (Labels block) =? t).

Definition valueOf {A B : Type} (o : outcome (A * B)) : option A :=
  match o with
  | Returns (a, _) => Some a
  | Panics _ => None
  end.

(** A configuration holds, of the blocks the loop has seen, the first of
    each of the four single kinds, the first storage block of each name,
    and every sync block, in order. *)
Definition firstWins (ctx : EvalContext) (seen : list (Block Body))
    (config : Config) : Prop :=
  match find (ofType "network") seen with
  | Some b =>
      exists net d,
        decodeNetworkBlock b ctx = Returns (net, d)
        /\ Config_Network config = Some net
  | None => Config_Network config = None
  end
  /\ Config_Identity config
     = option_map (fun b => fst (decodeIdentityBlock b ctx))
                  (find (ofType "identity") seen)
  /\ Config_Server config
     = option_map (fun b => fst (decodeServerBlock b ctx))
                  (find (ofType "server") seen)
  /\ match find (ofType "index") seen with
     | Some b =>
         exists index d,
           decodeIndexBlock b ctx = Returns (index, d)
           /\ Config_Index config = Some index
     | None => Config_Index config = None
     end
  /\ Syncs config
     = map (fun b => fst (decodeSyncBlock b ctx)) (filter (ofType "sync") seen)
  /\ forall t,
       match find (storageNamed t) seen with
       | Some b =>
           exists storage d,
             decodeStorageBlock b ctx = Returns (storage, d)
             /\ lookup (Stores config) t = Some storage
       | None => lookup (Stores config) t = None
       end.

(** No single kind of block occurs twice, and no two storage blocks have
    the same name. *)
Definition unique (seen : list (Block Body)) : Prop :=
  (List.length (filter (ofType "network") seen) <= 1)%nat
  /\ (List.length (filter (ofType "identity") seen) <= 1)%nat
  /\ (List.length (filter (ofType "server") seen) <= 1)%nat
  /\ (List.length (filter (ofType "index") seen) <= 1)%nat
  /\ NoDup (map (fun b => hd "" (Labels b)) (filter (ofType "storage") seen)).

Definition decodeConfig (body : Body) (envs : list string)
  : outcome (Config * Diagnostics) :=
  match extractVars body envs with
  | Panics msg => Panics msg
  | Returns (vs, body, diags) =>
      let '(blocks, moreDiags) := ContentRoot body in
      let diags := (diags ++ moreDiags)%list in
      let ctx := evalContext envs vs in
      let config := mkConfig None vs None None None [] [] in
      forEach (decodeRootBlock ctx) (config, diags) blocks
  end.

(** [ReadConfig]'s three results: the configuration and the file, each
    possibly nil, and the error, which is nil or the diagnostics.  [envs]
    is what [os.Environ] returns. *)
Definition ReadConfig (src : list byte) (filename : string) (envs : list string)
  : outcome (option Config * option File * option Diagnostics) :=
  let '(f, diags) := ParseHCL src filename in
  if HasErrors diags then Returns (None, None, Some diags)
  else
    match decodeConfig (FileBody f) envs with
    | Panics msg => Panics msg
    | Returns (config, diags) =>
        if HasErrors diags then Returns (Some config, Some f, Some diags)
        else Returns (Some config, Some f, None)
    end.

End WithLib.

End Configs.

(** ** Concrete instances, for running the definitions *)

Module Fixtures.

Local Open Scope string_scope.

(** Refs are strings, valid when non-empty.  The buffer cap is 4 bytes.  A
    buffer is likely a schema blob when it starts with an opening brace, and
    decodes when it is exactly two braces, to a document of type
    "permanode".  The only signature known is the two bytes of a gzip
    stream. *)
Definition smallImports : Index.Imports :=
  {| Index.Ref := string;
     Index.Valid := fun r => negb (r =? "");
     Index.MaxSchemaBlobSize := 4;
     Index.SchemaBlob := string;
     Index.LikelySchemaBlob :=
       fun buf => match buf with x7b :: _ => true | _ => false end;
     Index.BlobFromReader :=
       fun _ buf =>
         match buf with
         | [x7b; x7d] => inl "permanode"
         | _ => inr "invalid JSON"
         end;
     Index.BlobType := fun m => m;
     Index.magicMatch :=
       fun hdr =>
         match hdr with
         | x1f :: x8b :: _ => Some "application/x-gzip"
         | _ => None
         end |}.

(** An S3 that keeps the bucket in region us-west-1: a listing asked of the
    regional host succeeds, a listing asked of any other host fails with
    [firstError]; asking for the bucket's location gives [location].  The
    service has no state of its own. *)
Definition regional : string := "s3-us-west-1.amazonaws.com".

Definition S3West (firstError : S3.callError) (location : string + S3.callError)
  : S3.Service :=
  {| S3.World := unit;
     S3.RoundTripper := unit;
     S3.ListBucket :=
       fun w c _ _ _ =>
         (if S3.Hostname (S3.ClientAuth c) =? regional then None
          else Some firstError, w);
     S3.BucketLocation := fun w _ _ => (location, w) |}.

Definition noRange : S3.Range :=
  S3.mkRange "server.hcl" (S3.mkPos 0 0 0) (S3.mkPos 0 0 0).

Definition bucketRange : S3.Range :=
  S3.mkRange "server.hcl" (S3.mkPos 2 12 30) (S3.mkPos 2 27 45).

Definition accessKeyRange : S3.Range :=
  S3.mkRange "server.hcl" (S3.mkPos 3 23 68) (S3.mkPos 3 36 81).

(** An HCL storage block for bucket string [b] with cache size [cache] and
    startup-check switch [skip], no hostname given. *)
Definition hclBlock (b : string) (cache : option Z) (skip : option bool)
  : S3.StorageConfig :=
  S3.mkStorageConfig "s3"
    ([],
     S3.mkRawConfig (S3.mkExpression b [] bucketRange) None cache
       (S3.mkExpression "AKIAEXAMPLE" [] accessKeyRange) "secret" skip)
    noRange noRange.

(** The low-level JSON configuration with the same content. *)
Definition jsonBlock (b : string) (cache : option Z) (skip : option bool)
  : S3.jsonObj :=
  S3.mkJsonObj None cache (Some "AKIAEXAMPLE") (Some "secret") (Some b) skip [].

(** The first listing is answered with a region redirect and nothing else;
    the bucket's location is the regional host. *)
Definition regionOnly : S3.Service :=
  S3West (S3.S3Err (S3.mkS3Error "PermanentRedirect" "")) (inl regional).

(** The answer S3 gives for a bucket of another region: code
    PermanentRedirect together with the endpoint to use. *)
Definition redirectWithEndpoint : S3.callError :=
  S3.S3Err (S3.mkS3Error "PermanentRedirect" "brads3test-ca.s3-us-west-1.amazonaws.com").

Definition bothSignals : S3.Service := S3West redirectWithEndpoint (inl regional).

(** A region redirect and nothing else, from a service that cannot tell the
    bucket's location. *)
Definition locationUnknown : S3.Service :=
  S3West (S3.S3Err (S3.mkS3Error "PermanentRedirect" ""))
         (inr (S3.OtherErr "timeout")).

(** The first listing is answered with a refused access key. *)
Definition keyRefused : S3.Service :=
  S3West (S3.S3Err (S3.mkS3Error "InvalidAccessKeyId" "")) (inl regional).

Definition keyRefusedWithEndpoint : S3.Service :=
  S3West (S3.S3Err (S3.mkS3Error "InvalidAccessKeyId"
                           "brads3test-ca.s3-us-west-1.amazonaws.com"))
         (inl regional).

Definition brads : S3.StorageConfig := hclBlock "brads3test-ca" None None.

Definition bradsJson : S3.jsonObj := jsonBlock "brads3test-ca" None None.

(** The first listing is answered with a missing bucket. *)
Definition bucketMissing : S3.Service :=
  S3West (S3.S3Err (S3.mkS3Error "NoSuchBucket" "")) (inl regional).

(** The first listing is answered with a suggested endpoint under a code of
    no redirect block. *)
Definition endpointOnly : S3.Service :=
  S3West (S3.S3Err (S3.mkS3Error "TemporaryRedirect"
                                 "brads3test-ca.s3-us-west-1.amazonaws.com"))
         (inl regional).


Definition ref0 : @Index.Ref smallImports := "sha1-abc".

(** Five bytes in two calls, one more than the cap. *)
Definition five : list (list byte) := [[x1f; x8b; x00]; [x00; x01]].

(** One slice of 2^30 bytes, written 2^33 times: 2^63 bytes in all.  Past
    the cap a [Write] only adds to the counter. *)
Definition gib : list byte := repeat x00 (Z.to_nat 1073741824).

Definition flood : list (list byte) := repeat gib (Z.to_nat 8589934592).

(** A sniffer holding the two braces of an empty document. *)
Definition braces : @Index.BlobSniffer smallImports :=
  Index.mkSniffer ref0 [x7b; x7d] 2 None EmptyString EmptyString.

(** The sniffer [braces] after [Parse] and one more byte written: it holds
    the decoded document, and its buffer no longer decodes. *)
Definition bracesAndMore : @Index.BlobSniffer smallImports :=
  Index.mkSniffer ref0 [x7b; x7d; x00] 3 (Some "permanode")
    "application/json; camliType=permanode" "permanode".

End Fixtures.

(** ** A small configuration language, for running package configs *)

Module ConfigFixtures.

Import Configs.

Local Open Scope string_scope.

(** Expressions: a keyword, a string literal, a reference root.name and a
    list.  A body holds attributes and blocks. *)
#[local] Unset Elimination Schemes.

Inductive cfgExpr : Type :=
| Kw (s : string)
| Lit (s : string)
| Ref (root name : string)
| Lst (l : list cfgExpr).

Inductive cfgBody : Type :=
| mkCfgBody (attrs : list (string * cfgExpr)) (blocks : list (Block cfgBody)).

(** Values: a string as it is, and an object with its attributes as they
    are. *)
Inductive cfgValue : Type :=
| VStr (s : string)
| VObj (attrs : list (string * cfgValue)).

#[local] Set Elimination Schemes.

Definition bodyAttrs (b : cfgBody) : list (string * cfgExpr) :=
  match b with mkCfgBody attrs _ => attrs end.

Definition bodyBlocks (b : cfgBody) : list (Block cfgBody) :=
  match b with mkCfgBody _ blocks => blocks end.

Definition here : Range :=
  S3.mkRange "server.hcl" (S3.mkPos 0 0 0) (S3.mkPos 0 0 0).

Definition problem (summary : string) : Diagnostic :=
  mkDiagnostic S3.DiagError summary (Plain "") (Some here) None.

Definition cfgDecode (e : cfgExpr) (ctx : hclEvalContext cfgValue)
  : string * Diagnostics :=
  match e with
  | Lit s => (s, [])
  | Ref root name =>
      match lookup (EvalContext_Variables ctx) root with
      | Some (VObj attrs) =>
          match lookup attrs name with
          | Some (VStr v) => (v, [])
          | _ => ("", [problem "Unsupported attribute"])
          end
      | _ => ("", [problem "Unknown variable"])
      end
  | _ => ("", [problem "Incorrect attribute value type"])
  end.

Definition attrBool (b : cfgBody) (name : string) : option bool :=
  match lookup (bodyAttrs b) name with
  | Some (Kw "true") => Some true
  | Some (Kw "false") => Some false
  | _ => None
  end.

Definition attrString (b : cfgBody) (name : string) : string :=
  match lookup (bodyAttrs b) name with
  | Some (Lit s) => s
  | _ => ""
  end.

(** The source text is not read: a source of no bytes is a syntax error,
    any other source is the body [parsed]. *)
Definition cfgLib (parsed : cfgBody) : Lib :=
  {| Body := cfgBody;
     Expression := cfgExpr;
     File := cfgBody;
     URL := string;
     TCPAddr := string;
     Value := cfgValue;
     StringVal := VStr;
     ObjectVal := VObj;
     FileBody := fun f => f;
     ExprRange := fun _ => here;
     ExprVariables :=
       fun e =>
         match e with
         | Ref root _ => [mkTraversal root here]
         | _ => []
         end;
     ExprAsKeyword := fun e => match e with Kw s => s | _ => "" end;
     ExprList :=
       fun e =>
         match e with
         | Lst l => (l, [])
         | _ => ([], [problem "Invalid expression"])
         end;
     DecodeExpression := cfgDecode;
     PartialContentVars :=
       fun b =>
         (filter (fun block => BlockType block =? "vars") (bodyBlocks b),
          mkCfgBody (bodyAttrs b)
                    (filter (fun block => negb (BlockType block =? "vars"))
                            (bodyBlocks b)),
          []);
     ContentRoot := fun b => (bodyBlocks b, []);
     ContentAuth := fun b => (filter (fun block => BlockType block =? "auth") (bodyBlocks b), []);
     JustAttributes :=
       fun b =>
         (map (fun ne => (fst ne, mkAttribute (fst ne) (snd ne) here here))
              (bodyAttrs b),
          []);
     DecodeNetworkBody :=
       fun b _ =>
         ([], mkNetworkRaw (lookup (bodyAttrs b) "base_url")
                           (lookup (bodyAttrs b) "listen")
                           (attrBool b "https") b);
     DecodeServerBody :=
       fun b _ =>
         ([], mkServerRaw (attrBool b "share_handler") (attrBool b "ui_handler")
                          (attrBool b "search_handler")
                          (lookup (bodyAttrs b) "blob_writes"));
     DecodeSyncBody :=
       fun b _ =>
         ([], mkSyncRaw (lookup (bodyAttrs b) "from") (lookup (bodyAttrs b) "to")
                        (lookup (bodyAttrs b) "verify_interval"));
     DecodeIdentityBody :=
       fun b _ => ([], mkIdentityRaw (attrString b "id") (attrString b "keyring"));
     url_Parse := fun s => if s =? "" then inr "empty url" else inl s;
     ResolveTCPAddr := fun _ s => if s =? "" then inr "missing address" else inl s;
     ParseDuration :=
       fun s => if s =? "1h" then inl 3600000000000%Z else inr "invalid duration";
     ParseHCL :=
       fun src _ =>
         match src with
         | [] => (mkCfgBody [] [], [problem "Invalid syntax"])
         | _ => (parsed, [])
         end |}.

Definition block (type : string) (labels : list string)
    (attrs : list (string * cfgExpr)) (blocks : list (Block cfgBody))
  : Block cfgBody :=
  mkBlock type labels (mkCfgBody attrs blocks) here here (map (fun _ => here) labels).

(** A configuration without a fault. *)
Definition tidy : cfgBody :=
  mkCfgBody []
    [block "vars" [] [("name", Lit "blobs"); ("home", Ref "env" "HOME")] [];
     block "network" []
       [("base_url", Lit "https://example.com/"); ("listen", Lit ":3179")]
       [block "auth" ["userpass"] [] []];
     block "server" [] [("blob_writes", Lst [Kw "primary"; Kw "backup"])] [];
     block "index" ["kv"] [] [];
     block "storage" ["primary"] [("bucket", Ref "var" "name")] [];
     block "storage" ["backup"] [] [];
     block "sync" []
       [("from", Kw "primary"); ("to", Kw "backup"); ("verify_interval", Lit "1h")]
       []].

(** A configuration that defines a variable twice, one of them by a
    reference to another variable, and has two server blocks and two
    storage blocks of one name. *)
Definition untidy : cfgBody :=
  mkCfgBody []
    [block "vars" [] [("name", Lit "a"); ("twice", Ref "var" "name")] [];
     block "vars" [] [("name", Lit "b"); ("twice", Lit "2")] [];
     block "server" [] [("ui_handler", Kw "false")] [];
     block "server" [] [] [];
     block "storage" ["primary"] [("bucket", Lit "one")] [];
     block "storage" ["primary"] [("bucket", Lit "two")] []].

Definition environ : list string := ["HOME=/home/c"; "broken"; "HOME=/root"].

Definition lib : Lib := cfgLib tidy.

End ConfigFixtures.

(** * Properties *)

(** ** int64 arithmetic *)

Module Int64Facts.

Import Int64.

Lemma wrap64_small z : in_range z -> wrap64 z = z.
Proof.
  unfold in_range, min_int, max_int, wrap64. intros Hz.
  rewrite Z.mod_small; lia.
Qed.

Lemma wrap64_in_range z : in_range (wrap64 z).
Proof.
  unfold in_range, min_int, max_int, wrap64.
  pose proof (Z.mod_pos_bound (z + 2 ^ 63) (2 ^ 64) ltac:(lia)). lia.
Qed.

Lemma wrap64_add_l x y : wrap64 (wrap64 x + y) = wrap64 (x + y).
Proof.
  unfold wrap64.
  replace ((x + 2 ^ 63) mod 2 ^ 64 - 2 ^ 63 + y + 2 ^ 63)
    with ((x + 2 ^ 63) mod 2 ^ 64 + y) by lia.
  rewrite Zplus_mod_idemp_l. f_equal. f_equal. lia.
Qed.

Lemma add_add w a b : add (add w a) b = add w (a + b).
Proof.
  unfold add. rewrite wrap64_add_l. f_equal. lia.
Qed.

Lemma shl_2_small x :
  - 2 ^ 61 <= x < 2 ^ 61 -> shl x 2 = 4 * x.
Proof.
  intros Hx. unfold shl. rewrite Z.shiftl_mul_pow2 by lia.
  rewrite wrap64_small; [lia | unfold in_range, min_int, max_int; lia].
Qed.

End Int64Facts.

(** ** The sniffer *)

Section SnifferFacts.

Context `{Index.Imports}.

Import Index.

Lemma len_app a b : len (a ++ b) = len a + len b.
Proof. unfold len. rewrite length_app. lia. Qed.

Lemma len_nonneg a : 0 <= len a.
Proof. unfold len. lia. Qed.

(** What one [Write] does to a sniffer with a valid ref: the counter grows
    by the length (modulo 2^64) and the buffer takes what still fits. *)
Lemma Write_returns sn d :
  Valid (br sn) = true ->
  Write sn d =
  Returns (mkSniffer (br sn)
             (contents sn
              ++ firstn (Z.to_nat (MaxSchemaBlobSize - len (contents sn))) d)
             (Int64.add (written sn) (len d))
             (meta sn) (mimeType sn) (camliType sn),
           (len d, None)).
Proof.
  intros Hv. unfold Write. rewrite Hv. cbn [negb].
  do 3 f_equal.
  destruct (Z.ltb_spec (len (contents sn)) MaxSchemaBlobSize) as [Hlt | Hge].
  - f_equal.
    destruct (Z.ltb_spec (len d) (MaxSchemaBlobSize - len (contents sn)))
      as [Hd | Hd].
    + unfold len in *. rewrite !firstn_all2; trivial; lia.
    + reflexivity.
  - replace (Z.to_nat (MaxSchemaBlobSize - len (contents sn))) with O by lia.
    cbn. now rewrite app_nil_r.
Qed.

Lemma total_cons d ds : total (d :: ds) = len d + total ds.
Proof. unfold total. cbn [List.concat]. apply len_app. Qed.

Lemma firstn_room (c d r : list byte) (cap : Z) :
  firstn (Z.to_nat (cap - len (c ++ firstn (Z.to_nat (cap - len c)) d))) r
  = firstn (Z.to_nat (cap - len c) - List.length d) r.
Proof.
  f_equal. unfold len. rewrite length_app, length_firstn. lia.
Qed.

(** What a sequence of writes does. *)
Lemma WriteAll_returns ds : forall sn,
  Valid (br sn) = true ->
  Int64.in_range (written sn) ->
  WriteAll sn ds =
  Returns (mkSniffer (br sn)
             (contents sn
              ++ firstn (Z.to_nat (MaxSchemaBlobSize - len (contents sn)))
                        (List.concat ds))
             (Int64.wrap64 (written sn + total ds))
             (meta sn) (mimeType sn) (camliType sn)).
Proof.
  induction ds as [| d ds IH]; intros sn Hv Hw.
  - cbn. unfold total. cbn. rewrite Z.add_0_r, firstn_nil, app_nil_r.
    rewrite Int64Facts.wrap64_small by assumption. now destruct sn.
  - cbn [WriteAll]. rewrite Write_returns by assumption.
    rewrite IH; cbn [br contents written meta mimeType camliType]; trivial.
    + f_equal. f_equal.
      * rewrite <- app_assoc. f_equal.
        cbn [List.concat]. rewrite firstn_app. f_equal. apply firstn_room.
      * unfold Int64.add. rewrite Int64Facts.wrap64_add_l, total_cons.
        f_equal. lia.
    + apply Int64Facts.wrap64_in_range.
Qed.

Lemma sniff_returns ref ds :
  Valid ref = true ->
  sniff ref ds =
  Returns (mkSniffer ref
             (firstn (Z.to_nat MaxSchemaBlobSize) (List.concat ds))
             (Int64.wrap64 (total ds)) None EmptyString EmptyString).
Proof.
  intros Hv. unfold sniff, NewBlobSniffer. rewrite Hv. cbn [negb].
  rewrite WriteAll_returns; cbn; trivial.
  - now rewrite Z.sub_0_r.
  - unfold Int64.in_range, Int64.min_int, Int64.max_int. lia.
Qed.

Lemma total_nonneg ds : 0 <= total ds.
Proof. apply len_nonneg. Qed.

Lemma wrap64_total ds :
  total ds <= Int64.max_int -> Int64.wrap64 (total ds) = total ds.
Proof.
  intros Hle. apply Int64Facts.wrap64_small.
  pose proof (total_nonneg ds).
  unfold Int64.in_range, Int64.min_int, Int64.max_int in *. lia.
Qed.

End SnifferFacts.

Section SnifferClaims.

Context `{Index.Imports}.

Import Index.

Lemma firstn_cap_min (l : list byte) (cap : Z) :
  firstn (Z.to_nat cap) l = firstn (Z.to_nat (Z.min (len l) cap)) l.
Proof.
  unfold len. destruct (Z.le_gt_cases cap (Z.of_nat (List.length l))) as [Hc | Hc].
  - now rewrite Z.min_r by lia.
  - rewrite Z.min_l by lia. rewrite !firstn_all2; trivial; lia.
Qed.

(** X27.  For every sequence of writes to a sniffer, of N bytes in total,
    N at most 2^63-1, the range of the int64 counter: [IsTruncated] is true
    exactly when N exceeds the buffer cap, so a payload of exactly the cap
    is not truncated and one byte more is; [Body] returns an error exactly
    when the sniffer is truncated, and otherwise returns the buffered
    bytes, which are then all the bytes written. *)
Theorem truncated_iff_over_cap_in_range (ref : Ref) (ds : list (list byte)) :
  Valid ref = true ->
  total ds <= Int64.max_int ->
  exists sn,
    sniff ref ds = Returns sn
    /\ (IsTruncated sn = true <-> MaxSchemaBlobSize < total ds)
    /\ (total ds = MaxSchemaBlobSize -> IsTruncated sn = false)
    /\ (total ds = MaxSchemaBlobSize + 1 -> IsTruncated sn = true)
    /\ ((exists e, Body sn = inr e) <-> IsTruncated sn = true)
    /\ (IsTruncated sn = false ->
        Body sn = inl (contents sn) /\ contents sn = List.concat ds).
Proof.
  intros Hv Hle. eexists. split; [apply sniff_returns; exact Hv |].
  unfold Body, IsTruncated. cbn [written contents].
  rewrite wrap64_total by assumption.
  repeat split.
  - intros Ht. now apply Z.ltb_lt.
  - intros Ht. now apply Z.ltb_lt.
  - intros ->. apply Z.ltb_irrefl.
  - intros ->. apply Z.ltb_lt. lia.
  - intros [e He]. destruct (MaxSchemaBlobSize <? total ds); [trivial | discriminate].
  - intros ->. eexists. reflexivity.
  - destruct (MaxSchemaBlobSize <? total ds); [discriminate | reflexivity].
  - match goal with
    | Hf : (_ <? _) = false |- _ => apply Z.ltb_ge in Hf
    end.
    apply firstn_all2. unfold total, len in *. lia.
Qed.

(** C4.  Chunking independence: writing the chunks of a byte sequence in
    order leaves the sniffer with the same [Size], [IsTruncated], buffered
    contents and [Parse] outcome (content type and classification tag
    included) as writing the whole sequence in a single call. *)
Theorem C4_chunking_independence (ref : Ref) (chunks : list (list byte)) :
  Valid ref = true ->
  exists snN sn1,
    sniff ref chunks = Returns snN
    /\ sniff ref [List.concat chunks] = Returns sn1
    /\ Size snN = Size sn1
    /\ IsTruncated snN = IsTruncated sn1
    /\ contents snN = contents sn1
    /\ Parse snN = Parse sn1.
Proof.
  intros Hv. do 2 eexists.
  split; [apply sniff_returns; exact Hv |].
  split; [apply sniff_returns; exact Hv |].
  assert (Hc : List.concat [List.concat chunks] = List.concat chunks)
    by (cbn; apply app_nil_r).
  unfold total. rewrite Hc. repeat split.
Qed.

(** C5.  After [Parse]: when the buffered prefix passes the pre-check
    [LikelySchemaBlob] and decodes with [BlobFromReader], the classification
    tag is the decoded document's type and the content type is
    "application/json; camliType=" followed by that tag; when either check
    fails, the content type is what magic sniffing gives for the buffered
    prefix, the empty string when no signature matches, and the tag is left
    as it was. *)
Theorem C5_Parse_classification (sn : BlobSniffer) :
  (forall blob,
      LikelySchemaBlob (contents sn) = true ->
      BlobFromReader (br sn) (contents sn) = inl blob ->
      exists sn',
        Parse sn = Returns sn'
        /\ CamliType sn' = BlobType blob
        /\ MIMEType sn'
           = String.append "application/json; camliType=" (BlobType blob)
        /\ meta sn' = Some blob
        /\ contents sn' = contents sn)
  /\ (LikelySchemaBlob (contents sn) = false
      \/ (exists e, BlobFromReader (br sn) (contents sn) = inr e) ->
      exists sn',
        Parse sn = Returns sn'
        /\ MIMEType sn' = magic_MIMEType (contents sn)
        /\ (magicMatch (contents sn) = None -> MIMEType sn' = EmptyString)
        /\ CamliType sn' = CamliType sn
        /\ contents sn' = contents sn).
Proof.
  split.
  - intros blob Hl Hb. unfold Parse, bufferIsCamliJSON.
    rewrite Hl, Hb. cbn. eexists. repeat split.
  - intros Hfail. unfold Parse, bufferIsCamliJSON.
    assert (Hm : magicMatch (contents sn) = None ->
                 magic_MIMEType (contents sn) = EmptyString)
      by (unfold magic_MIMEType; now intros ->).
    destruct Hfail as [Hl | [e Hb]].
    + rewrite Hl. cbn. eexists. repeat split. exact Hm.
    + rewrite Hb. destruct (LikelySchemaBlob (contents sn));
        cbn; eexists; repeat split; exact Hm.
Qed.

(** X28.  For every sequence of writes of a total of at most 2^63-1 bytes,
    the range of the int64 counter, [Size] is the total number of bytes
    written, bytes past the cap included, and the buffer holds exactly the
    first min(total, cap) bytes of the stream. *)
Theorem Size_is_total_in_range (ref : Ref) (ds : list (list byte)) :
  Valid ref = true ->
  total ds <= Int64.max_int ->
  exists sn,
    sniff ref ds = Returns sn
    /\ Size sn = total ds
    /\ contents sn
       = firstn (Z.to_nat (Z.min (total ds) MaxSchemaBlobSize)) (List.concat ds)
    /\ len (contents sn) = Z.max 0 (Z.min (total ds) MaxSchemaBlobSize).
Proof.
  intros Hv Hle. eexists. split; [apply sniff_returns; exact Hv |].
  unfold Size. cbn [written contents].
  split; [now apply wrap64_total |].
  split; [apply firstn_cap_min |].
  unfold total, len. rewrite length_firstn. lia.
Qed.

(** C9.  [NewBlobSniffer] panics on an invalid ref, so no sniffer comes out
    of it; on a valid ref it returns a sniffer, and on that sniffer every
    [Write], after any writes before it, returns the full length of its
    argument and a nil error. *)
Theorem C9_construction_and_Write_succeed (ref : Ref) :
  (Valid ref = false ->
   NewBlobSniffer ref = Panics "invalid ref"
   /\ forall ds, sniff ref ds = Panics "invalid ref")
  /\ (Valid ref = true ->
      exists sn0,
        NewBlobSniffer ref = Returns sn0
        /\ forall ds d, exists sn sn',
            WriteAll sn0 ds = Returns sn
            /\ Write sn d = Returns (sn', (len d, None))).
Proof.
  split; intros Hv.
  - unfold sniff, NewBlobSniffer. rewrite Hv. cbn. split; reflexivity.
  - unfold NewBlobSniffer. rewrite Hv. cbn [negb]. eexists. split; [reflexivity |].
    intros ds d. do 2 eexists. split.
    + apply WriteAll_returns; cbn; trivial.
      unfold Int64.in_range, Int64.min_int, Int64.max_int. lia.
    + apply Write_returns. cbn. exact Hv.
Qed.

End SnifferClaims.

(** *** The sniffer theorems at the 4-byte instance *)

Section SnifferWitnesses.

Import Index Fixtures.

Lemma truncated_iff_over_cap_in_range_witness :
  @Valid smallImports ref0 = true
  /\ @total five <= Int64.max_int
  /\ exists sn,
      @sniff smallImports ref0 five = Returns sn
      /\ IsTruncated sn = true
      /\ exists e, Body sn = inr e.
Proof.
  assert (Hv : @Valid smallImports ref0 = true) by reflexivity.
  assert (Hle : @total five <= Int64.max_int) by (vm_compute; discriminate).
  split; [exact Hv |]. split; [exact Hle |].
  destruct (@truncated_iff_over_cap_in_range smallImports ref0 five Hv Hle)
    as (sn & Hs & _ & _ & Hover & Hbody & _).
  exists sn. split; [exact Hs |].
  assert (Ht : IsTruncated sn = true) by (apply Hover; reflexivity).
  split; [exact Ht |]. apply Hbody. exact Ht.
Defined.

Lemma C4_witness :
  @Valid smallImports ref0 = true
  /\ exists snN sn1,
      @sniff smallImports ref0 five = Returns snN
      /\ @sniff smallImports ref0 [List.concat five] = Returns sn1
      /\ Size snN = Size sn1
      /\ Parse snN = Parse sn1.
Proof.
  assert (Hv : @Valid smallImports ref0 = true) by reflexivity.
  split; [exact Hv |].
  destruct (@C4_chunking_independence smallImports ref0 five Hv)
    as (snN & sn1 & HN & H1 & Hsize & _ & _ & Hparse).
  exists snN, sn1. repeat split; assumption.
Defined.

Lemma C5_witness :
  @LikelySchemaBlob smallImports (contents braces) = true
  /\ @BlobFromReader smallImports (br braces) (contents braces)
     = inl "permanode"%string
  /\ exists sn',
      Parse braces = Returns sn'
      /\ MIMEType sn' = "application/json; camliType=permanode"%string.
Proof.
  split; [reflexivity |]. split; [reflexivity |].
  destruct (proj1 (@C5_Parse_classification smallImports braces)
              "permanode"%string eq_refl eq_refl)
    as (sn' & Hp & _ & Hm & _).
  exists sn'. split; [exact Hp | exact Hm].
Defined.

Lemma Size_is_total_in_range_witness :
  @Valid smallImports ref0 = true
  /\ @total five <= Int64.max_int
  /\ exists sn,
      @sniff smallImports ref0 five = Returns sn
      /\ Size sn = 5
      /\ contents sn = [x1f; x8b; x00; x00].
Proof.
  assert (Hv : @Valid smallImports ref0 = true) by reflexivity.
  assert (Hle : @total five <= Int64.max_int) by (vm_compute; discriminate).
  split; [exact Hv |]. split; [exact Hle |].
  destruct (@Size_is_total_in_range smallImports ref0 five Hv Hle)
    as (sn & Hs & Hsize & Hc & _).
  exists sn. split; [exact Hs |]. split; [exact Hsize | exact Hc].
Defined.

Lemma C9_witness :
  @Valid smallImports ref0 = true
  /\ exists sn0,
      @NewBlobSniffer smallImports ref0 = Returns sn0
      /\ exists sn sn',
          WriteAll sn0 five = Returns sn
          /\ Write sn [x02; x03] = Returns (sn', (2, None)).
Proof.
  assert (Hv : @Valid smallImports ref0 = true) by reflexivity.
  split; [exact Hv |].
  destruct (proj2 (@C9_construction_and_Write_succeed smallImports ref0) Hv)
    as (sn0 & Hn & Hw).
  exists sn0. split; [exact Hn |]. exact (Hw five [x02; x03]).
Defined.

End SnifferWitnesses.

(** *** The counter past the range of an int64 *)

Section SnifferOverflow.

Import Index Fixtures.

Lemma total_repeat (d : list byte) (n : nat) :
  total (repeat d n) = Z.of_nat n * len d.
Proof.
  induction n as [| n IH].
  - reflexivity.
  - cbn [repeat]. rewrite total_cons, IH, Nat2Z.inj_succ. ring.
Qed.

Lemma total_flood : total flood = 9223372036854775808.
Proof.
  unfold flood, gib. rewrite total_repeat. unfold len.
  rewrite repeat_length, !Z2Nat.id by (intros Hc; discriminate Hc).
  reflexivity.
Qed.

Lemma len_firstn_cap (l : list byte) (cap : Z) :
  0 <= cap <= len l -> len (firstn (Z.to_nat cap) l) = cap.
Proof. unfold len. intros Hc. rewrite length_firstn. lia. Qed.

(** After writes of 2^63 bytes in all, the counter is the least int64 and
    the buffer is full, when the cap is no more than what was written. *)
Lemma sniff_counter_wraps `{Imports} (ref : Ref) (ds : list (list byte)) :
  Valid ref = true ->
  total ds = 9223372036854775808 ->
  exists sn,
    sniff ref ds = Returns sn
    /\ written sn = Int64.min_int
    /\ (0 <= MaxSchemaBlobSize <= total ds ->
        len (contents sn) = MaxSchemaBlobSize).
Proof.
  intros Hv Ht. eexists. split; [apply sniff_returns; exact Hv |].
  cbn [written contents]. rewrite Ht. split; [reflexivity |].
  intros Hcap. apply len_firstn_cap. unfold total in Ht. lia.
Qed.

(** C3.  A sniffer with a cap of 4 bytes that was written 2^63 bytes, in
    2^33 calls of 2^30 bytes each, is not truncated, and [Body] returns
    its four buffered bytes and no error: the int64 counter has wrapped to
    -2^63.  The claim, and the comment on [IsTruncated], say truncated. *)
Theorem C3_not_truncated_after_2_63_bytes :
  total flood = 9223372036854775808
  /\ @MaxSchemaBlobSize smallImports < total flood
  /\ exists sn,
       @sniff smallImports ref0 flood = Returns sn
       /\ IsTruncated sn = false
       /\ Body sn = inl (contents sn)
       /\ len (contents sn) = 4.
Proof.
  split; [exact total_flood |].
  split; [rewrite total_flood; reflexivity |].
  destruct (@sniff_counter_wraps smallImports ref0 flood eq_refl total_flood)
    as (sn & Hs & Hw & Hc).
  exists sn. split; [exact Hs |].
  assert (Ht : IsTruncated sn = false).
  { unfold IsTruncated. rewrite Hw. reflexivity. }
  split; [exact Ht |]. split.
  - unfold Body. now rewrite Ht.
  - apply Hc. rewrite total_flood. split; intros Hcmp; discriminate Hcmp.
Qed.

(** C8.  On the same sniffer [Size] is -2^63, while 2^63 bytes were
    written: the counter is an int64 and has wrapped.  The claim, and the
    comment on [Size], say the number of bytes written. *)
Theorem C8_Size_negative_after_2_63_bytes :
  total flood = 9223372036854775808
  /\ exists sn,
       @sniff smallImports ref0 flood = Returns sn
       /\ Size sn = -9223372036854775808
       /\ Size sn <> total flood.
Proof.
  split; [exact total_flood |].
  destruct (@sniff_counter_wraps smallImports ref0 flood eq_refl total_flood)
    as (sn & Hs & Hw & _).
  exists sn. split; [exact Hs |].
  unfold Size. rewrite Hw, total_flood. split; [reflexivity | discriminate].
Qed.

End SnifferOverflow.

(** ** Strings *)

Module StringsFacts.

Import Strings.

Local Open Scope string_scope.

Lemma length_app (a b : string) :
  String.length (a ++ b) = (String.length a + String.length b)%nat.
Proof. induction a as [| c a IH]; cbn; [reflexivity | now rewrite IH]. Qed.

Lemma take_app (a b : string) : take (String.length a) (a ++ b) = a.
Proof. induction a as [| c a IH]; cbn; [now destruct b | now rewrite IH]. Qed.

Lemma drop_app (a b : string) (n : nat) :
  drop (String.length a + n) (a ++ b) = drop n b.
Proof. induction a as [| c a IH]; cbn; [reflexivity | exact IH]. Qed.

Lemma drop_length_app (a b : string) : drop (String.length a) (a ++ b) = b.
Proof.
  rewrite <- (Nat.add_0_r (String.length a)), drop_app. now destruct b.
Qed.

Lemma append_nil_r (a : string) : a ++ "" = a.
Proof. induction a as [| c a IH]; cbn; [reflexivity | now rewrite IH]. Qed.


(** The first slash of [b ++ "/" ++ r], when [b] has none, is at the length
    of [b]. *)
Lemma Index_first_slash (b r : string) :
  Contains b "/" = false -> Index (b ++ "/" ++ r) "/" = Some (String.length b).
Proof.
  unfold Contains. induction b as [| c b IH]; intros Hb.
  - reflexivity.
  - cbn in Hb |- *. destruct (Ascii.eqb c "/"); cbn in Hb |- *.
    + discriminate.
    + destruct (Index b "/") eqn:Hi; [discriminate |].
      cbn in IH. rewrite IH; reflexivity.
Qed.

Lemma SplitN_no_slash (b : string) :
  Contains b "/" = false -> SplitN b "/" 2 = [b].
Proof.
  unfold Contains, SplitN.
  change (Z.to_nat 2 - 1)%nat with 1%nat. cbn [Z.eqb Z.ltb Z.compare genSplit].
  destruct (Index b "/"); [discriminate | reflexivity].
Qed.

Lemma SplitN_first_slash (b r : string) :
  Contains b "/" = false -> SplitN (b ++ "/" ++ r) "/" 2 = [b; r].
Proof.
  intros Hb. unfold SplitN.
  change (Z.to_nat 2 - 1)%nat with 1%nat. cbn [Z.eqb Z.ltb Z.compare genSplit].
  rewrite (Index_first_slash b r Hb).
  rewrite take_app, drop_app. reflexivity.
Qed.


End StringsFacts.

(** ** The constructors *)

Section ConstructorFacts.

Context `{S3.Service}.

Import S3 Strings.

Local Open Scope string_scope.

Lemma splitBucket_no_slash (b : string) :
  Contains b "/" = false -> splitBucket b = (b, "").
Proof.
  intros Hb. unfold splitBucket.
  rewrite (StringsFacts.SplitN_no_slash b Hb). reflexivity.
Qed.

Lemma splitBucket_first_slash (b r : string) :
  Contains b "/" = false ->
  splitBucket (b ++ "/" ++ r)
  = (b, if r =? "" then "" else if HasSuffix r "/" then r else r ++ "/").
Proof.
  intros Hb. unfold splitBucket.
  rewrite (StringsFacts.SplitN_first_slash b r Hb).
  destruct (String.eqb_spec r "") as [-> | Hr]; [reflexivity |].
  cbn [negb andb]. now destruct (HasSuffix r "/").
Qed.


(** The constructors, once the configuration is read. *)
Lemma NewFromHCLConfig_decoded (w : World) (config : StorageConfig) :
  hclDecodes config ->
  NewFromHCLConfig w config
  = run w (hclClient config)
      ((if negb (hclSkipStartupCheck config) then
          hclStartupCheck (hclDiags config) (hclBucket config)
            (hclAccessKeyID config) (hclHostname config)
            (exprRange (raw_Bucket (hclRaw config)))
            (exprRange (raw_AccessKeyID (hclRaw config)))
        else ret tt) ;;;
       wrapCache (hclCacheSize config) (hclBucket config)
                 (hclDirPrefix config) (hclHostname config)).
Proof.
  unfold hclDecodes, NewFromHCLConfig, hclClient, hclDiags, hclBucket,
    hclDirPrefix, hclBucketSpec, hclAccessKeyID, hclHostname, hclCacheSize,
    hclSkipStartupCheck, hclRaw, Optional.
  destruct (decodeBody config) as [diags raw]. cbn [fst snd].
  intros (H1 & H2 & H3). rewrite H1, H2, H3.
  now destruct (splitBucket (exprValue (raw_Bucket raw))).
Qed.

Lemma newFromConfigWithTransport_valid (w : World) (config : jsonObj)
    (transport : option RoundTripper) :
  Validate config = None ->
  newFromConfigWithTransport w config transport
  = run w (jsonClient config transport)
      ((if negb (jsonSkipStartupCheck config) then
          jsonStartupCheck (jsonBucket config) (jsonHostname config)
        else ret tt) ;;;
       wrapCache (jsonCacheSize config) (jsonBucket config)
                 (jsonDirPrefix config) (jsonHostname config)).
Proof.
  intros Hv.
  unfold newFromConfigWithTransport, jsonClient, jsonBucket, jsonDirPrefix,
    jsonHostname, jsonCacheSize, jsonSkipStartupCheck.
  rewrite Hv. now destruct (splitBucket (RequiredString (json_bucket config))).
Qed.

(** A construction that fails the configuration reading makes no call. *)
Lemma NewFromHCLConfig_cases (w : World) (config : StorageConfig) :
  hclDecodes config
  \/ exists diags,
      NewFromHCLConfig w config = early (DiagnosticsError diags) w.
Proof.
  unfold hclDecodes, NewFromHCLConfig, hclRaw.
  destruct (decodeBody config) as [diags raw]. cbn [fst snd].
  destruct (HasErrors diags); [right; eexists; reflexivity |].
  destruct (HasErrors (exprDiags (raw_AccessKeyID raw)));
    [right; eexists; reflexivity |].
  destruct (HasErrors (exprDiags (raw_Bucket raw)));
    [right; eexists; reflexivity |].
  now left.
Qed.

(** The last step: whatever the startup check did, a construction that
    gets past it returns the wrapped backend, whose client is the client as
    the check left it. *)
Lemma run_wrapCache (w : World) (c : Client RoundTripper) (m : M unit)
    (cacheSize : Z) (b d h : string) :
  run w c (m ;;; wrapCache cacheSize b d h)
  = match m (mkState w c []) with
    | (inl _, st) =>
        mkResult (inl (wrapped cacheSize (mks3Storage (client st) b d h)))
                 (world st) (trace st)
    | (inr e, st) => mkResult (inr e) (world st) (trace st)
    end.
Proof.
  unfold run, bind, wrapCache, wrapped, getClient, ret.
  destruct (m (mkState w c [])) as [[[] | e] st]; [| reflexivity].
  now destruct (negb (cacheSize =? 0)%Z).
Qed.

Lemma backend_wrapped (cacheSize : Z) (sto : s3Storage) :
  backend (wrapped cacheSize sto) = Some sto.
Proof. unfold wrapped. now destruct (negb (cacheSize =? 0)%Z). Qed.

(** A successful construction returns the wrapped backend with the bucket
    and prefix derived from the configured bucket string. *)
Lemma NewFromHCLConfig_returns (w : World) (config : StorageConfig) (s : Storage) :
  returned (NewFromHCLConfig w config) = inl s ->
  exists c,
    s = wrapped (hclCacheSize config)
          (mks3Storage c (hclBucket config) (hclDirPrefix config)
                       (hclHostname config)).
Proof.
  destruct (NewFromHCLConfig_cases w config) as [Hd | [diags ->]];
    [| discriminate].
  rewrite (NewFromHCLConfig_decoded w config Hd), run_wrapCache.
  match goal with
  | |- context [match ?m ?st with _ => _ end] =>
      destruct (m st) as [[[] | e] st']
  end; cbn [returned]; intros Hr; [| discriminate].
  injection Hr as <-. now eexists.
Qed.

Lemma newFromConfigWithTransport_returns (w : World) (config : jsonObj)
    (transport : option RoundTripper) (s : Storage) :
  returned (newFromConfigWithTransport w config transport) = inl s ->
  exists c,
    s = wrapped (jsonCacheSize config)
          (mks3Storage c (jsonBucket config) (jsonDirPrefix config)
                       (jsonHostname config)).
Proof.
  destruct (Validate config) as [err |] eqn:Hv.
  - unfold newFromConfigWithTransport. rewrite Hv.
    destruct (splitBucket (RequiredString (json_bucket config))). discriminate.
  - rewrite (newFromConfigWithTransport_valid w config transport Hv), run_wrapCache.
    match goal with
    | |- context [match ?m ?st with _ => _ end] =>
        destruct (m st) as [[[] | e] st']
    end; cbn [returned]; intros Hr; [| discriminate].
    injection Hr as <-. now eexists.
Qed.

End ConstructorFacts.

Section BucketClaims.

Context `{S3.Service}.

Import S3 Strings.

Local Open Scope string_scope.





End BucketClaims.

(** ** The startup check, call by call *)

Section StartupFacts.

Context `{S3.Service}.

Import S3 Strings.

Local Open Scope string_scope.

Lemma callListBucket_eval (b after : string) (max : Z) (st : state)
    (r : option callError) (w' : World) :
  ListBucket (world st) (client st) b after max = (r, w') ->
  callListBucket b after max st
  = (inl r, mkState w' (client st)
              (trace st ++ [EvListBucket (client st) b after max])).
Proof. intros Hl. unfold callListBucket. now rewrite Hl. Qed.

Lemma retryListing_eval (b hostname : string) (st : state)
    (r : option callError) (w' : World) :
  ListBucket (world st) (client st) b "" 1 = (r, w') ->
  retryListing b hostname st
  = (inl r, mkState w' (client st)
              (trace st ++ retryEvents (client st) b hostname r)).
Proof.
  intros Hl. unfold retryListing, bind.
  rewrite (callListBucket_eval _ _ _ _ _ _ Hl).
  destruct r as [e |]; unfold ret, getClient, logPrintf, retryEvents, warning;
    cbn [world client trace]; [reflexivity |].
  now rewrite <- app_assoc.
Qed.

(** No signal: the blocks do nothing. *)
Lemma redirectBlocks_no_signal (serr : s3Error) (err : option callError)
    (b hostname : string) (st : state) :
  regionRedirect serr = false ->
  endpointRedirect serr = false ->
  redirectBlocks serr err b hostname st = (inl err, st).
Proof.
  unfold regionRedirect, endpointRedirect, redirectBlocks, bind, ret.
  now intros -> ->.
Qed.

(** Region redirect, location query fails: construction stops there. *)
Lemma redirectBlocks_location_fails (serr : s3Error) (err : option callError)
    (b hostname : string) (st : state) (lerr : callError) (w' : World) :
  regionRedirect serr = true ->
  BucketLocation (world st) (client st) b = (inr lerr, w') ->
  redirectBlocks serr err b hostname st
  = (inr (Errorf "Wrong server for bucket %q; and error determining bucket's location: %v"
                 [ArgString b; ArgError lerr]),
     mkState w' (client st) (trace st ++ [EvBucketLocation (client st) b])).
Proof.
  unfold regionRedirect, redirectBlocks, bind, callBucketLocation, fail.
  intros -> Hloc. now rewrite Hloc.
Qed.

(** Region redirect alone: one location query, one rebinding, one retry. *)
Lemma redirectBlocks_region (serr : s3Error) (err : option callError)
    (b hostname : string) (st : state) (loc : string) (w2 w3 : World)
    (r : option callError) :
  regionRedirect serr = true ->
  endpointRedirect serr = false ->
  BucketLocation (world st) (client st) b = (inl loc, w2) ->
  ListBucket w2 (rebind (client st) loc) b "" 1 = (r, w3) ->
  redirectBlocks serr err b hostname st
  = (inl r,
     mkState w3 (rebind (client st) loc)
       (trace st ++ EvBucketLocation (client st) b
                    :: retryEvents (rebind (client st) loc) b hostname r)).
Proof.
  unfold regionRedirect, endpointRedirect, redirectBlocks.
  intros -> -> Hloc Hl.
  unfold bind at 1 2. unfold callBucketLocation. rewrite Hloc.
  unfold bind, setHostname. cbn [world client trace].
  fold (rebind (client st) loc).
  rewrite (retryListing_eval b hostname
             (mkState w2 (rebind (client st) loc)
                      (trace st ++ [EvBucketLocation (client st) b])) r w3 Hl).
  unfold ret. cbn [world client trace]. now rewrite <- app_assoc.
Qed.

(** Suggested endpoint alone: one rebinding, one retry. *)
Lemma redirectBlocks_endpoint (serr : s3Error) (err : option callError)
    (b hostname : string) (st : state) (w2 : World) (r : option callError) :
  regionRedirect serr = false ->
  endpointRedirect serr = true ->
  let c' := rebind (client st) (TrimPrefix (UseEndpoint serr) (b ++ ".")) in
  ListBucket (world st) c' b "" 1 = (r, w2) ->
  redirectBlocks serr err b hostname st
  = (inl r, mkState w2 c' (trace st ++ retryEvents c' b hostname r)).
Proof.
  intros Hr He c' Hl. unfold regionRedirect, endpointRedirect in Hr, He.
  unfold redirectBlocks. rewrite Hr, He.
  unfold bind, ret, setHostname. cbn [world client trace].
  fold (rebind (client st) (TrimPrefix (UseEndpoint serr) (b ++ "."))).
  fold c'.
  exact (retryListing_eval b hostname (mkState (world st) c' (trace st)) r w2 Hl).
Qed.

End StartupFacts.

(** ** Constructions that reach the redirect blocks *)

Section RedirectFacts.

Context `{S3.Service}.

Import S3 Strings.

Local Open Scope string_scope.

Lemma hclFatal_false (serr : s3Error) :
  hclFatal serr = false ->
  (AmazonCode serr =? "NoSuchBucket") = false
  /\ (AmazonCode serr =? "InvalidAccessKeyId") = false.
Proof. unfold hclFatal. intros Hf. now apply orb_false_elim in Hf. Qed.

Lemma hclStartupCheck_redirects (diags : Diagnostics)
    (b accessKeyID hostname : string) (bucketRange accessKeyRange : Range)
    (st : state) (serr : s3Error) (w1 : World) :
  ListBucket (world st) (client st) b "" 1 = (Some (S3Err serr), w1) ->
  hclFatal serr = false ->
  hclStartupCheck diags b accessKeyID hostname bucketRange accessKeyRange st
  = (err <- redirectBlocks serr (Some (S3Err serr)) b hostname ;;
     listingError b err)
      (mkState w1 (client st) (trace st ++ [EvListBucket (client st) b "" 1])).
Proof.
  intros Hl Hf. destruct (hclFatal_false serr Hf) as [Hn Hi].
  unfold hclStartupCheck. unfold bind at 1.
  rewrite (callListBucket_eval _ _ _ _ _ _ Hl). now rewrite Hn, Hi.
Qed.

Lemma jsonStartupCheck_redirects (b hostname : string)
    (st : state) (serr : s3Error) (w1 : World) :
  ListBucket (world st) (client st) b "" 1 = (Some (S3Err serr), w1) ->
  jsonFatal serr = false ->
  jsonStartupCheck b hostname st
  = (err <- redirectBlocks serr (Some (S3Err serr)) b hostname ;;
     listingError b err)
      (mkState w1 (client st) (trace st ++ [EvListBucket (client st) b "" 1])).
Proof.
  intros Hl Hf. unfold jsonFatal in Hf.
  unfold jsonStartupCheck. unfold bind at 1.
  rewrite (callListBucket_eval _ _ _ _ _ _ Hl). now rewrite Hf.
Qed.

(** A construction whose startup check reaches the redirect blocks with the
    error [serr] of the first listing, case by case. *)
Lemma run_redirects (check : M unit) (w w1 : World) (c : Client RoundTripper)
    (cacheSize : Z) (b d h : string) (serr : s3Error) :
  check (mkState w c [])
  = (err <- redirectBlocks serr (Some (S3Err serr)) b h ;; listingError b err)
      (mkState w1 c [EvListBucket c b "" 1]) ->
  let res := run w c (check ;;; wrapCache cacheSize b d h) in
  (regionRedirect serr = false -> endpointRedirect serr = false ->
   res = mkResult (inr (listingFailed b (S3Err serr))) w1 [EvListBucket c b "" 1])
  /\ (regionRedirect serr = true ->
      forall lerr w2,
        BucketLocation w1 c b = (inr lerr, w2) ->
        res = mkResult (inr (locationFailed b lerr)) w2
                [EvListBucket c b "" 1; EvBucketLocation c b])
  /\ (regionRedirect serr = true -> endpointRedirect serr = false ->
      forall loc w2 r w3,
        BucketLocation w1 c b = (inl loc, w2) ->
        ListBucket w2 (rebind c loc) b "" 1 = (r, w3) ->
        res = mkResult (afterListing cacheSize (rebind c loc) b d h r) w3
                (EvListBucket c b "" 1 :: EvBucketLocation c b
                 :: retryEvents (rebind c loc) b h r))
  /\ (regionRedirect serr = false -> endpointRedirect serr = true ->
      forall r w2,
        let c' := rebind c (TrimPrefix (UseEndpoint serr) (b ++ ".")) in
        ListBucket w1 c' b "" 1 = (r, w2) ->
        res = mkResult (afterListing cacheSize c' b d h r) w2
                (EvListBucket c b "" 1 :: retryEvents c' b h r)).
Proof.
  intros Hcheck res. subst res. rewrite run_wrapCache, Hcheck.
  set (st1 := mkState w1 c [EvListBucket c b "" 1]).
  repeat split.
  - intros Hr He. unfold bind.
    now rewrite (redirectBlocks_no_signal serr _ b h st1 Hr He).
  - intros Hr lerr w2 Hloc. unfold bind.
    now rewrite (redirectBlocks_location_fails serr _ b h st1 lerr w2 Hr Hloc).
  - intros Hr He loc w2 r w3 Hloc Hl. unfold bind.
    rewrite (redirectBlocks_region serr _ b h st1 loc w2 w3 r Hr He Hloc Hl).
    now destruct r.
  - intros Hr He r w2 c' Hl. unfold bind.
    rewrite (redirectBlocks_endpoint serr _ b h st1 w2 r Hr He Hl).
    now destruct r.
Qed.

End RedirectFacts.

(** ** The startup check of each constructor *)

Section StartupCheckFacts.

Context `{S3.Service}.

Import S3 Strings.

Local Open Scope string_scope.

(** [NewFromHCLConfig] with the check enabled, once the configuration is
    read. *)
Lemma NewFromHCLConfig_checked (w : World) (config : StorageConfig) :
  hclDecodes config ->
  hclSkipStartupCheck config = false ->
  NewFromHCLConfig w config
  = run w (hclClient config)
      (hclStartupCheck (hclDiags config) (hclBucket config)
         (hclAccessKeyID config) (hclHostname config)
         (exprRange (raw_Bucket (hclRaw config)))
         (exprRange (raw_AccessKeyID (hclRaw config))) ;;;
       wrapCache (hclCacheSize config) (hclBucket config)
                 (hclDirPrefix config) (hclHostname config)).
Proof.
  intros Hd Hs. rewrite (NewFromHCLConfig_decoded w config Hd). now rewrite Hs.
Qed.

Lemma newFromConfigWithTransport_checked (w : World) (config : jsonObj)
    (transport : option RoundTripper) :
  Validate config = None ->
  jsonSkipStartupCheck config = false ->
  newFromConfigWithTransport w config transport
  = run w (jsonClient config transport)
      (jsonStartupCheck (jsonBucket config) (jsonHostname config) ;;;
       wrapCache (jsonCacheSize config) (jsonBucket config)
                 (jsonDirPrefix config) (jsonHostname config)).
Proof.
  intros Hv Hs. rewrite (newFromConfigWithTransport_valid w config transport Hv).
  now rewrite Hs.
Qed.

(** X4.  [NewFromHCLConfig]: a missing bucket and a refused access key are each
    answered with an error diagnostic at the argument concerned, after the
    one listing; no storage is returned. *)
Lemma NewFromHCLConfig_fatal_codes (w : World) (config : StorageConfig)
    (serr : s3Error) (w1 : World) :
  hclDecodes config ->
  hclSkipStartupCheck config = false ->
  ListBucket w (hclClient config) (hclBucket config) "" 1
  = (Some (S3Err serr), w1) ->
  (AmazonCode serr = "NoSuchBucket" ->
   NewFromHCLConfig w config
   = mkResult (inr (DiagnosticsError (hclDiags config ++ [noSuchBucketDiag config])%list))
       w1 [EvListBucket (hclClient config) (hclBucket config) "" 1])
  /\ (AmazonCode serr = "InvalidAccessKeyId" ->
      NewFromHCLConfig w config
      = mkResult
          (inr (DiagnosticsError (hclDiags config ++ [invalidAccessKeyDiag config])%list))
          w1 [EvListBucket (hclClient config) (hclBucket config) "" 1]).
Proof.
  intros Hd Hs Hl.
  split; intros Hc;
    rewrite (NewFromHCLConfig_checked w config Hd Hs), run_wrapCache;
    unfold hclStartupCheck; unfold bind at 1;
    rewrite (callListBucket_eval (hclBucket config) "" 1
               (mkState w (hclClient config) []) _ w1 Hl);
    cbv beta iota; rewrite Hc; reflexivity.
Qed.

(** X5.  [newFromConfigWithTransport]: a missing bucket is answered, after
    the one listing and without a retry, with an error that carries the
    bucket name as split from the bucket string. *)
Lemma newFromConfigWithTransport_NoSuchBucket (w : World) (config : jsonObj)
    (transport : option RoundTripper) (serr : s3Error) (w1 : World) :
  Validate config = None ->
  jsonSkipStartupCheck config = false ->
  ListBucket w (jsonClient config transport) (jsonBucket config) "" 1
  = (Some (S3Err serr), w1) ->
  AmazonCode serr = "NoSuchBucket" ->
  newFromConfigWithTransport w config transport
  = mkResult (inr (Errorf "bucket %q doesn't exist" [ArgString (jsonBucket config)]))
      w1 [EvListBucket (jsonClient config transport) (jsonBucket config) "" 1].
Proof.
  intros Hv Hs Hl Hc.
  rewrite (newFromConfigWithTransport_checked w config transport Hv Hs), run_wrapCache.
  unfold jsonStartupCheck. unfold bind at 1.
  rewrite (callListBucket_eval (jsonBucket config) "" 1
             (mkState w (jsonClient config transport) []) _ w1 Hl).
  cbv beta iota. rewrite Hc. reflexivity.
Qed.

(** [newFromConfigWithTransport] has no case for a refused access key: the
    error goes through the redirect blocks like any other.  Without a
    suggested endpoint the construction fails with the listing error; with
    one, the listing is retried at that endpoint and the retry decides. *)
Lemma newFromConfigWithTransport_InvalidAccessKeyId (w : World) (config : jsonObj)
    (transport : option RoundTripper) (serr : s3Error) (w1 : World) :
  Validate config = None ->
  jsonSkipStartupCheck config = false ->
  let c := jsonClient config transport in
  let b := jsonBucket config in
  ListBucket w c b "" 1 = (Some (S3Err serr), w1) ->
  AmazonCode serr = "InvalidAccessKeyId" ->
  let res := newFromConfigWithTransport w config transport in
  (endpointRedirect serr = false ->
   res = mkResult (inr (listingFailed b (S3Err serr))) w1 [EvListBucket c b "" 1])
  /\ (endpointRedirect serr = true ->
      forall r w2,
        let c' := rebind c (TrimPrefix (UseEndpoint serr) (b ++ ".")) in
        ListBucket w1 c' b "" 1 = (r, w2) ->
        res = mkResult (afterListing (jsonCacheSize config) c' b
                          (jsonDirPrefix config) (jsonHostname config) r)
                w2 (EvListBucket c b "" 1
                    :: retryEvents c' b (jsonHostname config) r)).
Proof.
  intros Hv Hs c b Hl Hc res. subst res.
  rewrite (newFromConfigWithTransport_checked w config transport Hv Hs).
  assert (Hf : jsonFatal serr = false) by (unfold jsonFatal; now rewrite Hc).
  assert (Hr : regionRedirect serr = false)
    by (unfold regionRedirect; now rewrite Hc).
  pose proof (jsonStartupCheck_redirects b (jsonHostname config)
                (mkState w c []) serr w1 Hl Hf) as Hcheck.
  destruct (run_redirects _ w w1 c (jsonCacheSize config) b
              (jsonDirPrefix config) (jsonHostname config) serr Hcheck)
    as (Hnone & _ & _ & Hend).
  split; [intros He; exact (Hnone Hr He) | intros He; exact (Hend Hr He)].
Qed.

End StartupCheckFacts.

(** ** No retry loop *)

Section RetryBound.

Context `{S3.Service}.

Import S3 Strings.

Local Open Scope string_scope.

Lemma listings_app (tr1 tr2 : list event) :
  listings (tr1 ++ tr2) = (listings tr1 + listings tr2)%nat.
Proof. unfold listings. now rewrite filter_app, length_app. Qed.

Lemma addsAtMost_ret {A} (a : A) : addsAtMost 0 (ret a).
Proof. intros st. exists []. cbn. now rewrite app_nil_r. Qed.

Lemma addsAtMost_fail {A} (e : error) : addsAtMost 0 (@fail _ A e).
Proof. intros st. exists []. cbn. now rewrite app_nil_r. Qed.

Lemma addsAtMost_bind {A B} (n k : nat) (m : M A) (f : A -> M B) :
  addsAtMost n m -> (forall a, addsAtMost k (f a)) ->
  addsAtMost (n + k) (bind m f).
Proof.
  intros Hm Hf st. unfold bind.
  destruct (Hm st) as (evs & Ht & Hn).
  destruct (m st) as [[a | e] st1]; cbn [snd] in *.
  - destruct (Hf a st1) as (evs' & Ht' & Hk).
    exists (evs ++ evs')%list. rewrite Ht', Ht, app_assoc, listings_app.
    split; [reflexivity | lia].
  - exists evs. split; [exact Ht | lia].
Qed.

Lemma addsAtMost_weaken {A} (n k : nat) (m : M A) :
  (n <= k)%nat -> addsAtMost n m -> addsAtMost k m.
Proof.
  intros Hle Hm st. destruct (Hm st) as (evs & Ht & Hn).
  exists evs. split; [exact Ht | lia].
Qed.

Lemma addsAtMost_callListBucket (b after : string) (max : Z) :
  addsAtMost 1 (callListBucket b after max).
Proof.
  intros st. unfold callListBucket.
  destruct (ListBucket (world st) (client st) b after max) as [r w'].
  eexists. split; [reflexivity | cbn; lia].
Qed.

Lemma addsAtMost_callBucketLocation (b : string) :
  addsAtMost 0 (callBucketLocation b).
Proof.
  intros st. unfold callBucketLocation.
  destruct (BucketLocation (world st) (client st) b) as [r w'].
  eexists. split; [reflexivity | cbn; lia].
Qed.

Lemma addsAtMost_setHostname (h : string) : addsAtMost 0 (setHostname h).
Proof. intros st. exists []. cbn. now rewrite app_nil_r. Qed.

Lemma addsAtMost_logPrintf (format : string) (args : list fmtArg) :
  addsAtMost 0 (logPrintf format args).
Proof. intros st. eexists. split; [reflexivity | cbn; lia]. Qed.

Lemma addsAtMost_getClient : addsAtMost 0 getClient.
Proof. intros st. exists []. cbn. now rewrite app_nil_r. Qed.

Lemma addsAtMost_retryListing (b hostname : string) :
  addsAtMost 1 (retryListing b hostname).
Proof.
  unfold retryListing.
  apply (addsAtMost_bind 1 0); [apply addsAtMost_callListBucket |].
  intros [e |]; [apply addsAtMost_ret |].
  apply (addsAtMost_bind 0 0); [apply addsAtMost_getClient |]. intros c.
  apply (addsAtMost_bind 0 0); [apply addsAtMost_logPrintf |]. intros _.
  apply addsAtMost_ret.
Qed.

(** The redirect blocks retry at most once per signal. *)
Lemma addsAtMost_redirectBlocks (serr : s3Error) (err : option callError)
    (b hostname : string) :
  addsAtMost (signals serr) (redirectBlocks serr err b hostname).
Proof.
  unfold redirectBlocks, signals, regionRedirect, endpointRedirect.
  apply addsAtMost_bind.
  - destruct (AmazonCode serr =? "PermanentRedirect"); [| apply addsAtMost_ret].
    apply (addsAtMost_bind 0 1); [apply addsAtMost_callBucketLocation |].
    intros [loc | lerr].
    + apply (addsAtMost_bind 0 1); [apply addsAtMost_setHostname |].
      intros _. apply addsAtMost_retryListing.
    + apply (addsAtMost_weaken 0 1); [lia | apply addsAtMost_fail].
  - intros err'. destruct (negb (UseEndpoint serr =? "")); [| apply addsAtMost_ret].
    apply (addsAtMost_bind 0 1); [apply addsAtMost_setHostname |].
    intros _. apply addsAtMost_retryListing.
Qed.

Lemma addsAtMost_listingError (b : string) (err : option callError) :
  addsAtMost 0 (listingError b err).
Proof. destruct err; [apply addsAtMost_fail | apply addsAtMost_ret]. Qed.

Lemma addsAtMost_wrapCache (cacheSize : Z) (b d h : string) :
  addsAtMost 0 (wrapCache cacheSize b d h).
Proof.
  unfold wrapCache.
  apply (addsAtMost_bind 0 0); [apply addsAtMost_getClient |]. intros c.
  destruct (negb (cacheSize =? 0)%Z); apply addsAtMost_ret.
Qed.

Lemma addsAtMost_hclStartupCheck (diags : Diagnostics)
    (b accessKeyID hostname : string) (bucketRange accessKeyRange : Range) :
  addsAtMost 3
    (hclStartupCheck diags b accessKeyID hostname bucketRange accessKeyRange).
Proof.
  unfold hclStartupCheck.
  apply (addsAtMost_bind 1 2); [apply addsAtMost_callListBucket |].
  intros err. apply (addsAtMost_bind 2 0); [| apply addsAtMost_listingError].
  destruct err as [[serr | msg] |];
    try (apply (addsAtMost_weaken 0 2); [lia | apply addsAtMost_ret]).
  destruct (AmazonCode serr =? "NoSuchBucket");
    [apply (addsAtMost_weaken 0 2); [lia | apply addsAtMost_fail] |].
  destruct (AmazonCode serr =? "InvalidAccessKeyId");
    [apply (addsAtMost_weaken 0 2); [lia | apply addsAtMost_fail] |].
  apply (addsAtMost_weaken (signals serr) 2);
    [| apply addsAtMost_redirectBlocks].
  unfold signals.
  destruct (regionRedirect serr), (endpointRedirect serr); lia.
Qed.

Lemma addsAtMost_jsonStartupCheck (b hostname : string) :
  addsAtMost 3 (jsonStartupCheck b hostname).
Proof.
  unfold jsonStartupCheck.
  apply (addsAtMost_bind 1 2); [apply addsAtMost_callListBucket |].
  intros err. apply (addsAtMost_bind 2 0); [| apply addsAtMost_listingError].
  destruct err as [[serr | msg] |];
    try (apply (addsAtMost_weaken 0 2); [lia | apply addsAtMost_ret]).
  destruct (AmazonCode serr =? "NoSuchBucket");
    [apply (addsAtMost_weaken 0 2); [lia | apply addsAtMost_fail] |].
  apply (addsAtMost_weaken (signals serr) 2);
    [| apply addsAtMost_redirectBlocks].
  unfold signals.
  destruct (regionRedirect serr), (endpointRedirect serr); lia.
Qed.

Lemma run_listings (w : World) (c : Client RoundTripper) (m : M Storage)
    (n : nat) :
  addsAtMost n m -> (listings (calls (run w c m)) <= n)%nat.
Proof.
  intros Hm. unfold run. destruct (Hm (mkState w c [])) as (evs & Ht & Hn).
  destruct (m (mkState w c [])) as [r st]. cbn [snd trace calls] in *.
  now rewrite Ht.
Qed.

(** X1.  Neither constructor loops: whatever the service answers, a construction
    issues at most three listings, the first one and at most one retry for
    each of the two redirect blocks. *)
Lemma at_most_two_retries :
  (forall w config, (retries (calls (NewFromHCLConfig w config)) <= 2)%nat)
  /\ (forall w config transport,
        (retries (calls (newFromConfigWithTransport w config transport)) <= 2)%nat).
Proof.
  unfold retries. split.
  - intros w config.
    destruct (NewFromHCLConfig_cases w config) as [Hd | [diags ->]];
      [| cbn; lia].
    rewrite (NewFromHCLConfig_decoded w config Hd).
    match goal with
    | |- context [run ?w ?c ?m] =>
        assert (Hb : (listings (calls (run w c m)) <= 3)%nat)
    end; [| lia].
    apply run_listings. apply (addsAtMost_bind 3 0).
    + destruct (negb (hclSkipStartupCheck config));
        [apply addsAtMost_hclStartupCheck |].
      apply (addsAtMost_weaken 0 3); [lia | apply addsAtMost_ret].
    + intros _. apply addsAtMost_wrapCache.
  - intros w config transport.
    destruct (Validate config) as [err |] eqn:Hv.
    + unfold newFromConfigWithTransport. rewrite Hv.
      destruct (splitBucket (RequiredString (json_bucket config))). cbn. lia.
    + rewrite (newFromConfigWithTransport_valid w config transport Hv).
      match goal with
      | |- context [run ?w ?c ?m] =>
          assert (Hb : (listings (calls (run w c m)) <= 3)%nat)
      end; [| lia].
      apply run_listings. apply (addsAtMost_bind 3 0).
      * destruct (negb (jsonSkipStartupCheck config));
          [apply addsAtMost_jsonStartupCheck |].
        apply (addsAtMost_weaken 0 3); [lia | apply addsAtMost_ret].
      * intros _. apply addsAtMost_wrapCache.
Qed.

End RetryBound.

Section StartupClaims.

Context `{S3.Service}.

Import S3 Strings.

Local Open Scope string_scope.

Lemma retriedOnce_intro (res : result) (c c' : Client RoundTripper)
    (cacheSize : Z) (b d h : string) (r : option callError) (w' : World)
    (between : list event) :
  filter isListing between = [] ->
  filter isWarning between = [] ->
  res = mkResult (afterListing cacheSize c' b d h r) w'
          (EvListBucket c b "" 1 :: between ++ retryEvents c' b h r) ->
  retriedOnce res c c' cacheSize b d h r.
Proof.
  intros Hl Hw ->. unfold retriedOnce, retries, listings, warnings.
  cbn [calls returned filter isListing isWarning].
  rewrite !filter_app, Hl, Hw. cbn [app].
  destruct r; cbn; repeat split.
Qed.

(** X6.  [newFromConfigWithTransport] on an S3 error other than a missing
    bucket, by the redirect signals the error carries: with none the
    construction fails with the listing error and nothing is retried; a
    region redirect whose location query fails ends the construction there;
    a single signal makes one rebinding and exactly one retry, whose
    outcome decides. *)
Lemma newFromConfigWithTransport_redirects (w : World) (config : jsonObj)
    (transport : option RoundTripper) (serr : s3Error) (w1 : World) :
  Validate config = None ->
  jsonSkipStartupCheck config = false ->
  let c := jsonClient config transport in
  let b := jsonBucket config in
  let d := jsonDirPrefix config in
  let h := jsonHostname config in
  ListBucket w c b "" 1 = (Some (S3Err serr), w1) ->
  jsonFatal serr = false ->
  let res := newFromConfigWithTransport w config transport in
  (regionRedirect serr = false -> endpointRedirect serr = false ->
   res = mkResult (inr (listingFailed b (S3Err serr))) w1 [EvListBucket c b "" 1])
  /\ (regionRedirect serr = true ->
      forall lerr w2,
        BucketLocation w1 c b = (inr lerr, w2) ->
        res = mkResult (inr (locationFailed b lerr)) w2
                [EvListBucket c b "" 1; EvBucketLocation c b])
  /\ (regionRedirect serr = true -> endpointRedirect serr = false ->
      forall loc w2 r w3,
        BucketLocation w1 c b = (inl loc, w2) ->
        ListBucket w2 (rebind c loc) b "" 1 = (r, w3) ->
        retriedOnce res c (rebind c loc) (jsonCacheSize config) b d h r)
  /\ (regionRedirect serr = false -> endpointRedirect serr = true ->
      forall r w2,
        let c' := rebind c (TrimPrefix (UseEndpoint serr) (b ++ ".")) in
        ListBucket w1 c' b "" 1 = (r, w2) ->
        retriedOnce res c c' (jsonCacheSize config) b d h r).
Proof.
  intros Hv Hs c b d h Hl Hf res. subst res.
  rewrite (newFromConfigWithTransport_checked w config transport Hv Hs).
  pose proof (jsonStartupCheck_redirects b h (mkState w c []) serr w1 Hl Hf)
    as Hcheck.
  destruct (run_redirects _ w w1 c (jsonCacheSize config) b d h serr Hcheck)
    as (Hnone & Hfail & Hregion & Hend).
  split; [| split; [| split]].
  - exact Hnone.
  - exact Hfail.
  - intros Hr He loc w2 r w3 Hloc Hl2.
    apply (retriedOnce_intro _ c (rebind c loc) _ b d h r w3 [EvBucketLocation c b]);
      [reflexivity | reflexivity |].
    exact (Hregion Hr He loc w2 r w3 Hloc Hl2).
  - intros Hr He r w2 c' Hl2.
    apply (retriedOnce_intro _ c c' _ b d h r w2 []);
      [reflexivity | reflexivity |].
    exact (Hend Hr He r w2 Hl2).
Qed.

(** C1 (amended).  [NewFromHCLConfig] with the startup check enabled, by what
    the first one-item listing says.  Without an S3 error, and for an S3
    error that carries no redirect signal, nothing is retried.  For a region
    redirect (code PermanentRedirect) the bucket's location is queried; when
    that query fails the construction fails at once, the hostname unchanged
    and nothing retried.  When the error carries exactly one redirect
    signal (a region redirect whose location query succeeds, or a suggested
    endpoint) the client's hostname is rebound (to the location, or to the
    endpoint with the leading bucket+"." stripped) and the listing is retried
    exactly once with the rebound client: a successful retry returns the
    storage and logs the one warning, a failing retry's error is returned
    inside the listing error. *)
Theorem C1_one_retry_for_a_single_redirect_signal
    (w : World) (config : StorageConfig) (r0 : option callError) (w1 : World) :
  hclDecodes config ->
  hclSkipStartupCheck config = false ->
  let c := hclClient config in
  let b := hclBucket config in
  let d := hclDirPrefix config in
  let h := hclHostname config in
  let cs := hclCacheSize config in
  ListBucket w c b "" 1 = (r0, w1) ->
  let res := NewFromHCLConfig w config in
  ((forall serr, r0 <> Some (S3Err serr)) ->
   res = mkResult (afterListing cs c b d h r0) w1 [EvListBucket c b "" 1])
  /\ (forall serr,
        r0 = Some (S3Err serr) ->
        hclFatal serr = false ->
        (regionRedirect serr = false -> endpointRedirect serr = false ->
         res = mkResult (inr (listingFailed b (S3Err serr))) w1
                 [EvListBucket c b "" 1])
        /\ (regionRedirect serr = true ->
            forall lerr w2,
              BucketLocation w1 c b = (inr lerr, w2) ->
              res = mkResult (inr (locationFailed b lerr)) w2
                      [EvListBucket c b "" 1; EvBucketLocation c b])
        /\ (regionRedirect serr = true -> endpointRedirect serr = false ->
            forall loc w2 r w3,
              BucketLocation w1 c b = (inl loc, w2) ->
              ListBucket w2 (rebind c loc) b "" 1 = (r, w3) ->
              retriedOnce res c (rebind c loc) cs b d h r)
        /\ (regionRedirect serr = false -> endpointRedirect serr = true ->
            forall r w2,
              let c' := rebind c (TrimPrefix (UseEndpoint serr) (b ++ ".")) in
              ListBucket w1 c' b "" 1 = (r, w2) ->
              retriedOnce res c c' cs b d h r)).
Proof.
  intros Hd Hs c b d h cs Hl res. subst res.
  rewrite (NewFromHCLConfig_checked w config Hd Hs).
  fold c b d h cs. split.
  - intros Hno. rewrite run_wrapCache.
    unfold hclStartupCheck. unfold bind at 1.
    rewrite (callListBucket_eval b "" 1 (mkState w c []) r0 w1 Hl).
    cbv beta iota. destruct r0 as [[serr | msg] |].
    + now destruct (Hno serr).
    + reflexivity.
    + reflexivity.
  - intros serr -> Hf.
    pose proof (hclStartupCheck_redirects (hclDiags config) b
                  (hclAccessKeyID config) h
                  (exprRange (raw_Bucket (hclRaw config)))
                  (exprRange (raw_AccessKeyID (hclRaw config)))
                  (mkState w c []) serr w1 Hl Hf) as Hcheck.
    destruct (run_redirects _ w w1 c cs b d h serr Hcheck)
      as (Hnone & Hfail & Hregion & Hend).
    split; [| split; [| split]].
    + exact Hnone.
    + exact Hfail.
    + intros Hr He loc w2 r w3 Hloc Hl2.
      apply (retriedOnce_intro _ c (rebind c loc) _ b d h r w3
               [EvBucketLocation c b]); [reflexivity | reflexivity |].
      exact (Hregion Hr He loc w2 r w3 Hloc Hl2).
    + intros Hr He r w2 c' Hl2.
      apply (retriedOnce_intro _ c c' _ b d h r w2 []);
        [reflexivity | reflexivity |].
      exact (Hend Hr He r w2 Hl2).
Qed.

End StartupClaims.

(** ** The cache around the backend *)

Section CacheFacts.

Context `{S3.Service}.

Import S3.

Local Open Scope string_scope.

(** Where four times the cache size fits an int64, the storage returned for
    a non-zero cache size is the backend behind a memory cache of that size
    behind a proxy cache of four times that size; for a zero cache size it
    is the bare backend.  The default cache size is 32 MiB. *)
Lemma wrapped_in_range (cacheSize : Z) (sto : s3Storage) :
  - 2 ^ 61 <= cacheSize < 2 ^ 61 ->
  wrapped cacheSize sto
  = if (cacheSize =? 0)%Z then S3Storage sto
    else ProxyCache (4 * cacheSize) (MemoryCache cacheSize) (S3Storage sto).
Proof.
  intros Hr. unfold wrapped. rewrite (Int64Facts.shl_2_small cacheSize Hr).
  now destruct (cacheSize =? 0)%Z.
Qed.

Lemma default_cache_size (config : StorageConfig) (j : jsonObj) :
  (raw_CacheSize (hclRaw config) = None -> hclCacheSize config = 32 * 2 ^ 20)
  /\ (json_cacheSize j = None -> jsonCacheSize j = 32 * 2 ^ 20).
Proof.
  unfold hclCacheSize, jsonCacheSize. split; intros ->; reflexivity.
Qed.

(** X7.  For a cache size whose fourfold fits an int64, a successful
    construction returns the bare backend when the size is zero and
    otherwise the backend behind a memory cache of that size behind a proxy
    cache of exactly four times that size. *)
Lemma construction_wraps_in_range :
  (forall w config s,
      returned (NewFromHCLConfig w config) = inl s ->
      - 2 ^ 61 <= hclCacheSize config < 2 ^ 61 ->
      exists sto,
        s = if (hclCacheSize config =? 0)%Z then S3Storage sto
            else ProxyCache (4 * hclCacheSize config)
                            (MemoryCache (hclCacheSize config)) (S3Storage sto))
  /\ (forall w config transport s,
        returned (newFromConfigWithTransport w config transport) = inl s ->
        - 2 ^ 61 <= jsonCacheSize config < 2 ^ 61 ->
        exists sto,
          s = if (jsonCacheSize config =? 0)%Z then S3Storage sto
              else ProxyCache (4 * jsonCacheSize config)
                              (MemoryCache (jsonCacheSize config)) (S3Storage sto)).
Proof.
  split.
  - intros w config s Hs Hr.
    destruct (NewFromHCLConfig_returns w config s Hs) as [c ->].
    eexists. now apply wrapped_in_range.
  - intros w config transport s Hs Hr.
    destruct (newFromConfigWithTransport_returns w config transport s Hs)
      as [c ->].
    eexists. now apply wrapped_in_range.
Qed.

(** C7, at a cache size of 2^61 with the startup check skipped: both
    constructors return the backend behind a memory cache of 2^61 bytes
    behind a proxy cache whose capacity is [2^61 << 2] in int64, which is
    -2^63 and not four times 2^61. *)
Theorem C7_outer_capacity_overflows_at_2_61
    (w : World) (transport : option RoundTripper) :
  returned (newFromConfigWithTransport w
              (Fixtures.jsonBlock "mybucket" (Some (2 ^ 61)) (Some true))
              transport)
  = inl (ProxyCache (- 2 ^ 63) (MemoryCache (2 ^ 61))
           (S3Storage
              (mks3Storage
                 (mkClient (mkAuth "AKIAEXAMPLE" "secret" "s3.amazonaws.com")
                           5 transport)
                 "mybucket" "" "s3.amazonaws.com")))
  /\ returned (NewFromHCLConfig w
                 (Fixtures.hclBlock "mybucket" (Some (2 ^ 61)) (Some true)))
     = inl (ProxyCache (- 2 ^ 63) (MemoryCache (2 ^ 61))
              (S3Storage
                 (mks3Storage
                    (mkClient (mkAuth "AKIAEXAMPLE" "secret" "s3.amazonaws.com")
                              5 None)
                    "mybucket" "" "s3.amazonaws.com")))
  /\ - 2 ^ 63 <> 4 * 2 ^ 61.
Proof.
  split; [reflexivity |]. split; [reflexivity |]. discriminate.
Qed.

End CacheFacts.

(** ** The constructors at concrete services *)

Section ConstructorRuns.

Import S3 Strings Fixtures.

Local Open Scope string_scope.

Lemma C1_witness :
  @hclDecodes brads
  /\ hclSkipStartupCheck brads = false
  /\ retries (calls (@NewFromHCLConfig regionOnly tt brads)) = 1%nat
  /\ exists sto,
      returned (@NewFromHCLConfig regionOnly tt brads)
      = inl (@wrapped regionOnly (32 * 2 ^ 20) sto)
      /\ Hostname (ClientAuth (s3Client sto)) = regional.
Proof.
  assert (Hd : @hclDecodes brads) by (repeat split).
  assert (Hs : hclSkipStartupCheck brads = false) by reflexivity.
  split; [exact Hd |]. split; [exact Hs |].
  pose proof (@C1_one_retry_for_a_single_redirect_signal regionOnly tt brads
                (Some (S3Err (mkS3Error "PermanentRedirect" ""))) tt
                Hd Hs eq_refl) as Hthm.
  destruct Hthm as [_ Hsig].
  destruct (Hsig (mkS3Error "PermanentRedirect" "") eq_refl eq_refl)
    as (_ & _ & Hregion & _).
  destruct (Hregion eq_refl eq_refl regional tt None tt eq_refl eq_refl)
    as (_ & Hone & Hret & _).
  split; [exact Hone |].
  eexists. split; [exact Hret | reflexivity].
Defined.

(** C1 as stated fails at two inputs.  Where the first error carries both
    signals, as the answer S3 gives for a bucket of another region does, the
    listing is retried after the location query and again after the
    rebinding to the suggested endpoint: two retries and two warnings in one
    construction.  Where the error is a region redirect and the location
    query fails, nothing is rebound and nothing retried: the one listing,
    made with the configured hostname, is followed by the error. *)
Lemma C1_counterexample :
  (let res := @NewFromHCLConfig bothSignals tt brads in
   filter isListing (calls res)
   = [EvListBucket (@hclClient bothSignals brads) "brads3test-ca" "" 1;
      EvListBucket (rebind (@hclClient bothSignals brads) regional)
                   "brads3test-ca" "" 1;
      EvListBucket (rebind (@hclClient bothSignals brads) regional)
                   "brads3test-ca" "" 1]
   /\ retries (calls res) = 2%nat
   /\ warnings (calls res) = 2%nat
   /\ exists s, returned res = inl s)
  /\ (let res := @NewFromHCLConfig locationUnknown tt brads in
      calls res
      = [EvListBucket (@hclClient locationUnknown brads) "brads3test-ca" "" 1;
         EvBucketLocation (@hclClient locationUnknown brads) "brads3test-ca"]
      /\ Hostname (ClientAuth (@hclClient locationUnknown brads))
         = "s3.amazonaws.com"
      /\ retries (calls res) = 0%nat
      /\ returned res
         = inr (locationFailed "brads3test-ca" (OtherErr "timeout"))).
Proof.
  cbv zeta. split.
  - split; [reflexivity |]. split; [reflexivity |].
    split; [reflexivity |]. eexists. reflexivity.
  - repeat split.
Qed.

(** C2, at a refused access key.  [newFromConfigWithTransport] fails with
    the same listing error it has for any failure, and when the error also
    suggests an endpoint it retries there and returns a storage;
    [NewFromHCLConfig], asked the same, answers with the diagnostic on the
    access key argument. *)
Theorem C2_json_constructor_has_no_case_for_refused_key :
  returned (@newFromConfigWithTransport keyRefused tt bradsJson None)
  = inr (listingFailed "brads3test-ca"
           (S3Err (mkS3Error "InvalidAccessKeyId" "")))
  /\ (exists s,
        returned (@newFromConfigWithTransport keyRefusedWithEndpoint tt
                    bradsJson None) = inl s)
  /\ returned (@NewFromHCLConfig keyRefused tt brads)
     = inr (DiagnosticsError
              [mkDiagnostic DiagError "Invalid AWS Access Key ID"
                 (Sprintf "The given access key id %q was refused by the S3 API."
                          [ArgString "AKIAEXAMPLE"])
                 (Some accessKeyRange)])
  /\ returned (@NewFromHCLConfig keyRefusedWithEndpoint tt brads)
     = inr (DiagnosticsError
              [mkDiagnostic DiagError "Invalid AWS Access Key ID"
                 (Sprintf "The given access key id %q was refused by the S3 API."
                          [ArgString "AKIAEXAMPLE"])
                 (Some accessKeyRange)]).
Proof.
  split; [reflexivity |]. split; [eexists; reflexivity |].
  split; reflexivity.
Qed.



End ConstructorRuns.

(** * Further properties *)

(** ** The sniffer beyond the first classification *)

Section SnifferMore.

Context `{Index.Imports}.

Import Index.

Lemma Parse_returns (sn : BlobSniffer) :
  exists sn',
    Parse sn = Returns sn'
    /\ br sn' = br sn
    /\ contents sn' = contents sn
    /\ written sn' = written sn
    /\ (meta sn <> None -> meta sn' <> None).
Proof.
  unfold Parse, bufferIsCamliJSON.
  destruct (LikelySchemaBlob (contents sn)); cbn.
  - destruct (BlobFromReader (br sn) (contents sn)) as [blob | e]; cbn;
      eexists; repeat split; trivial; cbn; discriminate.
  - eexists. repeat split; trivial.
Qed.

(** X11.  [Parse] always returns, and a second [Parse] right after changes
    nothing: it gives the sniffer the first one gave.  [Parse] leaves the
    ref, the buffer and the counter alone, so [Size], [IsTruncated] and
    [Body] answer after it what they answered before. *)
Theorem Parse_idempotent (sn : BlobSniffer) :
  exists sn',
    Parse sn = Returns sn'
    /\ Parse sn' = Returns sn'
    /\ Size sn' = Size sn
    /\ IsTruncated sn' = IsTruncated sn
    /\ Body sn' = Body sn.
Proof.
  unfold Parse, bufferIsCamliJSON, Body, IsTruncated, Size.
  destruct (LikelySchemaBlob (contents sn)) eqn:Hl; cbn.
  - destruct (BlobFromReader (br sn) (contents sn)) as [blob | e] eqn:Hb; cbn.
    + eexists. split; [reflexivity |]. cbn. rewrite Hl. cbn. rewrite Hb. cbn.
      repeat split.
    + eexists. split; [reflexivity |]. cbn. rewrite Hl. cbn. rewrite Hb. cbn.
      repeat split.
  - eexists. split; [reflexivity |]. cbn. rewrite Hl. cbn. repeat split.
Qed.

(** X12.  A sniffer made by [NewBlobSniffer] and written to is unclassified,
    whatever was written: no schema blob, empty content type, empty tag.
    After [Parse], [SchemaBlob] reports a document exactly when the buffered
    prefix passes [LikelySchemaBlob] and decodes, and the document it
    reports is the decoded one; otherwise the tag stays empty. *)
Theorem SchemaBlob_iff_decoded (ref : Ref) (ds : list (list byte)) :
  Valid ref = true ->
  let buf := firstn (Z.to_nat MaxSchemaBlobSize) (List.concat ds) in
  exists sn sn',
    sniff ref ds = Returns sn
    /\ SchemaBlobOf sn = (None, false)
    /\ MIMEType sn = EmptyString
    /\ CamliType sn = EmptyString
    /\ Parse sn = Returns sn'
    /\ (snd (SchemaBlobOf sn') = true
        <-> LikelySchemaBlob buf = true
            /\ exists blob, BlobFromReader ref buf = inl blob)
    /\ (forall blob,
          LikelySchemaBlob buf = true ->
          BlobFromReader ref buf = inl blob ->
          SchemaBlobOf sn' = (Some blob, true))
    /\ (snd (SchemaBlobOf sn') = false -> CamliType sn' = EmptyString).
Proof.
  intros Hv buf. rewrite (sniff_returns ref ds Hv). fold buf.
  destruct (LikelySchemaBlob buf) eqn:Hl;
    [destruct (BlobFromReader ref buf) as [blob | e] eqn:Hb |];
    do 2 eexists; do 4 (split; [reflexivity |]);
    (split;
     [unfold Parse, bufferIsCamliJSON; cbn [br contents]; rewrite Hl;
      cbn [negb]; rewrite ?Hb; reflexivity |]);
    unfold SchemaBlobOf, CamliType; cbn.
  - split; [split; [intros _; split; [reflexivity | now exists blob]
                   | reflexivity] |].
    split; [intros blob' _ Hb'; now injection Hb' as -> | discriminate].
  - split; [split; [discriminate | intros [_ [blob Hc]]; discriminate] |].
    split; [intros blob _ Hc; discriminate | reflexivity].
  - split; [split; [discriminate | intros [Hc _]; discriminate] |].
    split; [intros blob Hc; discriminate | reflexivity].
Qed.

(** X13.  [Parse] never takes a classification back.  On a sniffer that
    already holds a decoded document, a [Parse] whose checks fail (for
    instance after further writes) sets the content type to what magic
    sniffing gives and leaves the document and the tag of the earlier
    [Parse] in place, so [SchemaBlob] still reports a document. *)
Theorem Parse_keeps_earlier_document (sn : BlobSniffer) (m : SchemaBlob) :
  meta sn = Some m ->
  LikelySchemaBlob (contents sn) = false
  \/ (exists e, BlobFromReader (br sn) (contents sn) = inr e) ->
  exists sn',
    Parse sn = Returns sn'
    /\ SchemaBlobOf sn' = (Some m, true)
    /\ CamliType sn' = CamliType sn
    /\ MIMEType sn' = magic_MIMEType (contents sn).
Proof.
  intros Hm Hfail. unfold Parse, bufferIsCamliJSON, SchemaBlobOf.
  destruct Hfail as [Hl | [e Hb]].
  - rewrite Hl. cbn. rewrite Hm. eexists. repeat split.
  - rewrite Hb. destruct (LikelySchemaBlob (contents sn)); cbn; rewrite Hm;
      eexists; repeat split.
Qed.

(** X14.  Writes only ever append to the buffer and never touch the
    classification: after any sequence of writes on a sniffer with a valid
    ref (its counter being an int64 value), the old buffer is a prefix of the new one, what was added is a
    prefix of the bytes written, a buffer that had reached the cap is
    unchanged, a buffer within the cap stays within it, and the document,
    content type and tag are as before. *)
Theorem WriteAll_extends_buffer (sn : BlobSniffer) (ds : list (list byte)) :
  Valid (br sn) = true ->
  Int64.in_range (written sn) ->
  exists sn' n,
    WriteAll sn ds = Returns sn'
    /\ contents sn' = contents sn ++ firstn n (List.concat ds)
    /\ (MaxSchemaBlobSize <= len (contents sn) -> contents sn' = contents sn)
    /\ (len (contents sn) <= MaxSchemaBlobSize ->
        len (contents sn') <= MaxSchemaBlobSize)
    /\ meta sn' = meta sn
    /\ MIMEType sn' = MIMEType sn
    /\ CamliType sn' = CamliType sn
    /\ br sn' = br sn.
Proof.
  intros Hv Hw. rewrite (WriteAll_returns ds sn Hv Hw).
  do 2 eexists. split; [reflexivity |].
  cbn [br contents written meta mimeType camliType MIMEType CamliType].
  unfold MIMEType, CamliType. cbn [mimeType camliType].
  split; [reflexivity |]. split; [| split; [| repeat split]].
  - intros Hfull.
    replace (Z.to_nat (MaxSchemaBlobSize - len (contents sn))) with O by lia.
    cbn. apply app_nil_r.
  - intros Hin. rewrite len_app. unfold len at 2. rewrite length_firstn.
    pose proof (len_nonneg (contents sn)). lia.
Qed.

End SnifferMore.

(** ** The constructors beyond the startup check *)

Section ConstructorMore.

Context `{S3.Service}.

Import S3 Strings.

Local Open Scope string_scope.


(** X2.  With the startup check skipped, a constructor whose configuration
    reads well makes no call and writes no log line: it returns the backend
    with the configured client, wrapped by the cache size, and leaves the
    world as it found it. *)
Theorem skipped_check_makes_no_call :
  (forall w config,
      hclDecodes config ->
      hclSkipStartupCheck config = true ->
      NewFromHCLConfig w config
      = mkResult
          (inl (wrapped (hclCacheSize config)
                  (mks3Storage (hclClient config) (hclBucket config)
                               (hclDirPrefix config) (hclHostname config))))
          w [])
  /\ (forall w config transport,
        Validate config = None ->
        jsonSkipStartupCheck config = true ->
        newFromConfigWithTransport w config transport
        = mkResult
            (inl (wrapped (jsonCacheSize config)
                    (mks3Storage (jsonClient config transport) (jsonBucket config)
                                 (jsonDirPrefix config) (jsonHostname config))))
            w []).
Proof.
  split.
  - intros w config Hd Hs.
    rewrite (NewFromHCLConfig_decoded w config Hd), Hs, run_wrapCache.
    reflexivity.
  - intros w config transport Hv Hs.
    rewrite (newFromConfigWithTransport_valid w config transport Hv), Hs,
      run_wrapCache.
    reflexivity.
Qed.


(** *** The client through the startup check *)

Lemma sameButHostname_refl (c : Client RoundTripper) : sameButHostname c c.
Proof. repeat split. Qed.

Lemma sameButHostname_trans (c1 c2 c3 : Client RoundTripper) :
  sameButHostname c1 c2 -> sameButHostname c2 c3 -> sameButHostname c1 c3.
Proof.
  unfold sameButHostname. intros (A1 & B1 & C1 & D1) (A2 & B2 & C2 & D2).
  repeat split; congruence.
Qed.

Lemma keepsClient_ret {A} (a : A) : keepsClient (ret a).
Proof. intros st. apply sameButHostname_refl. Qed.

Lemma keepsClient_fail {A} (e : error) : keepsClient (@fail _ A e).
Proof. intros st. apply sameButHostname_refl. Qed.

Lemma keepsClient_bind {A B} (m : M A) (f : A -> M B) :
  keepsClient m -> (forall a, keepsClient (f a)) -> keepsClient (bind m f).
Proof.
  intros Hm Hf st. unfold bind. specialize (Hm st).
  destruct (m st) as [[a | e] st1]; cbn [snd] in *; [| exact Hm].
  exact (sameButHostname_trans _ _ _ Hm (Hf a st1)).
Qed.

Lemma keepsClient_callListBucket (b after : string) (max : Z) :
  keepsClient (callListBucket b after max).
Proof.
  intros st. unfold callListBucket.
  destruct (ListBucket (world st) (client st) b after max).
  apply sameButHostname_refl.
Qed.

Lemma keepsClient_callBucketLocation (b : string) :
  keepsClient (callBucketLocation b).
Proof.
  intros st. unfold callBucketLocation.
  destruct (BucketLocation (world st) (client st) b).
  apply sameButHostname_refl.
Qed.

Lemma keepsClient_setHostname (h : string) : keepsClient (setHostname h).
Proof. intros st. repeat split. Qed.

Lemma keepsClient_logPrintf (format : string) (args : list fmtArg) :
  keepsClient (logPrintf format args).
Proof. intros st. apply sameButHostname_refl. Qed.

Lemma keepsClient_getClient : keepsClient getClient.
Proof. intros st. apply sameButHostname_refl. Qed.

Lemma keepsClient_retryListing (b hostname : string) :
  keepsClient (retryListing b hostname).
Proof.
  unfold retryListing.
  apply keepsClient_bind; [apply keepsClient_callListBucket |].
  intros [e |]; [apply keepsClient_ret |].
  apply keepsClient_bind; [apply keepsClient_getClient |]. intros c.
  apply keepsClient_bind; [apply keepsClient_logPrintf |]. intros _.
  apply keepsClient_ret.
Qed.

Lemma keepsClient_redirectBlocks (serr : s3Error) (err : option callError)
    (b hostname : string) :
  keepsClient (redirectBlocks serr err b hostname).
Proof.
  unfold redirectBlocks. apply keepsClient_bind.
  - destruct (AmazonCode serr =? "PermanentRedirect"); [| apply keepsClient_ret].
    apply keepsClient_bind; [apply keepsClient_callBucketLocation |].
    intros [loc | lerr]; [| apply keepsClient_fail].
    apply keepsClient_bind; [apply keepsClient_setHostname |].
    intros _. apply keepsClient_retryListing.
  - intros err'. destruct (negb (UseEndpoint serr =? "")); [| apply keepsClient_ret].
    apply keepsClient_bind; [apply keepsClient_setHostname |].
    intros _. apply keepsClient_retryListing.
Qed.

Lemma keepsClient_listingError (b : string) (err : option callError) :
  keepsClient (listingError b err).
Proof. destruct err; [apply keepsClient_fail | apply keepsClient_ret]. Qed.

Lemma keepsClient_hclStartupCheck (diags : Diagnostics)
    (b accessKeyID hostname : string) (bucketRange accessKeyRange : Range) :
  keepsClient
    (hclStartupCheck diags b accessKeyID hostname bucketRange accessKeyRange).
Proof.
  unfold hclStartupCheck.
  apply keepsClient_bind; [apply keepsClient_callListBucket |].
  intros err. apply keepsClient_bind; [| apply keepsClient_listingError].
  destruct err as [[serr | msg] |]; try apply keepsClient_ret.
  destruct (AmazonCode serr =? "NoSuchBucket"); [apply keepsClient_fail |].
  destruct (AmazonCode serr =? "InvalidAccessKeyId"); [apply keepsClient_fail |].
  apply keepsClient_redirectBlocks.
Qed.

Lemma keepsClient_jsonStartupCheck (b hostname : string) :
  keepsClient (jsonStartupCheck b hostname).
Proof.
  unfold jsonStartupCheck.
  apply keepsClient_bind; [apply keepsClient_callListBucket |].
  intros err. apply keepsClient_bind; [| apply keepsClient_listingError].
  destruct err as [[serr | msg] |]; try apply keepsClient_ret.
  destruct (AmazonCode serr =? "NoSuchBucket"); [apply keepsClient_fail |].
  apply keepsClient_redirectBlocks.
Qed.

Lemma run_keepsClient (w : World) (c : Client RoundTripper) (m : M unit)
    (cacheSize : Z) (b d h : string) (s : Storage) :
  keepsClient m ->
  returned (run w c (m ;;; wrapCache cacheSize b d h)) = inl s ->
  exists c',
    s = wrapped cacheSize (mks3Storage c' b d h) /\ sameButHostname c c'.
Proof.
  intros Hk. rewrite run_wrapCache. specialize (Hk (mkState w c [])).
  destruct (m (mkState w c [])) as [[[] | e] st]; cbn [snd returned client] in *;
    intros Hr; [| discriminate].
  injection Hr as <-. now exists (client st).
Qed.

(** X8.  Whatever the service answers, the self-correction changes nothing
    but the client's hostname: in every storage a constructor returns, the
    backend's [hostname] field is the configured hostname (the default when
    none is given), and its client has the configured access key and secret,
    a put gate of 5 and the transport the constructor was given (none for
    [NewFromHCLConfig]). *)
Theorem rebinding_changes_only_the_client_hostname :
  (forall w config s,
      returned (NewFromHCLConfig w config) = inl s ->
      exists sto,
        backend s = Some sto
        /\ hostname sto = hclHostname config
        /\ AccessKey (ClientAuth (s3Client sto)) = hclAccessKeyID config
        /\ SecretAccessKey (ClientAuth (s3Client sto))
           = raw_SecretAccessKey (hclRaw config)
        /\ PutGate (s3Client sto) = 5
        /\ Transport (s3Client sto) = None)
  /\ (forall w config transport s,
        returned (newFromConfigWithTransport w config transport) = inl s ->
        exists sto,
          backend s = Some sto
          /\ hostname sto = jsonHostname config
          /\ AccessKey (ClientAuth (s3Client sto))
             = RequiredString (json_aws_access_key config)
          /\ SecretAccessKey (ClientAuth (s3Client sto))
             = RequiredString (json_aws_secret_access_key config)
          /\ PutGate (s3Client sto) = 5
          /\ Transport (s3Client sto) = transport).
Proof.
  split.
  - intros w config s.
    destruct (NewFromHCLConfig_cases w config) as [Hd | [diags ->]];
      [| discriminate].
    rewrite (NewFromHCLConfig_decoded w config Hd). intros Hs.
    apply run_keepsClient in Hs.
    + destruct Hs as (c' & -> & Ha & Hb & Hc & Ht).
      eexists. split; [apply backend_wrapped |].
      cbn [hostname s3Client]. rewrite Ha, Hb, Hc, Ht. repeat split.
    + destruct (negb (hclSkipStartupCheck config));
        [apply keepsClient_hclStartupCheck | apply keepsClient_ret].
  - intros w config transport s.
    destruct (Validate config) as [err |] eqn:Hv.
    { unfold newFromConfigWithTransport. rewrite Hv.
      destruct (splitBucket (RequiredString (json_bucket config))). discriminate. }
    rewrite (newFromConfigWithTransport_valid w config transport Hv). intros Hs.
    apply run_keepsClient in Hs.
    + destruct Hs as (c' & -> & Ha & Hb & Hc & Ht).
      eexists. split; [apply backend_wrapped |].
      cbn [hostname s3Client]. rewrite Ha, Hb, Hc, Ht. repeat split.
    + destruct (negb (jsonSkipStartupCheck config));
        [apply keepsClient_jsonStartupCheck | apply keepsClient_ret].
Qed.

Lemma append_assoc (a b c : string) : (a ++ b) ++ c = a ++ b ++ c.
Proof. induction a as [| x a IH]; cbn; [reflexivity | now rewrite IH]. Qed.

Lemma HasPrefix_app (p s : string) : HasPrefix (p ++ s) p = true.
Proof.
  induction p as [| c p IH]; cbn; [reflexivity |].
  now rewrite Ascii.eqb_refl, IH.
Qed.

Lemma TrimPrefix_app (p s : string) : TrimPrefix (p ++ s) p = s.
Proof.
  unfold TrimPrefix. rewrite HasPrefix_app. apply StringsFacts.drop_length_app.
Qed.

(** X9.  What the client is rebound to for a suggested endpoint, in
    [NewFromHCLConfig]: an endpoint of the form bucket+"."+host gives host,
    and an endpoint that does not start with bucket+"." is taken whole.  In
    both cases the listing is retried once with that hostname. *)
Theorem suggested_endpoint_is_trimmed
    (w : World) (config : StorageConfig) (serr : s3Error) (w1 : World) :
  hclDecodes config ->
  hclSkipStartupCheck config = false ->
  let c := hclClient config in
  let b := hclBucket config in
  ListBucket w c b "" 1 = (Some (S3Err serr), w1) ->
  hclFatal serr = false ->
  regionRedirect serr = false ->
  let res := NewFromHCLConfig w config in
  (forall host r w2,
      UseEndpoint serr = b ++ "." ++ host ->
      ListBucket w1 (rebind c host) b "" 1 = (r, w2) ->
      retriedOnce res c (rebind c host) (hclCacheSize config) b
                  (hclDirPrefix config) (hclHostname config) r)
  /\ (forall r w2,
        UseEndpoint serr <> "" ->
        HasPrefix (UseEndpoint serr) (b ++ ".") = false ->
        ListBucket w1 (rebind c (UseEndpoint serr)) b "" 1 = (r, w2) ->
        retriedOnce res c (rebind c (UseEndpoint serr)) (hclCacheSize config) b
                    (hclDirPrefix config) (hclHostname config) r).
Proof.
  intros Hd Hs c b Hl Hf Hr res. subst res.
  rewrite (NewFromHCLConfig_checked w config Hd Hs). fold c b.
  pose proof (hclStartupCheck_redirects (hclDiags config) b
                (hclAccessKeyID config) (hclHostname config)
                (exprRange (raw_Bucket (hclRaw config)))
                (exprRange (raw_AccessKeyID (hclRaw config)))
                (mkState w c []) serr w1 Hl Hf) as Hcheck.
  destruct (run_redirects _ w w1 c (hclCacheSize config) b
              (hclDirPrefix config) (hclHostname config) serr Hcheck)
    as (_ & _ & _ & Hend).
  split.
  - intros host r w2 Hu Hl2.
    assert (He : endpointRedirect serr = true).
    { unfold endpointRedirect. rewrite Hu. now destruct b. }
    specialize (Hend Hr He r w2). cbv zeta in Hend.
    rewrite Hu in Hend.
    rewrite <- append_assoc in Hend.
    rewrite TrimPrefix_app in Hend.
    apply (retriedOnce_intro _ c (rebind c host) _ b _ _ r w2 []);
      [reflexivity | reflexivity |].
    exact (Hend Hl2).
  - intros r w2 Hne Hp Hl2.
    assert (He : endpointRedirect serr = true).
    { unfold endpointRedirect. destruct (String.eqb_spec (UseEndpoint serr) "");
        [contradiction | reflexivity]. }
    specialize (Hend Hr He r w2). cbv zeta in Hend.
    unfold TrimPrefix in Hend. rewrite Hp in Hend.
    apply (retriedOnce_intro _ c (rebind c (UseEndpoint serr)) _ b _ _ r w2 []);
      [reflexivity | reflexivity |].
    exact (Hend Hl2).
Qed.

(** X10.  What [String] says of a storage [NewFromHCLConfig] returned.  The
    host it shows is the configured hostname, also when the startup check
    has rebound the client to another one.  It shows no directory when the
    bucket string has no slash or nothing after its first slash, and
    otherwise shows the remainder after the first slash, ending in a
    slash. *)
Theorem String_of_constructed_storage
    (w : World) (config : StorageConfig) (s : Storage) :
  returned (NewFromHCLConfig w config) = inl s ->
  exists sto,
    backend s = Some sto
    /\ (forall b,
          Contains b "/" = false ->
          hclBucketSpec config = b \/ hclBucketSpec config = b ++ "/" ->
          String_ sto
          = Sprintf (dq ++ "s3" ++ dq ++ " blob storage at host %q, bucket %q")
                    [ArgString (hclHostname config); ArgString b])
    /\ (forall b r,
          Contains b "/" = false ->
          r <> "" ->
          hclBucketSpec config = b ++ "/" ++ r ->
          String_ sto
          = Sprintf (dq ++ "s3" ++ dq
                     ++ " blob storage at host %q, bucket %q, directory %q")
                    [ArgString (hclHostname config); ArgString b;
                     ArgString (if HasSuffix r "/" then r else r ++ "/")]).
Proof.
  intros Hs. destruct (NewFromHCLConfig_returns w config s Hs) as [c ->].
  eexists. split; [apply backend_wrapped |].
  unfold String_, hclBucket, hclDirPrefix. cbn [hostname bucket dirPrefix].
  split.
  - intros b Hb [-> | ->].
    + now rewrite (splitBucket_no_slash b Hb).
    + change (b ++ "/") with (b ++ "/" ++ "").
      now rewrite (splitBucket_first_slash b "" Hb).
  - intros b r Hb Hr ->. rewrite (splitBucket_first_slash b r Hb). cbn [fst snd].
    destruct (String.eqb_spec r "") as [-> | _]; [contradiction |].
    destruct (HasSuffix r "/").
    + destruct (String.eqb_spec r ""); [contradiction | reflexivity].
    + destruct r; reflexivity.
Qed.

End ConstructorMore.

(** ** The further properties at concrete inputs *)

Section MoreWitnesses.

Import Fixtures.

Local Open Scope string_scope.

Lemma SchemaBlob_iff_decoded_witness :
  @Index.Valid smallImports ref0 = true
  /\ exists sn sn',
      @Index.sniff smallImports ref0 [[x7b]; [x7d]] = Returns sn
      /\ Index.SchemaBlobOf sn = (None, false)
      /\ Index.Parse sn = Returns sn'
      /\ Index.SchemaBlobOf sn' = (Some "permanode", true).
Proof.
  assert (Hv : @Index.Valid smallImports ref0 = true) by reflexivity.
  split; [exact Hv |].
  destruct (@SchemaBlob_iff_decoded smallImports ref0 [[x7b]; [x7d]] Hv)
    as (sn & sn' & Hs & Hnone & _ & _ & Hp & _ & Hsome & _).
  exists sn, sn'. repeat split; trivial.
  exact (Hsome "permanode" eq_refl eq_refl).
Defined.

Lemma Parse_keeps_earlier_document_witness :
  Index.meta bracesAndMore = Some "permanode"
  /\ (exists e,
        @Index.BlobFromReader smallImports (Index.br bracesAndMore)
          (Index.contents bracesAndMore) = inr e)
  /\ exists sn',
      Index.Parse bracesAndMore = Returns sn'
      /\ Index.SchemaBlobOf sn' = (Some "permanode", true)
      /\ Index.CamliType sn' = "permanode"
      /\ Index.MIMEType sn' = "".
Proof.
  assert (Hm : Index.meta bracesAndMore = Some "permanode") by reflexivity.
  assert (Hb : exists e,
             @Index.BlobFromReader smallImports (Index.br bracesAndMore)
               (Index.contents bracesAndMore) = inr e)
    by (eexists; reflexivity).
  split; [exact Hm |]. split; [exact Hb |].
  destruct (@Parse_keeps_earlier_document smallImports bracesAndMore
              "permanode" Hm (or_intror Hb))
    as (sn' & Hp & Hs & Hc & Hmime).
  exists sn'. repeat split; trivial.
Defined.

Lemma WriteAll_extends_buffer_witness :
  @Index.Valid smallImports (Index.br braces) = true
  /\ Int64.in_range (Index.written braces)
  /\ exists sn',
      Index.WriteAll braces five = Returns sn'
      /\ Index.contents sn' = [x7b; x7d; x1f; x8b].
Proof.
  assert (Hv : @Index.Valid smallImports (Index.br braces) = true)
    by reflexivity.
  assert (Hw : Int64.in_range (Index.written braces))
    by (split; vm_compute; discriminate).
  split; [exact Hv |]. split; [exact Hw |].
  destruct (@WriteAll_extends_buffer smallImports braces five Hv Hw)
    as (sn' & n & Hs & _).
  exists sn'. split; [exact Hs |].
  vm_compute in Hs. injection Hs as <-. reflexivity.
Defined.

Import S3 Strings.

Lemma skipped_check_makes_no_call_witness :
  @hclDecodes (hclBlock "mybucket/archive" None (Some true))
  /\ calls (@NewFromHCLConfig regionOnly tt
              (hclBlock "mybucket/archive" None (Some true))) = []
  /\ exists s,
      returned (@NewFromHCLConfig regionOnly tt
                  (hclBlock "mybucket/archive" None (Some true))) = inl s.
Proof.
  assert (Hd : @hclDecodes (hclBlock "mybucket/archive" None (Some true)))
    by (repeat split).
  split; [exact Hd |].
  rewrite (proj1 (@skipped_check_makes_no_call regionOnly) tt _ Hd eq_refl).
  split; [reflexivity | eexists; reflexivity].
Defined.


Lemma NewFromHCLConfig_fatal_codes_witness :
  @hclDecodes brads
  /\ hclSkipStartupCheck brads = false
  /\ @NewFromHCLConfig bucketMissing tt brads
     = @mkResult bucketMissing
         (inr (DiagnosticsError
                 [mkDiagnostic DiagError "Invalid S3 bucket"
                    (Sprintf "There is no bucket named %q."
                             [ArgString "brads3test-ca"])
                    (Some bucketRange)]))
         tt [EvListBucket (@hclClient bucketMissing brads) "brads3test-ca" "" 1].
Proof.
  assert (Hd : @hclDecodes brads) by (repeat split).
  assert (Hs : hclSkipStartupCheck brads = false) by reflexivity.
  split; [exact Hd |]. split; [exact Hs |].
  exact (proj1 (@NewFromHCLConfig_fatal_codes bucketMissing tt brads
                  (mkS3Error "NoSuchBucket" "") tt Hd Hs eq_refl) eq_refl).
Defined.

Lemma newFromConfigWithTransport_NoSuchBucket_witness :
  Validate bradsJson = None
  /\ jsonSkipStartupCheck bradsJson = false
  /\ returned (@newFromConfigWithTransport bucketMissing tt bradsJson None)
     = inr (Errorf "bucket %q doesn't exist" [ArgString "brads3test-ca"]).
Proof.
  assert (Hv : Validate bradsJson = None) by reflexivity.
  assert (Hs : jsonSkipStartupCheck bradsJson = false) by reflexivity.
  split; [exact Hv |]. split; [exact Hs |].
  rewrite (@newFromConfigWithTransport_NoSuchBucket bucketMissing tt bradsJson
             None (mkS3Error "NoSuchBucket" "") tt Hv Hs eq_refl eq_refl).
  reflexivity.
Defined.

Lemma newFromConfigWithTransport_redirects_witness :
  Validate bradsJson = None
  /\ jsonSkipStartupCheck bradsJson = false
  /\ retries (calls (@newFromConfigWithTransport regionOnly tt bradsJson None))
     = 1%nat
  /\ warnings (calls (@newFromConfigWithTransport regionOnly tt bradsJson None))
     = 1%nat.
Proof.
  assert (Hv : Validate bradsJson = None) by reflexivity.
  assert (Hs : jsonSkipStartupCheck bradsJson = false) by reflexivity.
  split; [exact Hv |]. split; [exact Hs |].
  destruct (@newFromConfigWithTransport_redirects regionOnly tt bradsJson None
              (mkS3Error "PermanentRedirect" "") tt Hv Hs eq_refl eq_refl)
    as (_ & _ & Hregion & _).
  destruct (Hregion eq_refl eq_refl regional tt None tt eq_refl eq_refl)
    as (_ & Hone & _ & Hw).
  split; [exact Hone |].
  unfold warnings. now rewrite Hw.
Defined.

Lemma rebinding_changes_only_the_client_hostname_witness :
  exists sto,
    backend (@wrapped regionOnly (32 * 2 ^ 20)
               (mks3Storage (rebind (@hclClient regionOnly brads) regional)
                            "brads3test-ca" "" "s3.amazonaws.com"))
    = Some sto
    /\ hostname sto = "s3.amazonaws.com"
    /\ Hostname (ClientAuth (s3Client sto)) = regional
    /\ AccessKey (ClientAuth (s3Client sto)) = "AKIAEXAMPLE"
    /\ PutGate (s3Client sto) = 5.
Proof.
  destruct (proj1 (@rebinding_changes_only_the_client_hostname regionOnly)
              tt brads _ eq_refl)
    as (sto & Hb & Hh & Ha & _ & Hg & _).
  exists sto. split; [exact Hb |]. split; [exact Hh |].
  split; [| split; [exact Ha | exact Hg]].
  cbn in Hb. injection Hb as <-. reflexivity.
Defined.

Lemma suggested_endpoint_is_trimmed_witness :
  @hclDecodes brads
  /\ hclSkipStartupCheck brads = false
  /\ filter isListing (calls (@NewFromHCLConfig endpointOnly tt brads))
     = [EvListBucket (@hclClient endpointOnly brads) "brads3test-ca" "" 1;
        EvListBucket (rebind (@hclClient endpointOnly brads) regional)
                     "brads3test-ca" "" 1].
Proof.
  assert (Hd : @hclDecodes brads) by (repeat split).
  assert (Hs : hclSkipStartupCheck brads = false) by reflexivity.
  split; [exact Hd |]. split; [exact Hs |].
  destruct (@suggested_endpoint_is_trimmed endpointOnly tt brads
              (mkS3Error "TemporaryRedirect"
                         "brads3test-ca.s3-us-west-1.amazonaws.com")
              tt Hd Hs eq_refl eq_refl eq_refl) as [Htrim _].
  exact (proj1 (Htrim regional None tt eq_refl eq_refl)).
Defined.

Lemma String_of_constructed_storage_witness :
  exists sto,
    backend (@wrapped regionOnly (32 * 2 ^ 20)
               (mks3Storage (rebind (@hclClient regionOnly brads) regional)
                            "brads3test-ca" "" "s3.amazonaws.com"))
    = Some sto
    /\ Hostname (ClientAuth (s3Client sto)) = regional
    /\ String_ sto
       = Sprintf (dq ++ "s3" ++ dq ++ " blob storage at host %q, bucket %q")
                 [ArgString "s3.amazonaws.com"; ArgString "brads3test-ca"].
Proof.
  destruct (@String_of_constructed_storage regionOnly tt brads _ eq_refl)
    as (sto & Hb & Hplain & _).
  exists sto. split; [exact Hb |].
  split; [cbn in Hb; injection Hb as <-; reflexivity |].
  exact (Hplain "brads3test-ca" eq_refl (or_introl eq_refl)).
Defined.

End MoreWitnesses.

(** ** Package configs *)

(** *** Maps *)

Module MapFacts.

Import Configs.

Local Open Scope string_scope.

Lemma lookup_delete_eq {V} (m : Map V) (k : string) : lookup (delete k m) k = None.
Proof.
  unfold delete. induction m as [| [k' v] m IH]; cbn; [reflexivity |].
  destruct (String.eqb_spec k' k) as [-> | Hne]; cbn; [exact IH |].
  destruct (String.eqb_spec k' k); [contradiction | exact IH].
Qed.

Lemma lookup_delete_neq {V} (m : Map V) (k k' : string) :
  k <> k' -> lookup (delete k m) k' = lookup m k'.
Proof.
  intros Hne. unfold delete.
  induction m as [| [k0 v] m IH]; cbn; [reflexivity |].
  destruct (String.eqb_spec k0 k) as [-> | Hk]; cbn.
  - destruct (String.eqb_spec k k'); [contradiction | exact IH].
  - now rewrite IH.
Qed.

Lemma lookup_insert_eq {V} (m : Map V) (k : string) (v : V) :
  lookup (insert k v m) k = Some v.
Proof. unfold insert. cbn. now rewrite String.eqb_refl. Qed.

Lemma lookup_insert_neq {V} (m : Map V) (k k' : string) (v : V) :
  k <> k' -> lookup (insert k v m) k' = lookup m k'.
Proof.
  intros Hne. unfold insert. cbn.
  destruct (String.eqb_spec k k'); [contradiction |].
  now apply lookup_delete_neq.
Qed.

Lemma lookup_None_not_key {V} (m : Map V) (k : string) :
  lookup m k = None <-> ~ In k (keys m).
Proof.
  induction m as [| [k' v] m IH]; cbn; [tauto |].
  destruct (String.eqb_spec k' k) as [-> | Hne].
  - split; [discriminate | intros Hn; destruct Hn; now left].
  - rewrite IH. tauto.
Qed.

(** Assigning the pairs of a map, one after the other and each value
    through [f], to another map: a key of the first map reads as its value
    there through [f], any other key as before. *)
Lemma lookup_fold_insert {V W} (f : V -> W) (l : Map V) :
  NoDup (keys l) ->
  forall (acc : Map W) (k : string),
    lookup (fold_left (fun m kv => insert (fst kv) (f (snd kv)) m) l acc) k
    = match lookup l k with Some v => Some (f v) | None => lookup acc k end.
Proof.
  induction l as [| [k0 v0] l IH]; intros Hnd acc k; [reflexivity |].
  cbn in Hnd. inversion Hnd as [| ? ? Hnot Hnd']; subst.
  cbn [fold_left fst snd lookup]. rewrite (IH Hnd').
  destruct (String.eqb_spec k0 k) as [-> | Hne].
  - apply lookup_None_not_key in Hnot. rewrite Hnot. apply lookup_insert_eq.
  - destruct (lookup l k); [reflexivity |]. now apply lookup_insert_neq.
Qed.

End MapFacts.

(** *** evalContext *)

Section EvalContextFacts.

Context `{Configs.Lib}.

Import Configs Strings.

Local Open Scope string_scope.

(** The first occurrence of a character in [b ++ c :: r], when [b] has
    none, is at the length of [b]. *)
Lemma Index_first_char (c : ascii) (b r : string) :
  Contains b (String c "") = false ->
  Index (b ++ String c r) (String c "") = Some (String.length b).
Proof.
  unfold Contains. induction b as [| x b IH]; intros Hb.
  - cbn. now rewrite Ascii.eqb_refl.
  - cbn in Hb |- *. destruct (Ascii.eqb x c); cbn in Hb |- *.
    + discriminate.
    + destruct (Index b (String c "")) eqn:Hi; [discriminate |].
      cbn in IH. rewrite IH; reflexivity.
Qed.

Lemma Index_None_Contains (s sep : string) :
  Contains s sep = false -> Index s sep = None.
Proof. unfold Contains. now destruct (Index s sep). Qed.

(** The loop over the environment, one entry further. *)
Lemma envVals_snoc (envs : list string) (e : string) :
  envVals (envs ++ [e])
  = match Index e "=" with
    | None => envVals envs
    | Some eq => insert (take eq e) (StringVal (drop (eq + 1) e)) (envVals envs)
    end.
Proof. unfold envVals. now rewrite fold_left_app. Qed.

(** X15.  The map [envVals] that [evalContext] fills from the environment
    and hands to [cty.ObjectVal] as the variable "env".  An entry
    name=value, the name being what stands before the first "=", makes the
    name read as [cty.StringVal] of everything after that first "=",
    whatever earlier entries said: the last entry for a name wins.  Such an
    entry leaves every other name as it was.  An entry without "=" is
    passed over.  With no entries the map is empty. *)
Theorem evalContext_env_object (envs : list string) (vars : Map string) :
  lookup (EvalContext_Variables (evalContext envs vars)) "env"
  = Some (ObjectVal (envVals envs))
  /\ (forall name value,
        Contains name "=" = false ->
        lookup (envVals (envs ++ [name ++ "=" ++ value])) name
        = Some (StringVal value))
  /\ (forall name value k,
        Contains name "=" = false ->
        name <> k ->
        lookup (envVals (envs ++ [name ++ "=" ++ value])) k
        = lookup (envVals envs) k)
  /\ (forall e envs',
        Contains e "=" = false ->
        evalContext (envs ++ e :: envs') vars = evalContext (envs ++ envs') vars)
  /\ (forall k, lookup (envVals []) k = None).
Proof.
  assert (Hcut : forall name value,
             Contains name "=" = false ->
             Index (name ++ "=" ++ value) "=" = Some (String.length name)
             /\ take (String.length name) (name ++ "=" ++ value) = name
             /\ drop (String.length name + 1) (name ++ "=" ++ value) = value).
  { intros name value Hn. split; [exact (Index_first_char "=" name value Hn) |].
    split; [apply StringsFacts.take_app |].
    rewrite StringsFacts.drop_app. reflexivity. }
  split; [reflexivity |]. split; [| split; [| split]].
  - intros name value Hn. destruct (Hcut name value Hn) as (Hi & Ht & Hd).
    rewrite envVals_snoc, Hi, Ht, Hd. apply MapFacts.lookup_insert_eq.
  - intros name value k Hn Hne. destruct (Hcut name value Hn) as (Hi & Ht & Hd).
    rewrite envVals_snoc, Hi, Ht, Hd. now apply MapFacts.lookup_insert_neq.
  - intros e envs' He. unfold evalContext, envVals. do 4 f_equal.
    rewrite !fold_left_app. cbn [fold_left].
    now rewrite (Index_None_Contains e "=" He).
  - reflexivity.
Qed.

(** X16.  The map [varVals] that [evalContext] fills from the user
    variables and hands to [cty.ObjectVal] as the variable "var": every
    name of the map of variables (a Go map, so a list with one pair per
    key) reads as [cty.StringVal] of its value there, a name that map does
    not have reads as nothing, and with no variables the map is empty. *)
Theorem evalContext_var_object (envs : list string) (vars : Map string) :
  NoDup (keys vars) ->
  lookup (EvalContext_Variables (evalContext envs vars)) "var"
  = Some (ObjectVal (varVals vars))
  /\ (forall k, lookup (varVals vars) k = option_map StringVal (lookup vars k))
  /\ varVals [] = [].
Proof.
  intros Hnd. split; [reflexivity |]. split; [| reflexivity].
  intros k. unfold varVals.
  rewrite (MapFacts.lookup_fold_insert StringVal vars Hnd).
  now destruct (lookup vars k).
Qed.

End EvalContextFacts.

(** *** The reference decoders and the blocks that use them *)

Section RefFacts.

Context `{Configs.Lib}.

Import Configs.

Local Open Scope string_scope.

Lemma HasErrors_app_configs (a b : Diagnostics) :
  HasErrors (a ++ b)%list = HasErrors a || HasErrors b.
Proof. unfold HasErrors. apply existsb_app. Qed.

Lemma HasErrors_app_false (a b : Diagnostics) :
  HasErrors (a ++ b)%list = false <-> HasErrors a = false /\ HasErrors b = false.
Proof. rewrite HasErrors_app_configs. apply orb_false_iff. Qed.

(** [decodeRefExpr] reports an error exactly for an expression that is not
    a keyword. *)
Lemma decodeRefExpr_errors (expr : Expression) :
  fst (decodeRefExpr expr) = ExprAsKeyword expr
  /\ HasErrors (snd (decodeRefExpr expr)) = (ExprAsKeyword expr =? "").
Proof.
  unfold decodeRefExpr. cbn [fst snd].
  now destruct (ExprAsKeyword expr =? "").
Qed.

Lemma decodeRefListExpr_loop (exprs : list Expression) :
  forall (ret : list string) (diags : Diagnostics),
    fold_left
      (fun '(ret, diags) refExpr =>
         let '(name, moreDiags) := decodeRefExpr refExpr in
         let diags := (diags ++ moreDiags)%list in
         if HasErrors moreDiags then (ret, diags)
         else ((ret ++ [name])%list, diags))
      exprs (ret, diags)
    = ((ret ++ map ExprAsKeyword (filter isKeyword exprs))%list,
       (diags ++ flat_map (fun e => snd (decodeRefExpr e)) exprs)%list).
Proof.
  induction exprs as [| e exprs IH]; intros ret diags.
  - cbn. now rewrite !app_nil_r.
  - cbn [fold_left]. destruct (decodeRefExpr_errors e) as [Hn He].
    destruct (decodeRefExpr e) as [name more] eqn:Hd. cbn [fst snd] in Hn, He.
    rewrite He. cbn [filter flat_map]. unfold isKeyword at 1.
    rewrite Hd. cbn [snd].
    destruct (ExprAsKeyword e =? ""); cbn [negb];
      rewrite IH, <- ?app_assoc; [reflexivity |].
    cbn [map app]. now subst name.
Qed.

Lemma refDiags_flat_map (exprs : list Expression) :
  flat_map (fun e => snd (decodeRefExpr e)) exprs
  = map refDiag (filter (fun e => negb (isKeyword e)) exprs).
Proof.
  induction exprs as [| e exprs IH]; [reflexivity |].
  cbn [flat_map filter]. rewrite IH. unfold decodeRefExpr, isKeyword, refDiag.
  cbn [snd]. now destruct (ExprAsKeyword e =? "").
Qed.

Lemma HasErrors_refDiags (exprs : list Expression) :
  HasErrors (map refDiag (filter (fun e => negb (isKeyword e)) exprs)) = false
  <-> forall e, In e exprs -> isKeyword e = true.
Proof.
  induction exprs as [| e exprs IH]; cbn [filter].
  - split; [intros _ e [] | reflexivity].
  - destruct (isKeyword e) eqn:Hk; cbn [negb map].
    + rewrite IH. split.
      * intros Hall e' [<- | Hin]; [exact Hk | now apply Hall].
      * intros Hall e' Hin. apply Hall. now right.
    + split; [discriminate |].
      intros Hall. specialize (Hall e (or_introl eq_refl)). congruence.
Qed.

Lemma filter_all {A} (f : A -> bool) (l : list A) :
  (forall a, In a l -> f a = true) -> filter f l = l.
Proof.
  induction l as [| a l IH]; intros Hall; [reflexivity |].
  cbn. rewrite (Hall a (or_introl eq_refl)). f_equal.
  apply IH. intros a' Hin. apply Hall. now right.
Qed.

(** X17.  [decodeRefListExpr].  When the expression is no list, it returns
    no names and the diagnostics of [hcl.ExprList].  Otherwise it returns,
    in order, the elements that are keywords, so never an empty name, and
    adds one error diagnostic, at the element's range, for each element
    that is not; the result is free of errors exactly when every element is
    a keyword, and then the names are those of all the elements. *)
Theorem decodeRefListExpr_names (expr : Expression) :
  let exprs := fst (ExprList expr) in
  let listDiags := snd (ExprList expr) in
  let names := fst (decodeRefListExpr expr) in
  let diags := snd (decodeRefListExpr expr) in
  (HasErrors listDiags = true -> names = [] /\ diags = listDiags)
  /\ (HasErrors listDiags = false ->
      names = map ExprAsKeyword (filter isKeyword exprs)
      /\ ~ In "" names
      /\ diags
         = (listDiags
            ++ map refDiag (filter (fun e => negb (isKeyword e)) exprs))%list
      /\ (HasErrors diags = false <-> forall e, In e exprs -> isKeyword e = true)
      /\ (HasErrors diags = false -> names = map ExprAsKeyword exprs)).
Proof.
  intros exprs listDiags names diags.
  subst exprs listDiags names diags. unfold decodeRefListExpr.
  destruct (ExprList expr) as [exprs listDiags]. cbn [fst snd].
  destruct (HasErrors listDiags) eqn:Hl.
  - split; [now intros _ | discriminate].
  - split; [discriminate | intros _].
    rewrite decodeRefListExpr_loop, refDiags_flat_map. cbn [fst snd app].
    split; [reflexivity |].
    split.
    { intros Hin. apply in_map_iff in Hin. destruct Hin as (e & He & Hf).
      apply filter_In in Hf. destruct Hf as [_ Hk]. unfold isKeyword in Hk.
      rewrite He in Hk. discriminate. }
    split; [reflexivity |].
    assert (Hiff : HasErrors
                     (listDiags
                      ++ map refDiag
                           (filter (fun e => negb (isKeyword e)) exprs))%list
                   = false
                   <-> forall e, In e exprs -> isKeyword e = true).
    { rewrite HasErrors_app_false, HasErrors_refDiags. tauto. }
    split; [exact Hiff |].
    intros Hno. now rewrite (filter_all isKeyword exprs (proj1 Hiff Hno)).
Qed.

(** X18.  [decodeServerBlock].  When the body does not decode, the server
    it returns has all three handlers off and no blob writes, and the
    diagnostics are those of the decoding.  Otherwise each handler is on
    unless the block sets it, and the blob writes are what
    [decodeRefListExpr] gives for the expression; in a result free of
    errors they are the keywords of all the list elements, in order.  The
    declaration range is always that of the block. *)
Theorem decodeServerBlock_defaults (block : Block Body) (ctx : EvalContext) :
  let bodyDiags := fst (DecodeServerBody (BlockBody block) ctx) in
  let raw := snd (DecodeServerBody (BlockBody block) ctx) in
  let server := fst (decodeServerBlock block ctx) in
  let diags := snd (decodeServerBlock block ctx) in
  Server_DeclRange server = DefRange block
  /\ (HasErrors bodyDiags = true ->
      server = mkServer false false false [] (DefRange block)
      /\ diags = bodyDiags)
  /\ (HasErrors bodyDiags = false ->
      ShareHandler server
      = match raw_ShareHandler raw with Some b => b | None => true end
      /\ UIHandler server
         = match raw_UIHandler raw with Some b => b | None => true end
      /\ SearchHandler server
         = match raw_SearchHandler raw with Some b => b | None => true end
      /\ (raw_BlobWrites raw = None -> BlobWrites server = [] /\ diags = bodyDiags)
      /\ (forall e,
            raw_BlobWrites raw = Some e ->
            BlobWrites server = fst (decodeRefListExpr e)
            /\ diags = (bodyDiags ++ snd (decodeRefListExpr e))%list
            /\ (HasErrors diags = false ->
                BlobWrites server = map ExprAsKeyword (fst (ExprList e))))).
Proof.
  intros bodyDiags raw server diags. subst bodyDiags raw server diags.
  unfold decodeServerBlock.
  destruct (DecodeServerBody (BlockBody block) ctx) as [bodyDiags raw].
  cbn [fst snd].
  destruct (HasErrors bodyDiags) eqn:Hb.
  - split; [reflexivity |]. split; [now intros _ | discriminate].
  - destruct (raw_BlobWrites raw) as [e |] eqn:Hw.
    + destruct (decodeRefListExpr e) as [names more] eqn:Hd. cbn [fst snd].
      split; [reflexivity |]. split; [discriminate | intros _].
      do 3 (split; [reflexivity |]). split; [discriminate |].
      intros e' He'. injection He' as <-. rewrite Hd. cbn [fst snd].
      split; [reflexivity |]. split; [reflexivity |].
      intros Hno. apply HasErrors_app_false in Hno. destruct Hno as [_ Hmore].
      pose proof (decodeRefListExpr_names e) as Hnames. cbv zeta in Hnames.
      rewrite Hd in Hnames. cbn [fst snd] in Hnames.
      destruct Hnames as [Herr Hok].
      destruct (HasErrors (snd (ExprList e))) eqn:Hl.
      * destruct (Herr eq_refl) as [_ ->]. congruence.
      * destruct (Hok eq_refl) as (_ & _ & _ & _ & Hall). now apply Hall.
    + cbn [fst snd]. split; [reflexivity |]. split; [discriminate | intros _].
      do 3 (split; [reflexivity |]). split; [now intros _ |].
      intros e He. discriminate.
Qed.

End RefFacts.

(** *** extractVars *)

Section VarsFacts.

Context `{Configs.Lib}.

Import Configs.

Local Open Scope string_scope.

Lemma find_snoc {A} (f : A -> bool) (l : list A) (a : A) :
  find f (l ++ [a])
  = match find f l with
    | Some x => Some x
    | None => if f a then Some a else None
    end.
Proof.
  induction l as [| x l IH]; cbn; [reflexivity |].
  now destruct (f x).
Qed.

Lemma find_None_not_In {A} (f : A -> bool) (l : list A) (a : A) :
  find f l = None -> In a l -> f a = false.
Proof.
  intros Hf Hin. destruct (f a) eqn:Hfa; [| reflexivity].
  pose proof (find_none f l Hf a Hin). congruence.
Qed.

Lemma HasErrors_snoc_error (diags : Diagnostics) (d : Diagnostic) :
  isError d = true -> HasErrors (diags ++ [d])%list = true.
Proof.
  intros Hd. unfold HasErrors. rewrite existsb_app. cbn. rewrite Hd.
  now rewrite Bool.orb_true_r.
Qed.

(** One attribute further: the declared names are those that had an
    accepted definition, and a name reads as the value of its first
    accepted definition, when that decodes without an error. *)
Lemma extractAttr_first (ctx : EvalContext)
    (seen : list (string * Attribute Expression)) (st : varsState)
    (na : string * Attribute Expression) :
  (forall n,
      (lookup (decls st) n = None <-> find (defines n) seen = None)
      /\ lookup (vs st) n
         = match find (defines n) seen with
           | Some na' => decodedValue ctx (snd na')
           | None => None
           end) ->
  forall n,
    (lookup (decls (extractAttr ctx st na)) n = None
     <-> find (defines n) (seen ++ [na])%list = None)
    /\ lookup (vs (extractAttr ctx st na)) n
       = match find (defines n) (seen ++ [na])%list with
         | Some na' => decodedValue ctx (snd na')
         | None => None
         end.
Proof.
  intros Hinv n. destruct na as [name attr].
  destruct (Hinv n) as [Hd Hv]. rewrite find_snoc.
  assert (HD : defines n (name, attr)
               = (name =? n) && negb (refersToVar (Expr attr))) by reflexivity.
  rewrite HD. clear HD.
  assert (HV : decodedValue ctx attr
               = if HasErrors (snd (DecodeExpression (Expr attr) ctx))
                 then None
                 else Some (fst (DecodeExpression (Expr attr) ctx))).
  { unfold decodedValue. now destruct (DecodeExpression (Expr attr) ctx). }
  unfold extractAttr.
  destruct (lookup (decls st) name) as [rng |] eqn:Hname.
  - (* already declared *)
    cbn [decls vs].
    destruct (String.eqb_spec name n) as [-> | Hne]; cbn [andb].
    + destruct (find (defines n) seen) as [na' |] eqn:Hf; [now split |].
      assert (Hnone : lookup (decls st) n = None) by now apply Hd.
      congruence.
    + destruct (find (defines n) seen); now split.
  - unfold refersToVar.
    destruct (find (fun ref => RootName ref =? "var") (ExprVariables (Expr attr)))
      as [ref |] eqn:Href.
    + (* a reference to a user variable *)
      cbn [decls vs negb]. rewrite Bool.andb_false_r.
      destruct (find (defines n) seen); now split.
    + cbn [negb]. rewrite Bool.andb_true_r.
      destruct (DecodeExpression (Expr attr) ctx) as [val more] eqn:Hdec.
      cbn [fst snd] in HV.
      destruct (String.eqb_spec name n) as [-> | Hne].
      * assert (Hf : find (defines n) seen = None) by now apply Hd.
        rewrite Hf in Hv |- *. cbn [snd]. rewrite HV.
        destruct (HasErrors more); cbn [negb decls vs].
        -- rewrite MapFacts.lookup_insert_eq. split; [| exact Hv].
           split; discriminate.
        -- rewrite !MapFacts.lookup_insert_eq. split; [| reflexivity].
           split; discriminate.
      * destruct (HasErrors more); cbn [negb decls vs];
          rewrite ?(MapFacts.lookup_insert_neq _ name n) by exact Hne;
          destruct (find (defines n) seen); now split.
Qed.

Lemma fold_extractAttr_first (ctx : EvalContext)
    (attrs : list (string * Attribute Expression)) :
  forall (seen : list (string * Attribute Expression)) (st : varsState),
    (forall n,
        (lookup (decls st) n = None <-> find (defines n) seen = None)
        /\ lookup (vs st) n
           = match find (defines n) seen with
             | Some na' => decodedValue ctx (snd na')
             | None => None
             end) ->
    forall n,
      (lookup (decls (fold_left (extractAttr ctx) attrs st)) n = None
       <-> find (defines n) (seen ++ attrs)%list = None)
      /\ lookup (vs (fold_left (extractAttr ctx) attrs st)) n
         = match find (defines n) (seen ++ attrs)%list with
           | Some na' => decodedValue ctx (snd na')
           | None => None
           end.
Proof.
  induction attrs as [| na attrs IH]; intros seen st Hinv n.
  - rewrite app_nil_r. apply Hinv.
  - cbn [fold_left].
    replace (seen ++ na :: attrs)%list with ((seen ++ [na]) ++ attrs)%list
      by now rewrite <- app_assoc.
    apply IH. now apply extractAttr_first.
Qed.

Lemma forEach_extractBlock_first (ctx : EvalContext) (blocks : list (Block Body)) :
  forall (seen : list (string * Attribute Expression)) (st st' : varsState),
    forEach (extractBlock ctx) st blocks = Returns st' ->
    (forall n,
        (lookup (decls st) n = None <-> find (defines n) seen = None)
        /\ lookup (vs st) n
           = match find (defines n) seen with
             | Some na' => decodedValue ctx (snd na')
             | None => None
             end) ->
    forall n,
      lookup (vs st') n
      = match
          find (defines n)
               (seen ++ flat_map (fun b => fst (JustAttributes (BlockBody b)))
                                 blocks)%list
        with
        | Some na' => decodedValue ctx (snd na')
        | None => None
        end.
Proof.
  induction blocks as [| b blocks IH]; intros seen st st' Hrun Hinv n.
  - cbn in Hrun. injection Hrun as <-. cbn [flat_map]. rewrite app_nil_r.
    apply Hinv.
  - cbn [forEach] in Hrun. unfold extractBlock in Hrun at 1.
    destruct (negb (BlockType b =? "vars")); [discriminate |].
    destruct (JustAttributes (BlockBody b)) as [attrs more] eqn:Hattrs.
    cbn [flat_map]. rewrite Hattrs. cbn [fst]. rewrite app_assoc.
    apply (IH _ _ _ Hrun). intros n'.
    apply fold_extractAttr_first. exact Hinv.
Qed.

(** X20.  [extractVars], the values.  When it returns, a name reads in the
    map of variables as the value of its first accepted definition: the
    first attribute of that name, in the order of the loop over the "vars"
    blocks, whose expression refers to no user variable.  When that
    expression does not decode without an error, and when there is no such
    attribute, the name has no value: a definition is never replaced by a
    later one.  The remaining body is the one [PartialContent] returned. *)
Theorem extractVars_first_definition (body : Body) (envs : list string)
    (vars : Map string) (remain : Body) (diags : Diagnostics) :
  extractVars body envs = Returns (vars, remain, diags) ->
  remain = snd (fst (PartialContentVars body))
  /\ forall n,
       lookup vars n
       = match find (defines n) (varsAttrs body) with
         | Some na => decodedValue (evalContext envs []) (snd na)
         | None => None
         end.
Proof.
  unfold extractVars, varsAttrs.
  destruct (PartialContentVars body) as [[blocks remain'] diags'].
  cbn [fst snd].
  destruct (forEach (extractBlock (evalContext envs []))
                    (mkVarsState [] [] diags') blocks) as [st | msg] eqn:Hrun;
    [| discriminate].
  intros Hret. injection Hret as <- <- <-. split; [reflexivity |].
  intros n.
  apply (forEach_extractBlock_first _ blocks [] _ _ Hrun).
  intros n'. cbn. split; [tauto | reflexivity].
Qed.

Lemma NoDup_map_fst_eq {A B} (l : list (A * B)) (k : A) (a b : B) :
  NoDup (map fst l) -> In (k, a) l -> In (k, b) l -> a = b.
Proof.
  induction l as [| [k' x] l IH]; intros Hnd Ha Hb; [destruct Ha |].
  cbn in Hnd. inversion Hnd as [| ? ? Hnot Hnd']; subst.
  destruct Ha as [Ha | Ha], Hb as [Hb | Hb].
  - congruence.
  - injection Ha as -> ->. destruct Hnot.
    change k with (fst (k, b)). now apply in_map.
  - injection Hb as -> ->. destruct Hnot.
    change k with (fst (k, a)). now apply in_map.
  - now apply IH.
Qed.

Lemma NoDup_snoc {A} (l : list A) (a : A) :
  NoDup l -> ~ In a l -> NoDup (l ++ [a]).
Proof.
  intros Hnd Hnot. apply NoDup_app; [exact Hnd | repeat constructor; intros [] | ].
  intros x Hx [<- | []]. contradiction.
Qed.

(** One attribute further, for a state without an error: no name was met
    twice, no expression referred to a user variable, and every one
    decoded without an error. *)
Lemma extractAttr_clean (ctx : EvalContext)
    (seen : list (string * Attribute Expression)) (st : varsState)
    (na : string * Attribute Expression) :
  (forall n, lookup (decls st) n = None <-> find (defines n) seen = None) ->
  (HasErrors (varDiags st) = false ->
   NoDup (map fst seen)
   /\ forall na',
        In na' seen ->
        refersToVar (Expr (snd na')) = false
        /\ HasErrors (snd (DecodeExpression (Expr (snd na')) ctx)) = false) ->
  HasErrors (varDiags (extractAttr ctx st na)) = false ->
  NoDup (map fst (seen ++ [na])%list)
  /\ forall na',
       In na' (seen ++ [na])%list ->
       refersToVar (Expr (snd na')) = false
       /\ HasErrors (snd (DecodeExpression (Expr (snd na')) ctx)) = false.
Proof.
  intros Hdecl Hclean. destruct na as [name attr]. unfold extractAttr.
  destruct (lookup (decls st) name) as [rng |] eqn:Hname.
  { cbn [varDiags]. intros He.
    rewrite HasErrors_snoc_error in He by reflexivity. discriminate. }
  pose proof (eq_refl (refersToVar (Expr attr))) as Hrefers.
  unfold refersToVar at 1 in Hrefers.
  destruct (find (fun ref => RootName ref =? "var") (ExprVariables (Expr attr)))
    as [ref |] eqn:Href.
  { cbn [varDiags]. intros He.
    rewrite HasErrors_snoc_error in He by reflexivity. discriminate. }
  destruct (DecodeExpression (Expr attr) ctx) as [val more] eqn:Hdec.
  intros He.
  assert (He' : HasErrors (varDiags st) = false /\ HasErrors more = false).
  { revert He. destruct (HasErrors more) eqn:Hm; cbn [negb varDiags];
      intros He; apply HasErrors_app_false in He; destruct He as [He1 He2];
      [congruence | now split]. }
  destruct He' as [Hst Hmore]. destruct (Hclean Hst) as [Hnd Hall].
  assert (Hnew : ~ In name (map fst seen)).
  { intros Hin. apply in_map_iff in Hin. destruct Hin as ([k a] & Hk & Hin).
    cbn in Hk. subst k.
    apply Hdecl in Hname.
    pose proof (find_None_not_In _ _ _ Hname Hin) as Hdef.
    unfold defines in Hdef. cbn [fst snd] in Hdef.
    rewrite String.eqb_refl in Hdef.
    destruct (Hall _ Hin) as [Hr _]. cbn [snd] in Hr. rewrite Hr in Hdef.
    discriminate. }
  split.
  - rewrite map_app. cbn [map fst]. now apply NoDup_snoc.
  - intros na' Hin. apply in_app_iff in Hin. destruct Hin as [Hin | [<- | []]].
    + now apply Hall.
    + cbn [snd]. rewrite Hdec. cbn [snd]. now split.
Qed.

Lemma extractAttr_diags_grow (ctx : EvalContext) (st : varsState)
    (na : string * Attribute Expression) :
  HasErrors (varDiags (extractAttr ctx st na)) = false ->
  HasErrors (varDiags st) = false.
Proof.
  destruct na as [name attr]. unfold extractAttr.
  destruct (lookup (decls st) name).
  { cbn [varDiags]. intros He. now apply HasErrors_app_false in He. }
  destruct (find (fun ref => RootName ref =? "var") (ExprVariables (Expr attr))).
  { cbn [varDiags]. intros He. now apply HasErrors_app_false in He. }
  destruct (DecodeExpression (Expr attr) ctx) as [val more].
  destruct (HasErrors more); cbn [negb varDiags]; intros He;
    now apply HasErrors_app_false in He.
Qed.

Lemma fold_extractAttr_clean (ctx : EvalContext)
    (attrs : list (string * Attribute Expression)) :
  forall (seen : list (string * Attribute Expression)) (st : varsState),
    (forall n,
        (lookup (decls st) n = None <-> find (defines n) seen = None)
        /\ lookup (vs st) n
           = match find (defines n) seen with
             | Some na' => decodedValue ctx (snd na')
             | None => None
             end) ->
    (HasErrors (varDiags st) = false ->
     NoDup (map fst seen)
     /\ forall na',
          In na' seen ->
          refersToVar (Expr (snd na')) = false
          /\ HasErrors (snd (DecodeExpression (Expr (snd na')) ctx)) = false) ->
    HasErrors (varDiags (fold_left (extractAttr ctx) attrs st)) = false ->
    NoDup (map fst (seen ++ attrs)%list)
    /\ forall na',
         In na' (seen ++ attrs)%list ->
         refersToVar (Expr (snd na')) = false
         /\ HasErrors (snd (DecodeExpression (Expr (snd na')) ctx)) = false.
Proof.
  induction attrs as [| na attrs IH]; intros seen st Hinv Hclean He.
  - cbn [fold_left] in He. rewrite app_nil_r. now apply Hclean.
  - cbn [fold_left] in He.
    replace (seen ++ na :: attrs)%list with ((seen ++ [na]) ++ attrs)%list
      by now rewrite <- app_assoc.
    apply (IH (seen ++ [na])%list (extractAttr ctx st na)).
    + now apply extractAttr_first.
    + apply extractAttr_clean; [| exact Hclean].
      intros n. apply Hinv.
    + exact He.
Qed.

Lemma forEach_extractBlock_clean (ctx : EvalContext) (blocks : list (Block Body)) :
  forall (seen : list (string * Attribute Expression)) (st st' : varsState),
    forEach (extractBlock ctx) st blocks = Returns st' ->
    (forall n,
        (lookup (decls st) n = None <-> find (defines n) seen = None)
        /\ lookup (vs st) n
           = match find (defines n) seen with
             | Some na' => decodedValue ctx (snd na')
             | None => None
             end) ->
    (HasErrors (varDiags st) = false ->
     NoDup (map fst seen)
     /\ forall na',
          In na' seen ->
          refersToVar (Expr (snd na')) = false
          /\ HasErrors (snd (DecodeExpression (Expr (snd na')) ctx)) = false) ->
    HasErrors (varDiags st') = false ->
    NoDup (map fst (seen ++ flat_map (fun b => fst (JustAttributes (BlockBody b)))
                                     blocks)%list)
    /\ forall na',
         In na' (seen ++ flat_map (fun b => fst (JustAttributes (BlockBody b)))
                                  blocks)%list ->
         refersToVar (Expr (snd na')) = false
         /\ HasErrors (snd (DecodeExpression (Expr (snd na')) ctx)) = false.
Proof.
  induction blocks as [| b blocks IH]; intros seen st st' Hrun Hinv Hclean He.
  - cbn in Hrun. injection Hrun as <-. cbn [flat_map]. rewrite app_nil_r.
    now apply Hclean.
  - cbn [forEach] in Hrun. unfold extractBlock in Hrun at 1.
    destruct (negb (BlockType b =? "vars")); [discriminate |].
    destruct (JustAttributes (BlockBody b)) as [attrs more] eqn:Hattrs.
    cbn [flat_map]. rewrite Hattrs. cbn [fst]. rewrite app_assoc.
    apply (IH _ _ _ Hrun); [| | exact He].
    + intros n. apply fold_extractAttr_first. exact Hinv.
    + apply fold_extractAttr_clean.
      * exact Hinv.
      * cbn [varDiags]. intros He0. apply HasErrors_app_false in He0.
        now apply Hclean.
Qed.

(** X21.  [extractVars] without an error.  When it returns diagnostics with
    no error in them, the "vars" blocks define every name once, no
    definition refers to a user variable, and every attribute of every
    block reads in the map as the value its expression decodes to; the
    names of the map are the names of the attributes. *)
Theorem extractVars_without_errors (body : Body) (envs : list string)
    (vars : Map string) (remain : Body) (diags : Diagnostics) :
  extractVars body envs = Returns (vars, remain, diags) ->
  HasErrors diags = false ->
  NoDup (map fst (varsAttrs body))
  /\ (forall name attr,
        In (name, attr) (varsAttrs body) ->
        refersToVar (Expr attr) = false
        /\ lookup vars name
           = Some (fst (DecodeExpression (Expr attr) (evalContext envs []))))
  /\ (forall n, lookup vars n <> None <-> In n (map fst (varsAttrs body))).
Proof.
  unfold extractVars, varsAttrs.
  destruct (PartialContentVars body) as [[blocks remain'] diags'].
  cbn [fst snd].
  set (ctx := evalContext envs []).
  set (all := flat_map (fun b => fst (JustAttributes (BlockBody b))) blocks).
  destruct (forEach (extractBlock ctx) (mkVarsState [] [] diags') blocks)
    as [st | msg] eqn:Hrun; [| discriminate].
  intros Hret He. injection Hret as <- <- <-.
  assert (Hinit : forall n,
             (lookup (decls (mkVarsState [] [] diags')) n = None
              <-> find (defines n) [] = None)
             /\ lookup (vs (mkVarsState [] [] diags')) n
                = match find (defines n) [] with
                  | Some na' => decodedValue ctx (snd na')
                  | None => None
                  end).
  { intros n. cbn. split; [tauto | reflexivity]. }
  pose proof (forEach_extractBlock_first ctx blocks [] _ _ Hrun Hinit) as Hval.
  destruct (forEach_extractBlock_clean ctx blocks [] _ _ Hrun Hinit) as [Hnd Hall].
  { intros _. split; [constructor | intros na' []]. }
  { exact He. }
  cbn [app] in Hval, Hnd, Hall. fold all in Hval, Hnd, Hall.
  assert (Hread : forall name attr,
             In (name, attr) all ->
             lookup (vs st) name = Some (fst (DecodeExpression (Expr attr) ctx))).
  { intros name attr Hin. rewrite Hval.
    destruct (Hall _ Hin) as [Hr Hd]. cbn [snd] in Hr, Hd.
    destruct (find (defines name) all) as [[k a] |] eqn:Hf.
    - apply find_some in Hf. destruct Hf as [Hin' Hdef].
      unfold defines in Hdef. cbn [fst snd] in Hdef.
      apply Bool.andb_true_iff in Hdef. destruct Hdef as [Hk _].
      apply String.eqb_eq in Hk. subst k.
      rewrite (NoDup_map_fst_eq all name a attr Hnd Hin' Hin). cbn [snd].
      unfold decodedValue.
      destruct (DecodeExpression (Expr attr) ctx) as [val more].
      cbn [fst snd] in Hd |- *. now rewrite Hd.
    - pose proof (find_None_not_In _ _ _ Hf Hin) as Hdef.
      unfold defines in Hdef. cbn [fst snd] in Hdef.
      rewrite String.eqb_refl, Hr in Hdef. discriminate. }
  split; [exact Hnd |]. split.
  - intros name attr Hin. split; [apply (Hall _ Hin) | now apply Hread].
  - intros n. split.
    + intros Hn. rewrite Hval in Hn.
      destruct (find (defines n) all) as [[k a] |] eqn:Hf; [| congruence].
      apply find_some in Hf. destruct Hf as [Hin Hdef].
      unfold defines in Hdef. cbn [fst snd] in Hdef.
      apply Bool.andb_true_iff in Hdef. destruct Hdef as [Hk _].
      apply String.eqb_eq in Hk. subst k.
      change n with (fst (n, a)). now apply in_map.
    + intros Hin. apply in_map_iff in Hin. destruct Hin as ([k a] & Hk & Hin).
      cbn in Hk. subst k. rewrite (Hread _ _ Hin). discriminate.
Qed.

End VarsFacts.

(** *** The sync and network blocks *)

Section BlockFacts.

Context `{Configs.Lib}.

Import Configs.

Local Open Scope string_scope.

(** X19.  [decodeSyncBlock].  The ranges of the two ends are never filled
    in: they are the zero range whatever the block holds, and the
    declaration range is that of the block.  In a result without an error
    the body decoded without one, an end that is given is a keyword and
    the sync holds its name, and an interval that is given is a string
    that parses as a duration, the one the sync holds.  An interval other
    than zero always comes from such a string. *)
Theorem decodeSyncBlock_result (block : Block Body) (ctx : EvalContext) :
  let bodyDiags := fst (DecodeSyncBody (BlockBody block) ctx) in
  let raw := snd (DecodeSyncBody (BlockBody block) ctx) in
  let sync := fst (decodeSyncBlock block ctx) in
  let diags := snd (decodeSyncBlock block ctx) in
  (FromRange sync = zeroRange
   /\ ToRange sync = zeroRange
   /\ Sync_DeclRange sync = DefRange block)
  /\ (HasErrors diags = false ->
      HasErrors bodyDiags = false
      /\ (forall e, raw_From raw = Some e ->
                    isKeyword e = true /\ From sync = ExprAsKeyword e)
      /\ (forall e, raw_To raw = Some e ->
                    isKeyword e = true /\ To sync = ExprAsKeyword e)
      /\ (forall e, raw_VerifyInterval raw = Some e ->
                    ParseDuration (fst (DecodeExpression e ctx))
                    = inl (VerifyInterval sync)))
  /\ (VerifyInterval sync <> 0%Z ->
      exists e,
        raw_VerifyInterval raw = Some e
        /\ HasErrors (snd (DecodeExpression e ctx)) = false
        /\ ParseDuration (fst (DecodeExpression e ctx))
           = inl (VerifyInterval sync)).
Proof.
  intros bodyDiags raw sync diags. subst bodyDiags raw sync diags.
  unfold decodeSyncBlock.
  destruct (DecodeSyncBody (BlockBody block) ctx) as [bodyDiags raw].
  cbn [fst snd].
  destruct (HasErrors bodyDiags) eqn:Hb.
  { cbn [fst snd FromRange ToRange Sync_DeclRange VerifyInterval].
    split; [now repeat split |]. split; [congruence |].
    intros Hz. now destruct Hz. }
  set (from := match raw_From raw with
               | Some e =>
                   let '(name, moreDiags) := decodeRefExpr e in
                   (name, (bodyDiags ++ moreDiags)%list)
               | None => ("", bodyDiags)
               end).
  assert (Hfrom : (HasErrors (snd from) = false ->
                   HasErrors bodyDiags = false
                   /\ forall e, raw_From raw = Some e ->
                                isKeyword e = true /\ fst from = ExprAsKeyword e)).
  { subst from. destruct (raw_From raw) as [e |].
    - unfold decodeRefExpr, isKeyword. cbn [fst snd]. intros He.
      apply HasErrors_app_false in He. destruct He as [_ He].
      split; [exact Hb |]. intros e' He'. injection He' as <-.
      destruct (ExprAsKeyword e =? ""); [discriminate | now split].
    - cbn [snd]. intros _. split; [exact Hb | discriminate]. }
  destruct from as [from diags1]. cbn [fst snd] in Hfrom.
  set (to := match raw_To raw with
             | Some e =>
                 let '(name, moreDiags) := decodeRefExpr e in
                 (name, (diags1 ++ moreDiags)%list)
             | None => ("", diags1)
             end).
  assert (Hto : (HasErrors (snd to) = false ->
                 HasErrors diags1 = false
                 /\ forall e, raw_To raw = Some e ->
                              isKeyword e = true /\ fst to = ExprAsKeyword e)).
  { subst to. destruct (raw_To raw) as [e |].
    - unfold decodeRefExpr, isKeyword. cbn [fst snd]. intros He.
      apply HasErrors_app_false in He. destruct He as [Hd1 He].
      split; [exact Hd1 |]. intros e' He'. injection He' as <-.
      destruct (ExprAsKeyword e =? ""); [discriminate | now split].
    - cbn [snd]. intros Hd1. split; [exact Hd1 | discriminate]. }
  destruct to as [to diags2]. cbn [fst snd] in Hto.
  destruct (raw_VerifyInterval raw) as [e |].
  - destruct (DecodeExpression e ctx) as [durStr more] eqn:Hdec. cbn [fst snd].
    destruct (HasErrors more) eqn:Hmore; cbn [negb].
    + cbn [fst snd FromRange ToRange Sync_DeclRange VerifyInterval From To].
      split; [now repeat split |]. split.
      * intros He. apply HasErrors_app_false in He. destruct He as [_ He].
        congruence.
      * intros Hz. now destruct Hz.
    + destruct (ParseDuration durStr) as [dur | err] eqn:Hdur;
        cbn [fst snd FromRange ToRange Sync_DeclRange VerifyInterval From To].
      * split; [now repeat split |]. split.
        -- intros He. apply HasErrors_app_false in He. destruct He as [Hd2 _].
           destruct (Hto Hd2) as [Hd1 Hto']. destruct (Hfrom Hd1) as [_ Hfrom'].
           split; [reflexivity |]. split; [exact Hfrom' |]. split; [exact Hto' |].
           intros e' He'. injection He' as <-. rewrite Hdec. exact Hdur.
        -- intros _. exists e. rewrite Hdec. now repeat split.
      * split; [now repeat split |]. split.
        -- intros He. rewrite HasErrors_snoc_error in He by reflexivity.
           discriminate.
        -- intros Hz. now destruct Hz.
  - cbn [fst snd FromRange ToRange Sync_DeclRange VerifyInterval From To].
    split; [now repeat split |]. split.
    + intros Hd2. destruct (Hto Hd2) as [Hd1 Hto']. destruct (Hfrom Hd1) as [_ Hfrom'].
      split; [reflexivity |]. split; [exact Hfrom' |]. split; [exact Hto' |].
      discriminate.
    + intros Hz. now destruct Hz.
Qed.

(** The loop over the "auth" blocks: it panics when a block has no label,
    and otherwise adds the [Auth] of every block, in order, and no
    diagnostic. *)
Lemma forEach_decodeAuthBlock (ctx : EvalContext) (blocks : list (Block Body)) :
  forall (auths : list Auth) (diags : Diagnostics),
    forEach
      (fun '(auths, diags) authBlock =>
         match decodeAuthBlock authBlock ctx with
         | Panics msg => Panics msg
         | Returns (auth, moreDiags) =>
             Returns ((auths ++ [auth])%list, (diags ++ moreDiags)%list)
         end)
      (auths, diags) blocks
    = if forallb labelled blocks
      then Returns ((auths ++ map authOf blocks)%list, diags)
      else Panics "index out of range".
Proof.
  induction blocks as [| b blocks IH]; intros auths diags.
  - cbn. now rewrite app_nil_r.
  - cbn [forEach forallb map]. unfold decodeAuthBlock, firstLabel, labelled at 1.
    destruct (Labels b) as [| l ls] eqn:Hl; [reflexivity |].
    destruct (LabelRanges b) as [| r rs] eqn:Hr; [reflexivity |].
    cbn [andb]. rewrite IH. unfold authOf at 2. rewrite Hl, Hr. cbn [hd].
    now rewrite app_nil_r, <- app_assoc.
Qed.

(** X22.  [decodeNetworkBlock].  When the body does not decode, the network
    it returns has no address, no authentication and HTTPS off.  Otherwise
    it panics when an "auth" block has no label; when all have one, HTTPS
    is on unless the block sets it, there is one [Auth] for every "auth"
    block, in order, with the block's first label as its type, and a base
    URL or listen address is present only as the result of parsing the
    string its expression decodes to.  In a result without an error, an
    address that is given is present. *)
Theorem decodeNetworkBlock_result (block : Block Body) (ctx : EvalContext) :
  let bodyDiags := fst (DecodeNetworkBody (BlockBody block) ctx) in
  let raw := snd (DecodeNetworkBody (BlockBody block) ctx) in
  let authBlocks := fst (ContentAuth (raw_Remain raw)) in
  (HasErrors bodyDiags = true ->
   decodeNetworkBlock block ctx
   = Returns (mkNetwork None None false [] (DefRange block), bodyDiags))
  /\ (HasErrors bodyDiags = false ->
      (forallb labelled authBlocks = false ->
       exists msg, decodeNetworkBlock block ctx = Panics msg)
      /\ (forallb labelled authBlocks = true ->
          exists net diags,
            decodeNetworkBlock block ctx = Returns (net, diags)
            /\ HTTPS net = match raw_HTTPS raw with Some b => b | None => true end
            /\ Network_DeclRange net = DefRange block
            /\ Auths net = map authOf authBlocks
            /\ (forall url,
                  BaseURL net = Some url ->
                  exists e,
                    raw_BaseURL raw = Some e
                    /\ url_Parse (fst (DecodeExpression e ctx)) = inl url)
            /\ (forall addr,
                  ListenAddr net = Some addr ->
                  exists e,
                    raw_ListenAddr raw = Some e
                    /\ ResolveTCPAddr "tcp" (fst (DecodeExpression e ctx))
                       = inl addr)
            /\ (HasErrors diags = false ->
                (forall e, raw_BaseURL raw = Some e -> BaseURL net <> None)
                /\ (forall e, raw_ListenAddr raw = Some e ->
                              ListenAddr net <> None)))).
Proof.
  intros bodyDiags raw authBlocks. subst bodyDiags raw authBlocks.
  unfold decodeNetworkBlock.
  destruct (DecodeNetworkBody (BlockBody block) ctx) as [bodyDiags raw].
  cbn [fst snd].
  destruct (HasErrors bodyDiags) eqn:Hb.
  { split; [reflexivity | discriminate]. }
  split; [discriminate | intros _].
  set (bu :=
         match raw_BaseURL raw with
         | Some e =>
             let '(urlStr, moreDiags) := DecodeExpression e ctx in
             let diags := (bodyDiags ++ moreDiags)%list in
             if negb (HasErrors moreDiags) then
               match url_Parse urlStr with
               | inr err =>
                   (None,
                    (diags ++
                     [mkDiagnostic S3.DiagError
                        ("Invalid " ++ dq ++ "base_url" ++ dq ++ " argument")
                        (Sprintf ("The " ++ dq ++ "base_url" ++ dq
                                  ++ " argument is not a valid URL: %s.")
                                 [ArgError err])
                        (Some (ExprRange e)) None])%list)
               | inl url => (Some url, diags)
               end
             else (None, diags)
         | None => (None, bodyDiags)
         end).
  assert (Hbu : (forall url,
                    fst bu = Some url ->
                    exists e,
                      raw_BaseURL raw = Some e
                      /\ url_Parse (fst (DecodeExpression e ctx)) = inl url)
                /\ (HasErrors (snd bu) = false ->
                    forall e, raw_BaseURL raw = Some e -> fst bu <> None)).
  { subst bu. destruct (raw_BaseURL raw) as [e |].
    - destruct (DecodeExpression e ctx) as [urlStr more] eqn:Hdec. cbn [fst snd].
      destruct (HasErrors more) eqn:Hmore; cbn [negb fst snd].
      + split; [discriminate |]. intros He.
        apply HasErrors_app_false in He. destruct He; congruence.
      + destruct (url_Parse urlStr) as [url | err] eqn:Hurl; cbn [fst snd].
        * split; [| discriminate].
          intros url' Hu. injection Hu as <-. exists e. now rewrite Hdec.
        * split; [discriminate |]. intros He.
          rewrite HasErrors_snoc_error in He by reflexivity. discriminate.
    - cbn [fst snd]. split; discriminate. }
  destruct bu as [baseURL diags1]. cbn [fst snd] in Hbu.
  destruct Hbu as [Hbu1 Hbu2].
  set (la :=
         match raw_ListenAddr raw with
         | Some e =>
             let '(addrStr, moreDiags) := DecodeExpression e ctx in
             let diags := (diags1 ++ moreDiags)%list in
             if negb (HasErrors moreDiags) then
               match ResolveTCPAddr "tcp" addrStr with
               | inr err =>
                   (None,
                    (diags ++
                     [mkDiagnostic S3.DiagError
                        ("Invalid " ++ dq ++ "listen" ++ dq ++ " argument")
                        (Sprintf ("The " ++ dq ++ "listen" ++ dq
                                  ++ " argument is not a valid TCP address: %s.")
                                 [ArgError err])
                        (Some (ExprRange e)) None])%list)
               | inl addr => (Some addr, diags)
               end
             else (None, diags)
         | None => (None, diags1)
         end).
  assert (Hla : (forall addr,
                    fst la = Some addr ->
                    exists e,
                      raw_ListenAddr raw = Some e
                      /\ ResolveTCPAddr "tcp" (fst (DecodeExpression e ctx))
                         = inl addr)
                /\ (HasErrors (snd la) = false ->
                    HasErrors diags1 = false
                    /\ forall e, raw_ListenAddr raw = Some e -> fst la <> None)).
  { subst la. destruct (raw_ListenAddr raw) as [e |].
    - destruct (DecodeExpression e ctx) as [addrStr more] eqn:Hdec. cbn [fst snd].
      destruct (HasErrors more) eqn:Hmore; cbn [negb fst snd].
      + split; [discriminate |]. intros He.
        apply HasErrors_app_false in He. destruct He; congruence.
      + destruct (ResolveTCPAddr "tcp" addrStr) as [addr | err] eqn:Haddr;
          cbn [fst snd].
        * split.
          -- intros addr' Ha. injection Ha as <-. exists e. now rewrite Hdec.
          -- intros He. apply HasErrors_app_false in He. destruct He as [Hd1 _].
             split; [exact Hd1 | discriminate].
        * split; [discriminate |]. intros He.
          rewrite HasErrors_snoc_error in He by reflexivity. discriminate.
    - cbn [fst snd]. split; [discriminate |].
      intros Hd1. split; [exact Hd1 | discriminate]. }
  destruct la as [listenAddr diags2]. cbn [fst snd] in Hla.
  destruct Hla as [Hla1 Hla2].
  destruct (ContentAuth (raw_Remain raw)) as [authBlocks more]. cbn [fst].
  rewrite forEach_decodeAuthBlock.
  destruct (forallb labelled authBlocks).
  - split; [discriminate | intros _].
    eexists. eexists. split; [reflexivity |].
    cbn [HTTPS Network_DeclRange Auths BaseURL ListenAddr app].
    do 3 (split; [reflexivity |]).
    split; [exact Hbu1 |]. split; [exact Hla1 |].
    intros He. apply HasErrors_app_false in He. destruct He as [Hd2 _].
    destruct (Hla2 Hd2) as [Hd1 Hla3]. split; [now apply Hbu2 | exact Hla3].
  - split; [| discriminate]. intros _. now eexists.
Qed.

End BlockFacts.

(** *** decodeConfig and ReadConfig *)

Section ConfigFacts.

Context `{Configs.Lib}.

Import Configs.

Local Open Scope string_scope.

Lemma forEach_invariant {A St} (f : St -> A -> outcome St)
    (P : list A -> St -> Prop) :
  (forall seen st a st',
      P seen st -> f st a = Returns st' -> P (seen ++ [a])%list st') ->
  forall (l seen : list A) (st st' : St),
    P seen st -> forEach f st l = Returns st' -> P (seen ++ l)%list st'.
Proof.
  intros Hstep. induction l as [| a l IH]; intros seen st st' HP Hrun.
  - cbn in Hrun. injection Hrun as <-. now rewrite app_nil_r.
  - cbn [forEach] in Hrun. destruct (f st a) as [st1 | msg] eqn:Hf;
      [| discriminate].
    replace (seen ++ a :: l)%list with ((seen ++ [a]) ++ l)%list
      by now rewrite <- app_assoc.
    apply (IH _ st1); [| exact Hrun]. now apply (Hstep seen st).
Qed.

Lemma find_snoc_false {A} (f : A -> bool) (l : list A) (a : A) :
  f a = false -> find f (l ++ [a])%list = find f l.
Proof.
  intros Hf. rewrite find_snoc, Hf. now destruct (find f l).
Qed.

Lemma filter_snoc_false {A} (f : A -> bool) (l : list A) (a : A) :
  f a = false -> filter f (l ++ [a])%list = filter f l.
Proof.
  intros Hf. rewrite filter_app. cbn. rewrite Hf. apply app_nil_r.
Qed.

Lemma filter_snoc_true {A} (f : A -> bool) (l : list A) (a : A) :
  f a = true -> filter f (l ++ [a])%list = (filter f l ++ [a])%list.
Proof. intros Hf. rewrite filter_app. cbn. now rewrite Hf. Qed.

Lemma find_None_filter {A} (f : A -> bool) (l : list A) :
  find f l = None -> filter f l = [].
Proof.
  induction l as [| a l IH]; cbn; [reflexivity |].
  destruct (f a); [discriminate | exact IH].
Qed.

(** The blocks of another type leave what is known of a type as it is. *)
Ltac other_types Hty :=
  repeat match goal with
    | |- context [find (ofType ?t) (?l ++ [?b])%list] =>
        rewrite (find_snoc_false (ofType t) l b)
          by (unfold ofType; rewrite Hty; reflexivity)
    | |- context [filter (ofType ?t) (?l ++ [?b])%list] =>
        rewrite (filter_snoc_false (ofType t) l b)
          by (unfold ofType; rewrite Hty; reflexivity)
    end.

Ltac other_stores Hty :=
  let t := fresh "t" in
  intros t;
  rewrite find_snoc_false
    by (unfold storageNamed, ofType; rewrite Hty; reflexivity);
  cbn [Stores];
  match goal with Hst : forall t' : string, _ |- _ => exact (Hst t) end.

Lemma decodeStorageBlock_returns (block : Block Body) (ctx : EvalContext)
    (storage : Storage) (d : Diagnostics) :
  decodeStorageBlock block ctx = Returns (storage, d) ->
  Storage_Type storage = hd "" (Labels block) /\ d = [].
Proof.
  unfold decodeStorageBlock, firstLabel.
  destruct (Labels block) as [| l ls]; [discriminate |].
  destruct (LabelRanges block) as [| r rs]; [discriminate |].
  intros Hret. injection Hret as <- <-. now split.
Qed.

(** One root block further. *)
Lemma decodeRootBlock_firstWins (ctx : EvalContext) (seen : list (Block Body))
    (st : Config * Diagnostics) (b : Block Body) (st' : Config * Diagnostics) :
  firstWins ctx seen (fst st) ->
  decodeRootBlock ctx st b = Returns st' ->
  firstWins ctx (seen ++ [b])%list (fst st')
  /\ Variables (fst st') = Variables (fst st).
Proof.
  destruct st as [config diags]. cbn [fst].
  intros (Hn & Hi & Hs & Hx & Hy & Hst). unfold decodeRootBlock.
  destruct (String.eqb_spec (BlockType b) "network") as [Hty | _].
  { assert (Hb : ofType "network" b = true)
      by (unfold ofType; rewrite Hty; reflexivity).
    destruct (Config_Network config) as [prev |] eqn:Hprev.
    - intros Hret. injection Hret as <-. cbn [fst]. split; [| reflexivity].
      unfold firstWins. other_types Hty.
      split; [| split; [| split; [| split; [| split]]]]; auto;
        [| other_stores Hty].
      rewrite find_snoc, ?Hprev.
      destruct (find (ofType "network") seen); [exact Hn | discriminate].
    - destruct (decodeNetworkBlock b ctx) as [[net more] | msg] eqn:Hdec;
        [| discriminate].
      intros Hret. injection Hret as <-. cbn [fst]. split; [| reflexivity].
      unfold firstWins. other_types Hty.
      split; [| split; [| split; [| split; [| split]]]]; auto;
        [| other_stores Hty].
      rewrite find_snoc, Hb.
      destruct (find (ofType "network") seen) as [b0 |].
      + destruct Hn as (net0 & d0 & _ & Hsome). congruence.
      + exists net, more. now split. }
  destruct (String.eqb_spec (BlockType b) "identity") as [Hty | _].
  { assert (Hb : ofType "identity" b = true)
      by (unfold ofType; rewrite Hty; reflexivity).
    destruct (Config_Identity config) as [prev |] eqn:Hprev.
    - intros Hret. injection Hret as <-. cbn [fst]. split; [| reflexivity].
      unfold firstWins. other_types Hty.
      split; [| split; [| split; [| split; [| split]]]]; auto;
        [| other_stores Hty].
      rewrite find_snoc, ?Hprev.
      destruct (find (ofType "identity") seen); [exact Hi | discriminate].
    - destruct (decodeIdentityBlock b ctx) as [ident more] eqn:Hdec.
      intros Hret. injection Hret as <-. cbn [fst]. split; [| reflexivity].
      unfold firstWins. other_types Hty.
      split; [| split; [| split; [| split; [| split]]]]; auto;
        [| other_stores Hty].
      cbn [Config_Identity]. rewrite find_snoc, Hb.
      destruct (find (ofType "identity") seen) as [b0 |]; [discriminate |].
      cbn [option_map]. now rewrite Hdec. }
  destruct (String.eqb_spec (BlockType b) "server") as [Hty | _].
  { assert (Hb : ofType "server" b = true)
      by (unfold ofType; rewrite Hty; reflexivity).
    destruct (Config_Server config) as [prev |] eqn:Hprev.
    - intros Hret. injection Hret as <-. cbn [fst]. split; [| reflexivity].
      unfold firstWins. other_types Hty.
      split; [| split; [| split; [| split; [| split]]]]; auto;
        [| other_stores Hty].
      rewrite find_snoc, ?Hprev.
      destruct (find (ofType "server") seen); [exact Hs | discriminate].
    - destruct (decodeServerBlock b ctx) as [server more] eqn:Hdec.
      intros Hret. injection Hret as <-. cbn [fst]. split; [| reflexivity].
      unfold firstWins. other_types Hty.
      split; [| split; [| split; [| split; [| split]]]]; auto;
        [| other_stores Hty].
      cbn [Config_Server]. rewrite find_snoc, Hb.
      destruct (find (ofType "server") seen) as [b0 |]; [discriminate |].
      cbn [option_map]. now rewrite Hdec. }
  destruct (String.eqb_spec (BlockType b) "index") as [Hty | _].
  { assert (Hb : ofType "index" b = true)
      by (unfold ofType; rewrite Hty; reflexivity).
    destruct (Config_Index config) as [prev |] eqn:Hprev.
    - intros Hret. injection Hret as <-. cbn [fst]. split; [| reflexivity].
      unfold firstWins. other_types Hty.
      split; [| split; [| split; [| split; [| split]]]]; auto;
        [| other_stores Hty].
      rewrite find_snoc, ?Hprev.
      destruct (find (ofType "index") seen); [exact Hx | discriminate].
    - destruct (decodeIndexBlock b ctx) as [[index more] | msg] eqn:Hdec;
        [| discriminate].
      intros Hret. injection Hret as <-. cbn [fst]. split; [| reflexivity].
      unfold firstWins. other_types Hty.
      split; [| split; [| split; [| split; [| split]]]]; auto;
        [| other_stores Hty].
      rewrite find_snoc, Hb.
      destruct (find (ofType "index") seen) as [b0 |].
      + destruct Hx as (index0 & d0 & _ & Hsome). congruence.
      + exists index, more. now split. }
  destruct (String.eqb_spec (BlockType b) "storage") as [Hty | _].
  { assert (Hb : ofType "storage" b = true)
      by (unfold ofType; rewrite Hty; reflexivity).
    destruct (decodeStorageBlock b ctx) as [[storage more] | msg] eqn:Hdec;
      [| discriminate].
    destruct (decodeStorageBlock_returns _ _ _ _ Hdec) as [Hname ->].
    assert (Hnamed : forall t,
               storageNamed t b = (Storage_Type storage =? t)).
    { intros t. unfold storageNamed. now rewrite Hb, Hname. }
    destruct (lookup (Stores config) (Storage_Type storage)) as [prev |] eqn:Hprev.
    - intros Hret. injection Hret as <-. cbn [fst]. split; [| reflexivity].
      unfold firstWins. other_types Hty.
      split; [| split; [| split; [| split; [| split]]]]; auto.
      intros t. rewrite find_snoc, Hnamed. specialize (Hst t).
      destruct (find (storageNamed t) seen) as [b0 |]; [exact Hst |].
      destruct (String.eqb_spec (Storage_Type storage) t) as [<- | Hne];
        [congruence | exact Hst].
    - intros Hret. injection Hret as <-. cbn [fst]. split; [| reflexivity].
      unfold firstWins. other_types Hty.
      split; [| split; [| split; [| split; [| split]]]]; auto.
      intros t. rewrite find_snoc, Hnamed. specialize (Hst t). cbn [Stores].
      destruct (String.eqb_spec (Storage_Type storage) t) as [<- | Hne].
      + destruct (find (storageNamed (Storage_Type storage)) seen) as [b0 |].
        * destruct Hst as (s0 & d0 & _ & Hsome). congruence.
        * exists storage, []. split; [exact Hdec |].
          apply MapFacts.lookup_insert_eq.
      + rewrite (MapFacts.lookup_insert_neq _ _ t) by exact Hne.
        destruct (find (storageNamed t) seen); exact Hst. }
  destruct (String.eqb_spec (BlockType b) "sync") as [Hty | _].
  { assert (Hb : ofType "sync" b = true)
      by (unfold ofType; rewrite Hty; reflexivity).
    destruct (decodeSyncBlock b ctx) as [sync more] eqn:Hdec.
    intros Hret. injection Hret as <-. cbn [fst]. split; [| reflexivity].
    unfold firstWins. other_types Hty.
    split; [| split; [| split; [| split; [| split]]]]; auto;
      [| other_stores Hty].
    cbn [Syncs]. rewrite (filter_snoc_true _ _ _ Hb), map_app, Hy.
    cbn [map]. now rewrite Hdec. }
  discriminate.
Qed.

Lemma decodeStorageBlock_value (block : Block Body) (ctx : EvalContext)
    (storage : Storage) (d : Diagnostics) :
  decodeStorageBlock block ctx = Returns (storage, d) ->
  storage
  = mkStorage (hd "" (Labels block)) (BlockBody block) ctx
              (hd zeroRange (LabelRanges block)) (DefRange block).
Proof.
  unfold decodeStorageBlock, firstLabel.
  destruct (Labels block) as [| l ls]; [discriminate |].
  destruct (LabelRanges block) as [| r rs]; [discriminate |].
  intros Hret. now injection Hret as <- <-.
Qed.

Lemma find_storageNamed_None (t : string) (seen : list (Block Body)) :
  find (storageNamed t) seen = None ->
  ~ In t (map (fun b => hd "" (Labels b)) (filter (ofType "storage") seen)).
Proof.
  intros Hf Hin. apply in_map_iff in Hin. destruct Hin as (b0 & Hname & Hin).
  apply filter_In in Hin. destruct Hin as [Hin Hty].
  pose proof (find_None_not_In _ _ _ Hf Hin) as Hno.
  unfold storageNamed in Hno. rewrite Hty, Hname, String.eqb_refl in Hno.
  discriminate.
Qed.

(** One root block further, for diagnostics without an error. *)
Lemma decodeRootBlock_unique (ctx : EvalContext) (seen : list (Block Body))
    (st : Config * Diagnostics) (b : Block Body) (st' : Config * Diagnostics) :
  firstWins ctx seen (fst st) ->
  decodeRootBlock ctx st b = Returns st' ->
  HasErrors (snd st') = false ->
  HasErrors (snd st) = false /\ (unique seen -> unique (seen ++ [b])%list).
Proof.
  destruct st as [config diags]. cbn [fst snd].
  intros (Hn & Hi & Hs & Hx & Hy & Hst). unfold decodeRootBlock.
  destruct (String.eqb_spec (BlockType b) "network") as [Hty | _].
  { assert (Hb : ofType "network" b = true)
      by (unfold ofType; rewrite Hty; reflexivity).
    destruct (Config_Network config) as [prev |] eqn:Hprev.
    - intros Hret. injection Hret as <-. cbn [snd]. intros He.
      rewrite HasErrors_snoc_error in He by reflexivity. discriminate.
    - destruct (decodeNetworkBlock b ctx) as [[net more] | msg] eqn:Hdec;
        [| discriminate].
      intros Hret. injection Hret as <-. cbn [snd]. intros He.
      apply HasErrors_app_false in He. destruct He as [He _].
      split; [exact He |]. intros (U1 & U2 & U3 & U4 & U5).
      unfold unique. other_types Hty.
      split; [| split; [| split; [| split]]]; auto.
      rewrite (filter_snoc_true _ _ _ Hb).
      destruct (find (ofType "network") seen) as [b0 |] eqn:Hf.
      + destruct Hn as (net0 & d0 & _ & Hsome). discriminate.
      + rewrite (find_None_filter _ _ Hf). cbn. lia. }
  destruct (String.eqb_spec (BlockType b) "identity") as [Hty | _].
  { assert (Hb : ofType "identity" b = true)
      by (unfold ofType; rewrite Hty; reflexivity).
    destruct (Config_Identity config) as [prev |] eqn:Hprev.
    - intros Hret. injection Hret as <-. cbn [snd]. intros He.
      rewrite HasErrors_snoc_error in He by reflexivity. discriminate.
    - destruct (decodeIdentityBlock b ctx) as [ident more] eqn:Hdec.
      intros Hret. injection Hret as <-. cbn [snd]. intros He.
      apply HasErrors_app_false in He. destruct He as [He _].
      split; [exact He |]. intros (U1 & U2 & U3 & U4 & U5).
      unfold unique. other_types Hty.
      split; [| split; [| split; [| split]]]; auto.
      rewrite (filter_snoc_true _ _ _ Hb).
      destruct (find (ofType "identity") seen) as [b0 |] eqn:Hf;
        [discriminate |].
      rewrite (find_None_filter _ _ Hf). cbn. lia. }
  destruct (String.eqb_spec (BlockType b) "server") as [Hty | _].
  { assert (Hb : ofType "server" b = true)
      by (unfold ofType; rewrite Hty; reflexivity).
    destruct (Config_Server config) as [prev |] eqn:Hprev.
    - intros Hret. injection Hret as <-. cbn [snd]. intros He.
      rewrite HasErrors_snoc_error in He by reflexivity. discriminate.
    - destruct (decodeServerBlock b ctx) as [server more] eqn:Hdec.
      intros Hret. injection Hret as <-. cbn [snd]. intros He.
      apply HasErrors_app_false in He. destruct He as [He _].
      split; [exact He |]. intros (U1 & U2 & U3 & U4 & U5).
      unfold unique. other_types Hty.
      split; [| split; [| split; [| split]]]; auto.
      rewrite (filter_snoc_true _ _ _ Hb).
      destruct (find (ofType "server") seen) as [b0 |] eqn:Hf;
        [discriminate |].
      rewrite (find_None_filter _ _ Hf). cbn. lia. }
  destruct (String.eqb_spec (BlockType b) "index") as [Hty | _].
  { assert (Hb : ofType "index" b = true)
      by (unfold ofType; rewrite Hty; reflexivity).
    destruct (Config_Index config) as [prev |] eqn:Hprev.
    - intros Hret. injection Hret as <-. cbn [snd]. intros He.
      rewrite HasErrors_snoc_error in He by reflexivity. discriminate.
    - destruct (decodeIndexBlock b ctx) as [[index more] | msg] eqn:Hdec;
        [| discriminate].
      intros Hret. injection Hret as <-. cbn [snd]. intros He.
      apply HasErrors_app_false in He. destruct He as [He _].
      split; [exact He |]. intros (U1 & U2 & U3 & U4 & U5).
      unfold unique. other_types Hty.
      split; [| split; [| split; [| split]]]; auto.
      rewrite (filter_snoc_true _ _ _ Hb).
      destruct (find (ofType "index") seen) as [b0 |] eqn:Hf.
      + destruct Hx as (index0 & d0 & _ & Hsome). discriminate.
      + rewrite (find_None_filter _ _ Hf). cbn. lia. }
  destruct (String.eqb_spec (BlockType b) "storage") as [Hty | _].
  { assert (Hb : ofType "storage" b = true)
      by (unfold ofType; rewrite Hty; reflexivity).
    destruct (decodeStorageBlock b ctx) as [[storage more] | msg] eqn:Hdec;
      [| discriminate].
    destruct (decodeStorageBlock_returns _ _ _ _ Hdec) as [Hname ->].
    destruct (lookup (Stores config) (Storage_Type storage)) as [prev |] eqn:Hprev.
    - intros Hret. injection Hret as <-. cbn [snd]. intros He.
      rewrite HasErrors_snoc_error in He by reflexivity. discriminate.
    - intros Hret. injection Hret as <-. cbn [snd]. intros He.
      apply HasErrors_app_false in He. destruct He as [He _].
      split; [exact He |]. intros (U1 & U2 & U3 & U4 & U5).
      unfold unique. other_types Hty.
      split; [| split; [| split; [| split]]]; auto.
      rewrite (filter_snoc_true _ _ _ Hb), map_app. cbn [map].
      apply NoDup_snoc; [exact U5 |].
      apply find_storageNamed_None. specialize (Hst (hd "" (Labels b))).
      rewrite <- Hname in Hst |- *.
      destruct (find (storageNamed (Storage_Type storage)) seen) as [b0 |];
        [| reflexivity].
      destruct Hst as (s0 & d0 & _ & Hsome). congruence. }
  destruct (String.eqb_spec (BlockType b) "sync") as [Hty | _].
  { destruct (decodeSyncBlock b ctx) as [sync more] eqn:Hdec.
    intros Hret. injection Hret as <-. cbn [snd]. intros He.
    apply HasErrors_app_false in He. destruct He as [He _].
    split; [exact He |]. intros (U1 & U2 & U3 & U4 & U5).
    unfold unique. other_types Hty. now repeat split. }
  discriminate.
Qed.

(** The loop of [decodeConfig] over the root blocks. *)
Lemma forEach_decodeRootBlock (ctx : EvalContext) (blocks : list (Block Body))
    (config0 config : Config) (diags0 diags : Diagnostics) :
  firstWins ctx [] config0 ->
  forEach (decodeRootBlock ctx) (config0, diags0) blocks
  = Returns (config, diags) ->
  firstWins ctx blocks config
  /\ Variables config = Variables config0
  /\ (HasErrors diags = false -> HasErrors diags0 = false /\ unique blocks).
Proof.
  intros Hinit Hrun.
  pose proof
    (forEach_invariant (decodeRootBlock ctx)
       (fun seen st =>
          firstWins ctx seen (fst st)
          /\ Variables (fst st) = Variables config0
          /\ (HasErrors (snd st) = false ->
              HasErrors diags0 = false /\ unique seen))) as Hinv.
  cbv beta in Hinv.
  apply (Hinv) with (l := blocks) (seen := []) (st := (config0, diags0))
    in Hrun.
  - exact Hrun.
  - intros seen st a st' (Hfirst & Hvars & Huniq) Hstep.
    destruct (decodeRootBlock_firstWins ctx seen st a st' Hfirst Hstep)
      as [Hfirst' Hvars'].
    split; [exact Hfirst' |]. split; [congruence |].
    intros He.
    destruct (decodeRootBlock_unique ctx seen st a st' Hfirst Hstep He)
      as [He0 Hu].
    destruct (Huniq He0) as [Hd0 Hu0]. split; [exact Hd0 | now apply Hu].
  - cbn [fst snd]. split; [exact Hinit |]. split; [reflexivity |].
    intros He. split; [exact He |].
    unfold unique. cbn. repeat split; try lia. constructor.
Qed.

Lemma firstWins_nil (ctx : EvalContext) (vars : Map string) :
  firstWins ctx [] (mkConfig None vars None None None [] []).
Proof. unfold firstWins. cbn. now repeat split. Qed.

(** X23.  [decodeConfig], the single blocks and the syncs.  When it
    returns, the configuration holds the variables [extractVars] gave, and
    its network, identity, server and index are those of the first block
    of each type among the root blocks, decoded with the variables in
    scope: a later block of the same type never replaces it.  The syncs
    are those of all the "sync" blocks, in order. *)
Theorem decodeConfig_first_block_wins (body : Body) (envs : list string)
    (vars : Map string) (remain : Body) (vdiags : Diagnostics)
    (config : Config) (diags : Diagnostics) :
  extractVars body envs = Returns (vars, remain, vdiags) ->
  decodeConfig body envs = Returns (config, diags) ->
  let blocks := fst (ContentRoot remain) in
  let ctx := evalContext envs vars in
  Variables config = vars
  /\ match find (ofType "network") blocks with
     | Some b =>
         exists net d,
           decodeNetworkBlock b ctx = Returns (net, d)
           /\ Config_Network config = Some net
     | None => Config_Network config = None
     end
  /\ Config_Identity config
     = option_map (fun b => fst (decodeIdentityBlock b ctx))
                  (find (ofType "identity") blocks)
  /\ Config_Server config
     = option_map (fun b => fst (decodeServerBlock b ctx))
                  (find (ofType "server") blocks)
  /\ match find (ofType "index") blocks with
     | Some b =>
         exists r,
           head (LabelRanges b) = Some r
           /\ Config_Index config
              = Some (mkIndex (hd "" (Labels b)) (BlockBody b) ctx r (DefRange b))
     | None => Config_Index config = None
     end
  /\ Syncs config
     = map (fun b => fst (decodeSyncBlock b ctx)) (filter (ofType "sync") blocks).
Proof.
  intros Hvars. unfold decodeConfig. rewrite Hvars.
  destruct (ContentRoot remain) as [blocks more]. cbn [fst].
  intros Hrun.
  destruct (forEach_decodeRootBlock _ _ _ _ _ _ (firstWins_nil _ vars) Hrun)
    as ((Hn & Hi & Hs & Hx & Hy & _) & Hv & _).
  split; [exact Hv |]. split; [exact Hn |]. split; [exact Hi |].
  split; [exact Hs |]. split; [| exact Hy].
  destruct (find (ofType "index") blocks) as [b |]; [| exact Hx].
  destruct Hx as (index & d & Hdec & Hsome).
  unfold decodeIndexBlock, firstLabel in Hdec.
  destruct (Labels b) as [| l ls]; [discriminate |].
  destruct (LabelRanges b) as [| r rs]; [discriminate |].
  injection Hdec as <- <-. exists r. now split.
Qed.

(** X24.  [decodeConfig], the storage handlers.  When it returns, a name
    reads in the map of stores as the first "storage" block whose first
    label is that name: its body, the evaluation context with the
    variables in it, and its ranges; a later block of the same name never
    replaces it.  A name that no block has reads as nothing. *)
Theorem decodeConfig_first_storage_wins (body : Body) (envs : list string)
    (vars : Map string) (remain : Body) (vdiags : Diagnostics)
    (config : Config) (diags : Diagnostics) :
  extractVars body envs = Returns (vars, remain, vdiags) ->
  decodeConfig body envs = Returns (config, diags) ->
  forall t,
    match find (storageNamed t) (fst (ContentRoot remain)) with
    | Some b =>
        exists r,
          head (LabelRanges b) = Some r
          /\ lookup (Stores config) t
             = Some (mkStorage t (BlockBody b) (evalContext envs vars) r
                               (DefRange b))
    | None => lookup (Stores config) t = None
    end.
Proof.
  intros Hvars. unfold decodeConfig. rewrite Hvars.
  destruct (ContentRoot remain) as [blocks more]. cbn [fst].
  intros Hrun t.
  destruct (forEach_decodeRootBlock _ _ _ _ _ _ (firstWins_nil _ vars) Hrun)
    as ((_ & _ & _ & _ & _ & Hst) & _ & _).
  specialize (Hst t).
  destruct (find (storageNamed t) blocks) as [b |] eqn:Hf; [| exact Hst].
  destruct Hst as (storage & d & Hdec & Hsome).
  apply find_some in Hf. destruct Hf as [_ Hnamed].
  unfold storageNamed in Hnamed. apply Bool.andb_true_iff in Hnamed.
  destruct Hnamed as [_ Hname]. apply String.eqb_eq in Hname.
  rewrite Hsome. unfold decodeStorageBlock, firstLabel in Hdec.
  destruct (Labels b) as [| l ls]; [discriminate |].
  destruct (LabelRanges b) as [| r rs]; [discriminate |].
  injection Hdec as <- <-. cbn [hd] in Hname. subst l.
  exists r. now split.
Qed.

(** X25.  [decodeConfig] without an error.  When it returns diagnostics
    with no error in them, neither [extractVars] nor the reading of the
    root blocks reported one, there is at most one block of each of the
    types network, identity, server and index, and no two "storage" blocks
    have the same first label. *)
Theorem decodeConfig_without_errors (body : Body) (envs : list string)
    (vars : Map string) (remain : Body) (vdiags : Diagnostics)
    (config : Config) (diags : Diagnostics) :
  extractVars body envs = Returns (vars, remain, vdiags) ->
  decodeConfig body envs = Returns (config, diags) ->
  HasErrors diags = false ->
  let blocks := fst (ContentRoot remain) in
  HasErrors vdiags = false
  /\ HasErrors (snd (ContentRoot remain)) = false
  /\ (forall t,
        In t ["network"; "identity"; "server"; "index"] ->
        (List.length (filter (ofType t) blocks) <= 1)%nat)
  /\ NoDup (map (fun b => hd "" (Labels b)) (filter (ofType "storage") blocks)).
Proof.
  intros Hvars. unfold decodeConfig. rewrite Hvars.
  destruct (ContentRoot remain) as [blocks more]. cbn [fst snd].
  intros Hrun He.
  destruct (forEach_decodeRootBlock _ _ _ _ _ _ (firstWins_nil _ vars) Hrun)
    as (_ & _ & Hu).
  destruct (Hu He) as [He0 (U1 & U2 & U3 & U4 & U5)].
  apply HasErrors_app_false in He0. destruct He0 as [Hv Hm].
  split; [exact Hv |]. split; [exact Hm |]. split; [| exact U5].
  intros t [<- | [<- | [<- | [<- | []]]]]; assumption.
Qed.

(** X26.  [ReadConfig].  When the source does not parse, it returns no
    configuration and no file, and the diagnostics of the parser as the
    error, without decoding anything.  In every result the error, when
    there is one, holds an error diagnostic: warnings alone are not
    returned.  When there is no error, the source parsed and decoded
    without one, and the configuration and the file are both present; the
    configuration is absent exactly when the source did not parse. *)
Theorem ReadConfig_error (src : list byte) (filename : string)
    (envs : list string) :
  let f := fst (ParseHCL src filename) in
  let pdiags := snd (ParseHCL src filename) in
  (HasErrors pdiags = true ->
   ReadConfig src filename envs = Returns (None, None, Some pdiags))
  /\ forall c file err,
       ReadConfig src filename envs = Returns (c, file, err) ->
       (forall d, err = Some d -> HasErrors d = true)
       /\ (err = None ->
           HasErrors pdiags = false
           /\ file = Some f
           /\ exists config diags,
                decodeConfig (FileBody f) envs = Returns (config, diags)
                /\ c = Some config
                /\ HasErrors diags = false)
       /\ (c = None <-> HasErrors pdiags = true)
       /\ (file = None <-> c = None).
Proof.
  intros f pdiags. subst f pdiags. unfold ReadConfig.
  destruct (ParseHCL src filename) as [f pdiags]. cbn [fst snd].
  destruct (HasErrors pdiags) eqn:Hp.
  - split; [reflexivity |]. intros c file err Hret.
    injection Hret as <- <- <-.
    split; [intros d Hd; now injection Hd as <- |].
    split; [discriminate |]. now split.
  - split; [discriminate |]. intros c file err.
    destruct (decodeConfig (FileBody f) envs) as [[config diags] | msg] eqn:Hdec;
      [| discriminate].
    destruct (HasErrors diags) eqn:Hd; intros Hret; injection Hret as <- <- <-.
    + split; [intros d Hd'; now injection Hd' as <- |].
      split; [discriminate |]. split; split; discriminate.
    + split; [discriminate |]. split.
      * intros _. split; [reflexivity |]. split; [reflexivity |].
        exists config, diags. now repeat split.
      * split; split; discriminate.
Qed.

End ConfigFacts.

(** *** The configuration decoders, run *)

Section ConfigWitnesses.

Import Configs ConfigFixtures.

Local Open Scope string_scope.

Lemma evalContext_var_object_witness :
  NoDup (keys [("name", "blobs"); ("home", "/root")])
  /\ lookup (@varVals lib [("name", "blobs"); ("home", "/root")]) "home"
     = Some (VStr "/root")
  /\ lookup (@varVals lib [("name", "blobs"); ("home", "/root")]) "shell" = None.
Proof.
  assert (Hnd : NoDup (keys [("name", "blobs"); ("home", "/root")])).
  { repeat constructor; cbn; intuition discriminate. }
  split; [exact Hnd |].
  destruct (@evalContext_var_object lib environ _ Hnd) as (_ & Hread & _).
  rewrite !Hread. split; reflexivity.
Defined.

Lemma extractVars_first_definition_witness :
  exists vars remain diags,
    @extractVars lib untidy environ = Returns (vars, remain, diags)
    /\ lookup vars "name" = Some "a"
    /\ lookup vars "twice" = Some "2"
    /\ lookup vars "home" = None.
Proof.
  destruct (@extractVars lib untidy environ) as [[[vars remain] diags] | msg]
    eqn:Hrun; [| vm_compute in Hrun; discriminate].
  exists vars, remain, diags. split; [reflexivity |].
  destruct (@extractVars_first_definition lib _ _ _ _ _ Hrun) as [_ Hval].
  rewrite !Hval. vm_compute. now repeat split.
Defined.

Lemma extractVars_without_errors_witness :
  exists vars remain diags,
    @extractVars lib tidy environ = Returns (vars, remain, diags)
    /\ HasErrors diags = false
    /\ lookup vars "home" = Some "/root".
Proof.
  destruct (@extractVars lib tidy environ) as [[[vars remain] diags] | msg]
    eqn:Hrun; [| vm_compute in Hrun; discriminate].
  assert (He : HasErrors diags = false).
  { vm_compute in Hrun. now injection Hrun as <- <- <-. }
  exists vars, remain, diags. split; [reflexivity |]. split; [exact He |].
  destruct (@extractVars_without_errors lib _ _ _ _ _ Hrun He) as (_ & Hread & _).
  destruct (Hread "home" (mkAttribute "home" (Ref "env" "HOME") here here))
    as [_ Hhome]; [vm_compute; auto |].
  rewrite Hhome. reflexivity.
Defined.

Lemma decodeConfig_first_block_wins_witness :
  exists vars remain vdiags config diags,
    @extractVars lib untidy environ = Returns (vars, remain, vdiags)
    /\ @decodeConfig lib untidy environ = Returns (config, diags)
    /\ Config_Server config = Some (mkServer true false true [] here)
    /\ Config_Network config = None
    /\ Syncs config = [].
Proof.
  destruct (@extractVars lib untidy environ) as [[[vars remain] vdiags] | msg]
    eqn:Hvars; [| vm_compute in Hvars; discriminate].
  destruct (@decodeConfig lib untidy environ) as [[config diags] | msg]
    eqn:Hrun; [| vm_compute in Hrun; discriminate].
  exists vars, remain, vdiags, config, diags.
  split; [reflexivity |]. split; [reflexivity |].
  pose proof (@decodeConfig_first_block_wins lib _ _ _ _ _ _ _ Hvars Hrun)
    as Hfirst.
  cbv zeta in Hfirst. destruct Hfirst as (_ & Hn & _ & Hs & _ & Hy).
  pose proof Hvars as Hvars'. vm_compute in Hvars'.
  injection Hvars' as <- <- <-.
  rewrite Hs, Hy. split; [reflexivity |]. split; [exact Hn | reflexivity].
Defined.

Lemma decodeConfig_first_storage_wins_witness :
  exists vars remain vdiags config diags,
    @extractVars lib untidy environ = Returns (vars, remain, vdiags)
    /\ @decodeConfig lib untidy environ = Returns (config, diags)
    /\ (exists storage,
          lookup (Stores config) "primary" = Some storage
          /\ @Storage_Config lib storage = mkCfgBody [("bucket", Lit "one")] [])
    /\ lookup (Stores config) "backup" = None.
Proof.
  destruct (@extractVars lib untidy environ) as [[[vars remain] vdiags] | msg]
    eqn:Hvars; [| vm_compute in Hvars; discriminate].
  destruct (@decodeConfig lib untidy environ) as [[config diags] | msg]
    eqn:Hrun; [| vm_compute in Hrun; discriminate].
  exists vars, remain, vdiags, config, diags.
  split; [reflexivity |]. split; [reflexivity |].
  pose proof (@decodeConfig_first_storage_wins lib _ _ _ _ _ _ _ Hvars Hrun)
    as Hfirst.
  pose proof (Hfirst "primary") as Hp. pose proof (Hfirst "backup") as Hb.
  pose proof Hvars as Hvars'. vm_compute in Hvars'.
  injection Hvars' as <- <- <-.
  split; [| exact Hb].
  cbn in Hp. destruct Hp as (r & _ & Hp). eexists. split; [exact Hp |].
  reflexivity.
Defined.

Lemma decodeConfig_without_errors_witness :
  exists vars remain vdiags config diags,
    @extractVars lib tidy environ = Returns (vars, remain, vdiags)
    /\ @decodeConfig lib tidy environ = Returns (config, diags)
    /\ HasErrors diags = false
    /\ NoDup (map (fun b => hd "" (Labels b))
                  (filter (@ofType lib "storage") (fst (@ContentRoot lib remain)))).
Proof.
  destruct (@extractVars lib tidy environ) as [[[vars remain] vdiags] | msg]
    eqn:Hvars; [| vm_compute in Hvars; discriminate].
  destruct (@decodeConfig lib tidy environ) as [[config diags] | msg]
    eqn:Hrun; [| vm_compute in Hrun; discriminate].
  assert (He : HasErrors diags = false).
  { vm_compute in Hrun. now injection Hrun as <- <-. }
  exists vars, remain, vdiags, config, diags.
  split; [reflexivity |]. split; [reflexivity |]. split; [exact He |].
  apply (@decodeConfig_without_errors lib _ _ _ _ _ _ _ Hvars Hrun He).
Defined.

End ConfigWitnesses.
